(** * cawston_app: budget extraction, reconciliation and projection

    A shallow embedding of [data_processor.py] (class
    [FinancialDataProcessor]) and [probability_engine.py] (class
    [ProbabilityEngine]), with the properties of the specification stated
    over it.

    Numbers.  Python and numpy floats are modelled as exact rationals
    extended with the IEEE special values (two infinities and NaN), so
    that array division by zero and [fillna] behave as they do in pandas;
    rounding, overflow (of float64 and of int64 columns) and the sign of
    zero are abstracted away.  A property that compares the results of
    different computations therefore holds in exact arithmetic only, and
    says so; where the rounding of the program itself is at stake, the
    arithmetic of a row is repeated on binary64 numbers ([Binary64]).

    Strings.  A Python [str] is a [string] whose characters are the code
    points below 256, so the pound sign is the single character 163. *)

From Stdlib Require Import ZArith QArith Qabs Qround Lqa Lia List String Ascii Bool Sorted.
From Stdlib Require PrimFloat.
From stdpp Require Import gmap strings list.

Open Scope Q_scope.
Open Scope string_scope.
Open Scope list_scope.

(** ** Floats *)

Inductive float : Type :=
| Fin (q : Q)
| PInf
| NInf
| NaN.

Module Float.

Definition is_zero (q : Q) : bool := Qeq_bool q 0.
Definition is_neg (q : Q) : bool := negb (Qle_bool 0 q).

Definition isnan (x : float) : bool :=
  match x with NaN => true | _ => false end.

Definition finite (x : float) : Prop :=
  match x with Fin _ => True | _ => False end.

Definition neg (x : float) : float :=
  match x with
  | Fin q => Fin (- q)
  | PInf => NInf
  | NInf => PInf
  | NaN => NaN
  end.

Definition add (x y : float) : float :=
  match x, y with
  | NaN, _ | _, NaN => NaN
  | Fin a, Fin b => Fin (a + b)
  | PInf, NInf | NInf, PInf => NaN
  | PInf, _ | _, PInf => PInf
  | NInf, _ | _, NInf => NInf
  end.

Definition sub (x y : float) : float := add x (neg y).

(** An infinity of the sign of [x], scaled by the finite factor [q]. *)
Definition scale_inf (x : float) (q : Q) : float :=
  if is_zero q then NaN else if is_neg q then neg x else x.

Definition mul (x y : float) : float :=
  match x, y with
  | NaN, _ | _, NaN => NaN
  | Fin a, Fin b => Fin (a * b)
  | Fin a, _ => scale_inf y a
  | _, Fin b => scale_inf x b
  | PInf, PInf | NInf, NInf => PInf
  | PInf, NInf | NInf, PInf => NInf
  end.

(** numpy's true division: a zero divisor gives an infinity of the sign
    of the dividend, and [0 / 0] gives NaN; nothing is raised. *)
Definition div (x y : float) : float :=
  match x, y with
  | NaN, _ | _, NaN => NaN
  | Fin a, Fin b =>
      if is_zero b then
        if is_zero a then NaN else if is_neg a then NInf else PInf
      else Fin (a / b)
  | Fin _, _ => Fin 0
  | _, Fin b => if is_neg b then neg x else x
  | _, _ => NaN
  end.

Definition abs (x : float) : float :=
  match x with
  | Fin q => Fin (Qabs q)
  | PInf | NInf => PInf
  | NaN => NaN
  end.

(** Comparisons; every comparison with NaN is false. *)
Definition leb (x y : float) : bool :=
  match x, y with
  | NaN, _ | _, NaN => false
  | Fin a, Fin b => Qle_bool a b
  | NInf, _ | _, PInf => true
  | _, _ => false
  end.

Definition eqb (x y : float) : bool :=
  match x, y with
  | Fin a, Fin b => Qeq_bool a b
  | PInf, PInf | NInf, NInf => true
  | _, _ => false
  end.

Definition ltb (x y : float) : bool := leb x y && negb (eqb x y).

(** [np.maximum] and [np.minimum] propagate NaN. *)
Definition maximum (x y : float) : float :=
  if isnan x || isnan y then NaN else if leb x y then y else x.
Definition minimum (x y : float) : float :=
  if isnan x || isnan y then NaN else if leb x y then x else y.

(** [np.clip(x, lo, hi)] is [minimum(maximum(x, lo), hi)]. *)
Definition clip (x lo hi : float) : float := minimum (maximum x lo) hi.

(** Equality of floats as numbers: the rationals up to [Qeq]. *)
Definition eq (x y : float) : Prop :=
  match x, y with
  | Fin a, Fin b => a == b
  | PInf, PInf | NInf, NInf | NaN, NaN => True
  | _, _ => False
  end.

End Float.

Infix "=f=" := Float.eq (at level 70, no associativity).

(** ** Python values, exceptions *)

Inductive value : Type :=
| VNum (x : float)
| VStr (s : string).

Inductive exn : Type :=
| KeyError (k : string)
| TypeError
| ValueError
| IndexError.

Inductive result (A : Type) : Type :=
| Ok (a : A)
| Raise (e : exn).
Arguments Ok {A} a.
Arguments Raise {A} e.

#[global] Instance result_bind : MBind result := fun A B k m =>
  match m with
  | Ok a => k a
  | Raise e => Raise e
  end.
#[global] Instance result_ret : MRet result := fun A a => Ok a.

Fixpoint traverse {A B} (f : A -> result B) (l : list A) : result (list B) :=
  match l with
  | [] => Ok []
  | a :: t => b ← f a; r ← traverse f t; Ok (b :: r)
  end.

(** ** Series and data frames *)

Abbreviation Series := (list value).

(** A frame is its row count (the length of the index) and its columns in
    order, each with its label.  [pd.DataFrame()] has neither. *)
Record DataFrame : Type := mkDF {
  nrows : nat;
  data : list (string * Series)
}.

Definition empty_frame : DataFrame := mkDF 0 [].

Definition columns (df : DataFrame) : list string := map fst (data df).

Definition has_column (df : DataFrame) (c : string) : bool :=
  bool_decide (c ∈ columns df).

(** [df.empty]: some axis has length zero. *)
Definition empty (df : DataFrame) : bool :=
  (nrows df =? 0)%nat || (length (data df) =? 0)%nat.

Fixpoint assoc (c : string) (l : list (string * Series)) : option Series :=
  match l with
  | [] => None
  | (k, s) :: t => if String.eqb k c then Some s else assoc c t
  end.

(** [df[c]] for a frame whose column labels are distinct, as
    [pd.read_csv] and [pd.DataFrame(records)] build them: the column of
    that label.  (For a repeated label pandas returns a frame of all the
    columns that bear it; no such frame is built here.) *)
Definition getitem (df : DataFrame) (c : string) : result Series :=
  match assoc c (data df) with
  | Some s => Ok s
  | None => Raise (KeyError c)
  end.

Fixpoint replace_col (c : string) (s : Series) (l : list (string * Series))
  : list (string * Series) :=
  match l with
  | [] => []
  | (k, s0) :: t =>
      if String.eqb k c then (k, s) :: t else (k, s0) :: replace_col c s t
  end.

(** [df[c] = s]: an existing column is overwritten in place, a new one is
    appended. *)
Definition setitem (df : DataFrame) (c : string) (s : Series) : DataFrame :=
  if has_column df c
  then mkDF (nrows df) (replace_col c s (data df))
  else mkDF (nrows df) (data df ++ [(c, s)]).

(** Rows, as [DataFrame.apply(axis=1)] and [iterrows] present them. *)
Abbreviation Row := (list (string * value)).

Definition cell (s : Series) (i : nat) : value := default (VNum NaN) (s !! i).

Definition row_at (df : DataFrame) (i : nat) : Row :=
  map (fun cs => (fst cs, cell (snd cs) i)) (data df).

Definition rows (df : DataFrame) : list Row :=
  map (row_at df) (seq 0 (nrows df)).

Fixpoint row_get (r : Row) (c : string) : result value :=
  match r with
  | [] => Raise (KeyError c)
  | (k, v) :: t => if String.eqb k c then Ok v else row_get t c
  end.

(** [df.apply(f, axis=1)] *)
Definition apply_rows (df : DataFrame) (f : Row -> result value) : result Series :=
  traverse f (rows df).

(** Elementwise arithmetic; a string operand raises [TypeError]. *)
Definition num_binop (f : float -> float -> float) (a b : value) : result value :=
  match a, b with
  | VNum x, VNum y => Ok (VNum (f x y))
  | _, _ => Raise TypeError
  end.

Definition num_unop (f : float -> float) (a : value) : result value :=
  match a with
  | VNum x => Ok (VNum (f x))
  | VStr _ => Raise TypeError
  end.

Definition series_binop (f : float -> float -> float) (s1 s2 : Series)
  : result Series :=
  traverse (fun p => num_binop f (fst p) (snd p)) (zip s1 s2).

Definition series_unop (f : float -> float) (s : Series) : result Series :=
  traverse (num_unop f) s.

(** [s.fillna(x)] replaces the NaN cells only. *)
Definition fillna (x : float) (s : Series) : Series :=
  map (fun v => match v with VNum NaN => VNum x | _ => v end) s.

(** [np.clip(s, lo, hi)] and [s * k] on a whole column. *)
Definition series_clip (lo hi : float) (s : Series) : result Series :=
  series_unop (fun x => Float.clip x lo hi) s.

Definition series_scale (k : float) (s : Series) : result Series :=
  series_unop (fun x => Float.mul x k) s.

(** [s.sum()]: NaN cells are skipped. *)
Definition series_sum (s : Series) : result float :=
  foldl (fun acc v =>
           a ← acc;
           match v with
           | VNum NaN => Ok a
           | VNum x => Ok (Float.add a x)
           | VStr _ => Raise TypeError
           end) (Ok (Fin 0)) s.

(** ** probability_engine.py *)

Module ProbabilityEngine.

Definition budget_col (df : DataFrame) : string :=
  if has_column df "budget_2025_26" then "budget_2025_26" else "budget".

Definition actual_col (df : DataFrame) : string :=
  if has_column df "actual_net" then "actual_net" else "actual".

(** [probabilities.get(k, 100)] for a dictionary keyed by category
    names: a key that is not a string is not found. *)
Definition probabilities_get (probabilities : gmap string float) (k : value)
  : float :=
  match k with
  | VStr s => default (Fin 100) (probabilities !! s)
  | VNum _ => Fin 100
  end.

Definition apply_probability_scenario
    (df : DataFrame) (probabilities : gmap string float) : result DataFrame :=
  let df_scenario := df in
  let budget_col := budget_col df in
  let actual_col := actual_col df in
  pf ← apply_rows df_scenario (fun row =>
          c ← row_get row "category";
          Ok (VNum (Float.div (probabilities_get probabilities c) (Fin 100))));
  let df_scenario := setitem df_scenario "probability_factor" pf in
  b ← getitem df_scenario budget_col;
  a ← getitem df_scenario actual_col;
  rb ← series_binop Float.sub b a;
  let df_scenario := setitem df_scenario "remaining_budget" rb in
  rb ← getitem df_scenario "remaining_budget";
  pf ← getitem df_scenario "probability_factor";
  pr ← series_binop Float.mul rb pf;
  let df_scenario := setitem df_scenario "projected_remaining" pr in
  a ← getitem df_scenario actual_col;
  pr ← getitem df_scenario "projected_remaining";
  pt ← series_binop Float.add a pr;
  let df_scenario := setitem df_scenario "projected_total" pt in
  b ← getitem df_scenario budget_col;
  pt ← getitem df_scenario "projected_total";
  pv ← series_binop Float.sub b pt;
  let df_scenario := setitem df_scenario "projected_variance" pv in
  Ok df_scenario.

(** [budget_amount == 0]: a string is never equal to a number. *)
Definition equals_zero (v : value) : bool :=
  match v with
  | VNum x => Float.eqb x (Fin 0)
  | VStr _ => false
  end.

Definition categorize_risk (variance_pct budget_amount : value) : result string :=
  abs_variance ← num_unop Float.abs variance_pct;
  match abs_variance with
  | VStr _ => Raise TypeError
  | VNum abs_variance =>
      if equals_zero budget_amount then Ok "No Budget"
      else if Float.leb abs_variance (Fin 5) then Ok "Low Risk"
      else if Float.leb abs_variance (Fin 15) then Ok "Medium Risk"
      else if Float.leb abs_variance (Fin 30) then Ok "High Risk"
      else Ok "Critical Risk"
  end.

Definition calculate_risk_assessment (df : DataFrame) : result DataFrame :=
  let df_risk := df in
  let budget_col := budget_col df in
  let actual_col := actual_col df in
  b ← getitem df_risk budget_col;
  a ← getitem df_risk actual_col;
  d ← series_binop Float.sub b a;
  b ← getitem df_risk budget_col;
  q ← series_binop Float.div d b;
  p ← series_scale (Fin 100) q;
  let df_risk := setitem df_risk "variance_pct" (fillna (Fin 0) p) in
  rc ← apply_rows df_risk (fun row =>
          v ← row_get row "variance_pct";
          b ← row_get row budget_col;
          c ← categorize_risk v b;
          Ok (VStr c));
  let df_risk := setitem df_risk "risk_category" rc in
  v ← getitem df_risk "variance_pct";
  av ← series_unop Float.abs v;
  sc ← series_scale (Fin 2) av;
  rs ← series_clip (Fin 0) (Fin 100) sc;
  let df_risk := setitem df_risk "risk_score" rs in
  Ok df_risk.

(** [pd.DataFrame(records)] for dictionaries with the same keys: no
    record gives the frame without rows and columns. *)
Definition frame_of_records (records : list Row) : DataFrame :=
  match records with
  | [] => empty_frame
  | r :: _ =>
      mkDF (length records)
           (map (fun kv =>
                   (fst kv,
                    map (fun r' => match row_get r' (fst kv) with
                                   | Ok v => v
                                   | Raise _ => VNum NaN
                                   end) records)) r)
  end.

Definition months_elapsed : Z := 5.

(** The inner loop over [range(1, months_ahead + 1)]: [left] months are
    still to come, the next one is [month]. *)
Fixpoint project_months (left : nat) (month : Z) (row : Row) (budget_col : string)
    (monthly_actual cumulative_projected : value) : result (list Row) :=
  match left with
  | O => Ok []
  | S left' =>
      cumulative_projected ← num_binop Float.add cumulative_projected monthly_actual;
      description ← row_get row "description";
      category ← row_get row "category";
      budget ← row_get row budget_col;
      b ← row_get row budget_col;
      remaining ← num_binop Float.sub b cumulative_projected;
      rest ← project_months left' (month + 1) row budget_col
               monthly_actual cumulative_projected;
      Ok ([("description", description);
           ("category", category);
           ("month", VNum (Fin (inject_Z month)));
           ("monthly_projected", monthly_actual);
           ("cumulative_projected", cumulative_projected);
           ("budget", budget);
           ("remaining_budget", remaining)] :: rest)
  end.

Definition project_row (row : Row) (budget_col actual_col : string)
    (months_ahead : Z) : result (list Row) :=
  monthly_actual ←
    (if (0 <? months_elapsed)%Z
     then a ← row_get row actual_col;
          num_binop Float.div a (VNum (Fin (inject_Z months_elapsed)))
     else Ok (VNum (Fin 0)));
  b ← row_get row budget_col;
  a ← row_get row actual_col;
  remaining_budget ← num_binop Float.sub b a;
  cumulative_projected ← row_get row actual_col;
  project_months (Z.to_nat months_ahead) 1 row budget_col
    monthly_actual cumulative_projected.

Definition generate_cash_flow_projection (df : DataFrame) (months_ahead : Z)
  : result DataFrame :=
  let budget_col := budget_col df in
  let actual_col := actual_col df in
  projections ←
    traverse (fun row => project_row row budget_col actual_col months_ahead)
             (rows df);
  Ok (frame_of_records (concat projections)).

(** *** numpy statistics on the array of results *)

Fixpoint insert_sorted (x : float) (l : list float) : list float :=
  match l with
  | [] => [x]
  | y :: t => if Float.leb x y then x :: l else y :: insert_sorted x t
  end.

Definition sort (l : list float) : list float := foldr insert_sorted [] l.

Definition clamp_index (n : nat) (i : Z) : nat :=
  Z.to_nat (Z.max 0 (Z.min i (Z.of_nat n - 1))).

(** [np.percentile(a, q)] with the default linear interpolation, for
    [q] between 0 and 100.  The empty array has no last element to
    inspect and raises [IndexError]; an array that holds a NaN gives
    NaN; otherwise the sorted array is read at the virtual index
    [(n - 1) * q / 100], interpolating between its two neighbours. *)
Definition percentile (a : list float) (q : Q) : result float :=
  if (length a =? 0)%nat then Raise IndexError
  else if existsb Float.isnan a then Ok NaN
  else
    let arr := sort a in
    let n := length arr in
    let virtual_index := inject_Z (Z.of_nat n - 1) * (q / 100) in
    let previous_index := Qfloor virtual_index in
    let gamma := virtual_index - inject_Z previous_index in
    let previous := nth (clamp_index n previous_index) arr NaN in
    let next := nth (clamp_index n (previous_index + 1)) arr NaN in
    Ok (Float.add previous (Float.mul (Float.sub next previous) (Fin gamma))).

Definition array_sum (a : list float) : float := foldl Float.add (Fin 0) a.

Definition array_len (a : list float) : float := Fin (inject_Z (Z.of_nat (length a))).

(** [np.mean(a)]; NaN for the empty array. *)
Definition mean (a : list float) : float := Float.div (array_sum a) (array_len a).

(** [np.sum(a > 0)] *)
Definition count_positive (a : list float) : float :=
  Fin (inject_Z (Z.of_nat (length (List.filter (fun x => Float.ltb (Fin 0) x) a)))).

(** [s.unique()]: the distinct labels in the order of first appearance. *)
Definition same_label (x y : value) : bool :=
  match x, y with
  | VStr s, VStr t => String.eqb s t
  | VNum a, VNum b => Float.eqb a b || (Float.isnan a && Float.isnan b)
  | _, _ => false
  end.

Fixpoint unique_aux (seen : list value) (s : Series) : list value :=
  match s with
  | [] => []
  | v :: t =>
      if existsb (same_label v) seen then unique_aux seen t
      else v :: unique_aux (v :: seen) t
  end.

Definition unique (s : Series) : list value := unique_aux [] s.

Record MonteCarloResult : Type := mkMC {
  mean_variance : float;
  std_variance : float;
  percentile_5 : float;
  percentile_25 : float;
  percentile_75 : float;
  percentile_95 : float;
  probability_positive : float;
  all_results : list float
}.

Section MonteCarlo.

(** The generator: [normal k] is the [k]-th sample that
    [np.random.normal(75, 20)] returns, and [np_sqrt] is [np.sqrt]. *)
Variable normal : nat -> Q.
Variable np_sqrt : float -> float.

(** The loop over the categories: [k] samples were drawn before.  The
    dictionary is keyed by category names, as the [Dict[str, float]] of
    [apply_probability_scenario] is; a label that is not a string draws
    its sample and gets no entry. *)
Fixpoint draw_probs (categories : list value) (k : nat)
    (random_probs : gmap string float) : gmap string float * nat :=
  match categories with
  | [] => (random_probs, k)
  | category :: rest =>
      let prob := Fin (normal k) in
      let prob := Float.clip prob (Fin 10) (Fin 100) in
      draw_probs rest (S k)
        match category with
        | VStr c => <[c := prob]> random_probs
        | VNum _ => random_probs
        end
  end.

(** The loop over [range(simulations)]. *)
Fixpoint simulate (left : nat) (k : nat) (df : DataFrame) (results : list float)
  : result (list float) :=
  match left with
  | O => Ok results
  | S left' =>
      let scenario_df := df in
      categories ← getitem df "category";
      let '(random_probs, k') := draw_probs (unique categories) k ∅ in
      scenario_df ← apply_probability_scenario scenario_df random_probs;
      pv ← getitem scenario_df "projected_variance";
      total_variance ← series_sum pv;
      simulate left' k' df (results ++ [total_variance])
  end.

(** [np.std(a)]: the root of the mean squared deviation. *)
Definition std (a : list float) : float :=
  let m := mean a in
  np_sqrt (mean (map (fun x => Float.mul (Float.sub x m) (Float.sub x m)) a)).

Definition calculate_monte_carlo_simulation (df : DataFrame) (simulations : nat)
  : result MonteCarloResult :=
  results ← simulate simulations 0 df [];
  let mean_variance := mean results in
  let std_variance := std results in
  percentile_5 ← percentile results 5;
  percentile_25 ← percentile results 25;
  percentile_75 ← percentile results 75;
  percentile_95 ← percentile results 95;
  Ok {| mean_variance := mean_variance;
        std_variance := std_variance;
        percentile_5 := percentile_5;
        percentile_25 := percentile_25;
        percentile_75 := percentile_75;
        percentile_95 := percentile_95;
        probability_positive :=
          Float.mul (Float.div (count_positive results) (array_len results))
                    (Fin 100);
        all_results := results |}.

End MonteCarlo.

(** [(total_variance / total_budget * 100) if total_budget != 0 else 0] *)
Definition variance_percentage (total_variance total_budget : float) : float :=
  if negb (Float.eqb total_budget (Fin 0))
  then Float.mul (Float.div total_variance total_budget) (Fin 100)
  else Fin 0.

(** One turn of the loop of [calculate_scenario_comparison]. *)
Definition compare_scenario (df : DataFrame)
    (scenario : string * gmap string float) : result (list (string * value)) :=
  let scenario_name := fst scenario in
  let probabilities := snd scenario in
  scenario_df ← apply_probability_scenario df probabilities;
  b ← getitem scenario_df (budget_col scenario_df);
  total_budget ← series_sum b;
  pt ← getitem scenario_df "projected_total";
  total_projected ← series_sum pt;
  pv ← getitem scenario_df "projected_variance";
  total_variance ← series_sum pv;
  Ok [("scenario", VStr scenario_name);
      ("total_budget", VNum total_budget);
      ("total_projected", VNum total_projected);
      ("total_variance", VNum total_variance);
      ("variance_percentage", VNum (variance_percentage total_variance total_budget))].

(** [calculate_scenario_comparison] on the items of [scenarios], in the
    order of insertion. *)
Definition calculate_scenario_comparison (df : DataFrame)
    (scenarios : list (string * gmap string float)) : result DataFrame :=
  comparison_data ← traverse (compare_scenario df) scenarios;
  Ok (frame_of_records comparison_data).

(** [save_scenario] and [load_scenario] on the dictionary [self.scenarios]. *)
Definition save_scenario (scenarios : gmap string (gmap string float))
    (name : string) (probabilities : gmap string float)
  : gmap string (gmap string float) :=
  <[name := probabilities]> scenarios.

Definition load_scenario (scenarios : gmap string (gmap string float))
    (name : string) : option (gmap string float) :=
  scenarios !! name.

Section DefaultScenarios.

(** [uniform k low high] is what the [k]-th call of the generator,
    [np.random.uniform(low, high)], returns. *)
Variable uniform : nat -> Q -> Q -> Q.

(** [{cat: np.random.uniform(low, high) for cat in categories}], after
    [k] earlier calls. *)
Fixpoint draw_uniform (categories : list string) (k : nat) (low high : Q)
    (scenario : gmap string float) : gmap string float * nat :=
  match categories with
  | [] => (scenario, k)
  | cat :: rest =>
      draw_uniform rest (S k) low high (<[cat := Fin (uniform k low high)]> scenario)
  end.

Definition get_default_scenarios (categories : list string)
  : list (string * gmap string float) :=
  let conservative := draw_uniform categories 0 60 80 ∅ in
  let optimistic := draw_uniform categories (snd conservative) 90 100 ∅ in
  let pessimistic := draw_uniform categories (snd optimistic) 40 60 ∅ in
  let realistic := draw_uniform categories (snd pessimistic) 70 90 ∅ in
  [("Conservative", fst conservative);
   ("Optimistic", fst optimistic);
   ("Pessimistic", fst pessimistic);
   ("Realistic", fst realistic)].

End DefaultScenarios.

End ProbabilityEngine.

(** ** Python string operations *)

Module Str.

Definition code (c : ascii) : nat := nat_of_ascii c.

Definition between (lo hi : nat) (c : ascii) : bool :=
  (lo <=? code c)%nat && (code c <=? hi)%nat.

(** [\d] in a [str] pattern: the decimal digits. *)
Definition is_decimal (c : ascii) : bool := between 48 57 c.

(** [c.isdigit()] also accepts the superscript digits of Latin-1. *)
Definition isdigit (c : ascii) : bool :=
  is_decimal c || (code c =? 178)%nat || (code c =? 179)%nat || (code c =? 185)%nat.

(** [\s] and [str.isspace]. *)
Definition isspace (c : ascii) : bool :=
  between 9 13 c || between 28 32 c || (code c =? 133)%nat || (code c =? 160)%nat.

Definition lower_char (c : ascii) : ascii :=
  if between 65 90 c || (between 192 222 c && negb (code c =? 215)%nat)
  then ascii_of_nat (code c + 32) else c.

Fixpoint map_chars (f : ascii -> ascii) (s : string) : string :=
  match s with
  | EmptyString => EmptyString
  | String c t => String (f c) (map_chars f t)
  end.

(** [s.lower()] *)
Definition lower (s : string) : string := map_chars lower_char s.

(** [s.replace(a, b)] for single characters. *)
Definition replace_char (a b : ascii) (s : string) : string :=
  map_chars (fun c => if Ascii.eqb c a then b else c) s.

(** [s.replace(a, '')] for a single character. *)
Fixpoint remove_char (a : ascii) (s : string) : string :=
  match s with
  | EmptyString => EmptyString
  | String c t => if Ascii.eqb c a then remove_char a t else String c (remove_char a t)
  end.

Fixpoint exists_char (p : ascii -> bool) (s : string) : bool :=
  match s with
  | EmptyString => false
  | String c t => p c || exists_char p t
  end.

(** [sub in s] *)
Fixpoint contains (sub s : string) : bool :=
  String.prefix sub s ||
  match s with
  | EmptyString => false
  | String _ t => contains sub t
  end.

Fixpoint lstrip (s : string) : string :=
  match s with
  | String c t => if isspace c then lstrip t else s
  | EmptyString => EmptyString
  end.

Fixpoint rstrip (s : string) : string :=
  match s with
  | EmptyString => EmptyString
  | String c t =>
      match rstrip t with
      | EmptyString => if isspace c then EmptyString else String c EmptyString
      | t' => String c t'
      end
  end.

(** [s.strip()] *)
Definition strip (s : string) : string := rstrip (lstrip s).

(** [s.split(sep)] for a single-character separator. *)
Fixpoint split_on (sep : ascii) (s : string) : list string :=
  match s with
  | EmptyString => [EmptyString]
  | String c t =>
      if Ascii.eqb c sep then EmptyString :: split_on sep t
      else match split_on sep t with
           | w :: ws => String c w :: ws
           | [] => [String c EmptyString]
           end
  end.

(** [s.split()]: the maximal runs of non-blank characters. *)
Fixpoint words_aux (cur : string) (s : string) : list string :=
  match s with
  | EmptyString => match cur with EmptyString => [] | _ => [cur] end
  | String c t =>
      if isspace c
      then match cur with
           | EmptyString => words_aux EmptyString t
           | _ => cur :: words_aux EmptyString t
           end
      else words_aux (cur +:+ String c EmptyString) t
  end.

Definition words (s : string) : list string := words_aux EmptyString s.

(** [sep.join(l)] *)
Fixpoint join (sep : string) (l : list string) : string :=
  match l with
  | [] => EmptyString
  | [x] => x
  | x :: t => x +:+ sep +:+ join sep t
  end.

Definition pound : ascii := ascii_of_nat 163.

End Str.

(** ** Regular expressions

    The fragment of Python's [re] that the two line patterns use: single
    characters of a class, bounded greedy and lazy repetition of a class,
    concatenation and numbered capturing groups, matched by backtracking
    in the order [re] tries the alternatives. *)

Module Re.

Inductive regex : Type :=
| Class (p : ascii -> bool)
| Repeat (p : ascii -> bool) (lo : nat) (hi : option nat) (greedy : bool)
| Cat (r1 r2 : regex)
| Group (n : nat) (r : regex).

(** The first alternative, and the second only when the first fails. *)
Definition orelse {A} (x : option A) (y : unit -> option A) : option A :=
  match x with Some _ => x | None => y () end.

Definition may_take (hi : option nat) : bool :=
  match hi with Some O => false | _ => true end.

Definition dec (hi : option nat) : option nat := Nat.pred <$> hi.

Section Matcher.
Context {R : Type}.

(** Between [lo] and [hi] characters of the class [p], then [k] on the
    rest: as many as possible first when [greedy], as few otherwise. *)
Fixpoint rep (p : ascii -> bool) (greedy : bool) (lo : nat) (hi : option nat)
    (s : string) (k : string -> option R) : option R :=
  let stop (_ : unit) := match lo with O => k s | S _ => None end in
  let more (_ : unit) :=
    match s with
    | String c t =>
        if may_take hi && p c then rep p greedy (Nat.pred lo) (dec hi) t k
        else None
    | EmptyString => None
    end in
  if greedy then orelse (more ()) stop else orelse (stop ()) more.

Fixpoint match_at (r : regex) (s : string) (groups : gmap nat string)
    (k : string -> gmap nat string -> option R) : option R :=
  match r with
  | Class p =>
      match s with
      | String c t => if p c then k t groups else None
      | EmptyString => None
      end
  | Repeat p lo hi greedy => rep p greedy lo hi s (fun s' => k s' groups)
  | Cat r1 r2 => match_at r1 s groups (fun s' g' => match_at r2 s' g' k)
  | Group n r0 =>
      match_at r0 s groups (fun s' g' =>
        k s' (<[n := String.substring 0 (String.length s - String.length s') s]> g'))
  end.
End Matcher.

(** [re.search]: the match at the leftmost position that has one. *)
Fixpoint search (r : regex) (s : string) : option (gmap nat string) :=
  orelse (match_at r s ∅ (fun _ g => Some g))
         (fun _ => match s with
                   | EmptyString => None
                   | String _ t => search r t
                   end).

(** [match.group(n)] of a group that took part in the match. *)
Definition group (m : gmap nat string) (n : nat) : string :=
  default EmptyString (m !! n).

Definition ch (c : ascii) : ascii -> bool := Ascii.eqb c.
Definition plus (p : ascii -> bool) : regex := Repeat p 1 None true.
Definition plus_lazy (p : ascii -> bool) : regex := Repeat p 1 None false.
Definition opt (p : ascii -> bool) : regex := Repeat p 0 (Some 1%nat) true.

End Re.

(** ** Streamlit output

    The calls [st.success], [st.write], [st.error] and [st.info] are
    recorded in the order they are made. *)

Inductive st_event : Type :=
| st_success (msg : string)
| st_write (args : list string)
| st_error (msg : string)
| st_info (msg : string)
| st_error_exn (msg : string) (e : exn).

(** ** data_processor.py *)

Module FinancialDataProcessor.

(** *** PDF text *)

Definition digit_value (c : ascii) : Z := Z.of_nat (Str.code c) - 48.

(** The digits of a decimal literal after its sign: [num / den] so far,
    whether the point was seen, and how many digits were read. *)
Fixpoint parse_digits (s : string) (num : Z) (den : positive) (dot : bool)
    (nd : nat) : option Q :=
  match s with
  | EmptyString => match nd with O => None | S _ => Some (num # den) end
  | String c t =>
      if Str.is_decimal c
      then parse_digits t (num * 10 + digit_value c)
             (if dot then (den * 10)%positive else den) dot (S nd)
      else if Ascii.eqb c "." && negb dot then parse_digits t num den true nd
      else None
  end.

(** [float(s)] on the strings that the line patterns can capture, which
    hold digits, commas, points and minus signs only: a decimal literal
    is read, anything else is a [ValueError] ([None]).  The other forms
    that [float] accepts (exponents, underscores, inf, nan) hold a letter
    or an underscore and cannot reach it from [_parse_financial_line]. *)
Definition float_of_string (s : string) : option Q :=
  match Str.strip s with
  | String "-" t => Qopp <$> parse_digits t 0 1 false 0
  | String "+" t => parse_digits t 0 1 false 0
  | t => parse_digits t 0 1 false 0
  end.

Definition _clean_currency (amount_str : string) : float :=
  let cleaned :=
    Str.strip (Str.remove_char "," (Str.remove_char Str.pound amount_str)) in
  match float_of_string cleaned with
  | Some q => Fin q
  | None => Fin 0
  end.

Definition amount_char (c : ascii) : bool :=
  Str.is_decimal c || Ascii.eqb c "," || Ascii.eqb c "." || Ascii.eqb c "-".

Definition not_pound (c : ascii) : bool := negb (Ascii.eqb c Str.pound).

Import Re.

(** [£[\d,.-]+] and [£?-?[\d,.-]+] *)
Definition amount : regex := Cat (Class (ch Str.pound)) (plus amount_char).
Definition last_amount : regex :=
  Cat (opt (ch Str.pound)) (Cat (opt (ch "-")) (plus amount_char)).

(** [(\d{3,4})\s+([^£]+?)\s+(£[\d,.-]+)\s+(£[\d,.-]+)\s+(£?-?[\d,.-]+)] *)
Definition pattern : regex :=
  Cat (Group 1 (Repeat Str.is_decimal 3 (Some 4%nat) true))
 (Cat (plus Str.isspace)
 (Cat (Group 2 (plus_lazy not_pound))
 (Cat (plus Str.isspace)
 (Cat (Group 3 amount)
 (Cat (plus Str.isspace)
 (Cat (Group 4 amount)
 (Cat (plus Str.isspace)
      (Group 5 last_amount)))))))).

(** [([^£]+?)\s+(£[\d,.-]+)\s+(£[\d,.-]+)\s+(£?-?[\d,.-]+)] *)
Definition simple_pattern : regex :=
  Cat (Group 1 (plus_lazy not_pound))
 (Cat (plus Str.isspace)
 (Cat (Group 2 amount)
 (Cat (plus Str.isspace)
 (Cat (Group 3 amount)
 (Cat (plus Str.isspace)
      (Group 4 last_amount)))))).

Definition type_of_category (category : string) : string :=
  if Str.contains "INCOME" category then "Income" else "Expenditure".

(** The dictionary of one line item, with its keys in the order of the
    source. *)
Definition item (code description category : string)
    (budget actual balance : float) : Row :=
  [("code", VStr code);
   ("description", VStr description);
   ("category", VStr category);
   ("budget_2025_26", VNum budget);
   ("actual_net", VNum actual);
   ("balance", VNum balance);
   ("type", VStr (type_of_category category))].

Definition _parse_financial_line (line category : string) : option Row :=
  match search pattern line with
  | Some m =>
      let code := Str.strip (group m 1) in
      let description := Str.strip (group m 2) in
      let budget := _clean_currency (group m 3) in
      let actual := _clean_currency (group m 4) in
      let balance := _clean_currency (group m 5) in
      Some (item code description category budget actual balance)
  | None =>
      match search simple_pattern line with
      | Some m =>
          if (length (Str.words (group m 1)) <=? 5)%nat then
            let description := Str.strip (group m 1) in
            let budget := _clean_currency (group m 2) in
            let actual := _clean_currency (group m 3) in
            let balance := _clean_currency (group m 4) in
            Some (item "" description category budget actual balance)
          else None
      | None => None
      end
  end.

Definition category_indicators : list string :=
  ["INCOME"; "EXPENDITURE"; "Administration"; "Cawston Community Hall";
   "Parks & Open Spaces"; "Section 137"; "Total"].

Definition _is_category_header (line : string) : bool :=
  existsb (fun indicator => Str.contains indicator line) category_indicators
  && negb (Str.exists_char Str.isdigit line).

(** The loop of [_parse_financial_text] over the lines that are left,
    with the active category and the records found so far. *)
Fixpoint parse_lines (lines : list string) (current_category : string)
    (financial_data : list Row) : list Row :=
  match lines with
  | [] => financial_data
  | line :: rest =>
      let line := Str.strip line in
      if (String.length line =? 0)%nat || Str.contains "Balance" line
         || Str.contains "Actual Net" line
      then parse_lines rest current_category financial_data
      else if _is_category_header line
      then parse_lines rest line financial_data
      else match _parse_financial_line line current_category with
           | Some financial_item =>
               parse_lines rest current_category (financial_data ++ [financial_item])
           | None => parse_lines rest current_category financial_data
           end
  end.

Definition _parse_financial_text (text : string) : list Row :=
  parse_lines (Str.split_on "010" text) "" [].

End FinancialDataProcessor.

(** *** CSV upload and summary *)

Module Csv.

Import FinancialDataProcessor.

(** [df.columns.str.lower().str.replace(' ', '_')] *)
Definition normalize_name (c : string) : string :=
  Str.replace_char " " "_" (Str.lower c).

Definition normalize_columns (df : DataFrame) : DataFrame :=
  mkDF (nrows df) (map (fun cs => (normalize_name (fst cs), snd cs)) (data df)).

Definition column_mappings : list (string * list string) :=
  [("description", ["description"; "desc"; "item"; "name"; "details"]);
   ("budget", ["budget"; "budget_2025_26"; "budgeted"; "planned"; "allocation"]);
   ("actual", ["actual"; "actual_net"; "spent"; "used"; "expenditure"]);
   ("category", ["category"; "cat"; "type"; "group"; "section"]);
   ("balance", ["balance"; "remaining"; "variance"; "difference"]);
   ("code", ["code"; "account_code"; "ref"; "reference"; "id"])].

(** The inner loop: the first of [possible_names] that is a column. *)
Definition first_present (cols : list string) (possible_names : list string)
  : option string :=
  find (fun possible_name => bool_decide (possible_name ∈ cols)) possible_names.

(** One turn of the outer loop, on [column_map] and [mapped_columns]. *)
Definition map_step (cols : list string)
    (acc : gmap string string * list string) (entry : string * list string)
  : gmap string string * list string :=
  match first_present cols (snd entry) with
  | Some possible_name =>
      (<[possible_name := fst entry]> (fst acc),
       snd acc ++ [possible_name +:+ " → " +:+ fst entry])
  | None => acc
  end.

Definition build_column_map (cols : list string)
  : gmap string string * list string :=
  foldl (map_step cols) (∅, []) column_mappings.

(** [df.rename(columns=column_map)] *)
Definition rename (column_map : gmap string string) (df : DataFrame) : DataFrame :=
  mkDF (nrows df)
       (map (fun cs => (default (fst cs) (column_map !! fst cs), snd cs)) (data df)).

Definition essential_cols : list string := ["description"; "budget"; "actual"].

Definition missing_from (df : DataFrame) (cols : list string) : list string :=
  filter (fun col => col ∉ columns df) cols.

Definition present_in (df : DataFrame) (cols : list string) : list string :=
  filter (fun col => col ∈ columns df) cols.

Definition _map_csv_columns (df : DataFrame) (original_columns : list string)
  : DataFrame * list st_event :=
  let '(column_map, mapped_columns) := build_column_map (columns df) in
  let df := rename column_map df in
  let shown :=
    match mapped_columns with
    | [] => []
    | _ => st_success "✅ **Column Mapping Applied:**"
           :: map (fun mapping => st_write ["  • " +:+ mapping]) mapped_columns
    end in
  let missing_essential := missing_from df essential_cols in
  match missing_essential with
  | _ :: _ =>
      (empty_frame,
       shown ++
       [st_error "❌ **Could not find required columns after intelligent mapping.**";
        st_write ["**Original columns found:**"; Str.join ", " original_columns];
        st_write ["**Missing required columns:**"; Str.join ", " missing_essential];
        st_write ["**Expected column names:**"];
        st_write ["- `description` (or `desc`, `item`, `name`)"];
        st_write ["- `budget` (or `budget_2025_26`, `budgeted`, `planned`)"];
        st_write ["- `actual` (or `actual_net`, `spent`, `used`)"]])
  | [] =>
      let found_cols :=
        present_in df ["description"; "budget"; "actual"; "category"; "balance"] in
      (df,
       shown ++
       [st_info ("✅ **Successfully mapped columns:** " +:+ Str.join ", " found_cols)])
  end.

(** ['Income' if x < 0 else 'Expenditure'] *)
Definition type_of_budget (x : value) : result value :=
  match x with
  | VNum x => Ok (VStr (if Float.ltb x (Fin 0) then "Income" else "Expenditure"))
  | VStr _ => Raise TypeError
  end.

(** The derived columns, after a mapping that left rows and columns:
    the three [if] statements in their order. *)
Definition add_balance (df : DataFrame) : result DataFrame :=
  if negb (has_column df "balance") && has_column df "budget"
     && has_column df "actual"
  then b ← getitem df "budget";
       a ← getitem df "actual";
       d ← series_binop Float.sub b a;
       Ok (setitem df "balance" d)
  else Ok df.

Definition add_category (df : DataFrame) : DataFrame :=
  if negb (has_column df "category")
  then setitem df "category" (replicate (nrows df) (VStr "General"))
  else df.

Definition add_type (df : DataFrame) : result DataFrame :=
  if negb (has_column df "type") && has_column df "budget"
  then b ← getitem df "budget";
       t ← traverse type_of_budget b;
       Ok (setitem df "type" t)
  else Ok df.

Definition add_derived_columns (df : DataFrame) : result DataFrame :=
  df ← add_balance df;
  add_type (add_category df).

(** [process_csv] on the table that [pd.read_csv] returned. *)
Definition process_csv (df : DataFrame) : DataFrame * list st_event :=
  let original_columns := columns df in
  let df := normalize_columns df in
  let '(df, log) := _map_csv_columns df original_columns in
  if empty df then (df, log)
  else match add_derived_columns df with
       | Ok df => (df, log)
       | Raise e => (empty_frame, log ++ [st_error_exn "Error processing CSV: " e])
       end.

(** [s[mask]] where [mask] is [t == label]. *)
Definition is_label (label : string) (v : value) : bool :=
  match v with
  | VStr s => String.eqb s label
  | VNum _ => false
  end.

Definition select (t : Series) (label : string) (s : Series) : Series :=
  map snd (List.filter (fun p => is_label label (fst p)) (zip t s)).

Definition guarded_pct (num den : float) : float :=
  if negb (Float.eqb den (Fin 0))
  then Float.mul (Float.div num den) (Fin 100)
  else Fin 0.

(** [get_summary_statistics]: the empty dictionary for an empty frame. *)
Definition get_summary_statistics (df : DataFrame) : result (gmap string float) :=
  if empty df then Ok ∅
  else
    let budget_col := ProbabilityEngine.budget_col df in
    let actual_col := ProbabilityEngine.actual_col df in
    b ← getitem df budget_col;
    total_budget ← series_sum b;
    a ← getitem df actual_col;
    total_actual ← series_sum a;
    let total_variance := Float.sub total_budget total_actual in
    let variance_percentage := guarded_pct total_variance total_budget in
    t ← getitem df "type";
    income_budget ← series_sum (select t "Income" b);
    income_actual ← series_sum (select t "Income" a);
    expense_budget ← series_sum (select t "Expenditure" b);
    expense_actual ← series_sum (select t "Expenditure" a);
    Ok (<["total_budget" := total_budget]>
       (<["total_actual" := total_actual]>
       (<["total_variance" := total_variance]>
       (<["variance_percentage" := variance_percentage]>
       (<["income_budget" := income_budget]>
       (<["income_actual" := income_actual]>
       (<["expense_budget" := expense_budget]>
       (<["expense_actual" := expense_actual]>
       (<["completion_rate" := guarded_pct total_actual total_budget]> ∅))))))))).

End Csv.

(** ** shared/data_access.py *)

Module DataAccess.

(** [get_risk_analysis] on a given frame. *)
Definition get_risk_analysis (df : DataFrame) : result DataFrame :=
  if empty df then Ok empty_frame
  else ProbabilityEngine.calculate_risk_assessment df.

End DataAccess.

Import ProbabilityEngine.

(** ** Row by row

    The column computations of the engine, read one row at a time, and
    the frames used as examples. *)

Definition fill_zero (x : float) : float :=
  match x with NaN => Fin 0 | _ => x end.

Definition variance_pct_of (budget actual : float) : float :=
  fill_zero (Float.mul (Float.div (Float.sub budget actual) budget) (Fin 100)).

Definition risk_category_of (variance_pct budget : float) : string :=
  if Float.eqb budget (Fin 0) then "No Budget"
  else if Float.leb (Float.abs variance_pct) (Fin 5) then "Low Risk"
  else if Float.leb (Float.abs variance_pct) (Fin 15) then "Medium Risk"
  else if Float.leb (Float.abs variance_pct) (Fin 30) then "High Risk"
  else "Critical Risk".

Definition risk_score_of (variance_pct : float) : float :=
  Float.clip (Float.mul (Float.abs variance_pct) (Fin 2)) (Fin 0) (Fin 100).

(** The cell of column [c] in row [i]. *)
Definition cell_at (df : DataFrame) (c : string) (i : nat) : option value :=
  match getitem df c with
  | Ok s => s !! i
  | Raise _ => None
  end.

Definition factor_of (probabilities : gmap string float) (category : value) : float :=
  Float.div (probabilities_get probabilities category) (Fin 100).

Definition risk_labels : list string :=
  ["No Budget"; "Low Risk"; "Medium Risk"; "High Risk"; "Critical Risk"].

Definition zero_budget_frame : DataFrame :=
  mkDF 1 [("description", [VStr "Reserve"]);
          ("category", [VStr "General"]);
          ("budget", [VNum (Fin 0)]);
          ("actual", [VNum (Fin 5)])].

Definition sample_frame : DataFrame :=
  mkDF 3 [("description", [VStr "Clerk Salary"; VStr "Hall Income"; VStr "Insurance"]);
          ("category", [VStr "Administration"; VStr "Income"; VStr "Administration"]);
          ("budget", [VNum (Fin 42134); VNum (Fin 40000); VNum (Fin 900)]);
          ("actual", [VNum (Fin 19577); VNum (Fin 14571); VNum (Fin 0)]);
          ("type", [VStr "Expenditure"; VStr "Income"; VStr "Expenditure"])].

(** The line of the budget report used in the specification, and the text
    of a page that holds it under its category header. *)
Definition clerk_line : string :=
  "4000 Clerks Salary " +:+ String Str.pound "42,134.00 " +:+
  String Str.pound "19,577.64 " +:+ String Str.pound "22,556.36".

Definition clerk_page : string := "EXPENDITURE" +:+ String "010" clerk_line.

(** ** Binary64

    The arithmetic that [apply_probability_scenario] does on one row, on
    IEEE 754 binary64 numbers as numpy does it: the five assignments in
    their order, for the row's budget and actual and the probability that
    [probabilities.get] returned. *)

Module Binary64.
Import PrimFloat.
#[local] Set Warnings "-inexact-float".
#[local] Open Scope float_scope.

Definition probability_factor (probability : float) : float :=
  probability / 100.

Definition remaining_budget (budget actual : float) : float :=
  budget - actual.

Definition projected_remaining (budget actual probability : float) : float :=
  remaining_budget budget actual * probability_factor probability.

Definition projected_total (budget actual probability : float) : float :=
  actual + projected_remaining budget actual probability.

Definition projected_variance (budget actual probability : float) : float :=
  budget - projected_total budget actual probability.

(** A row of budget 64883.96 and actual 28439.74, and the probability
    100. *)
Definition example_budget : float := 64883.96.
Definition example_actual : float := 28439.74.
Definition hundred : float := 100.

End Binary64.

Import Csv.

(** ** Uploads *)

(** The uploaded table after its column names are normalised and the
    aliases renamed: what the essential-column check looks at. *)
Definition mapped (df : DataFrame) : DataFrame :=
  let df := normalize_columns df in
  rename (fst (build_column_map (columns df))) df.

Definition canonical_columns : list string :=
  ["description"; "budget"; "actual"; "category"; "balance"; "code"; "type"].

Definition item_name_upload : DataFrame :=
  mkDF 2 [("Item Name", [VStr "Clerk Salary"; VStr "Insurance"]);
          ("Budgeted", [VNum (Fin 42134); VNum (Fin 900)]);
          ("Spent", [VNum (Fin 19577); VNum (Fin 0)])].

Definition foo_bar_upload : DataFrame :=
  mkDF 1 [("foo", [VStr "x"]); ("bar", [VNum (Fin 1)])].

Definition typed_upload : DataFrame :=
  mkDF 2 [("Item", [VStr "Hall hire"; VStr "Insurance"]);
          ("Budgeted", [VNum (Fin (-40000)); VNum (Fin 900)]);
          ("Spent", [VNum (Fin (-14571)); VNum (Fin 0)]);
          ("Type", [VStr "Income"; VStr "Expenditure"])].

(** The new name that the column map built for [cols] gives the column
    [k]. *)
Definition renamed (cols : list string) (k : string) : string :=
  default k (fst (Csv.build_column_map cols) !! k).

(** ** Percentiles and trials *)

(** [insert_sorted] and [sort] on an array of rationals. *)
Fixpoint insert_rational (x : Q) (l : list Q) : list Q :=
  match l with
  | [] => [x]
  | y :: t => if Qle_bool x y then x :: l else y :: insert_rational x t
  end.

Definition sort_rationals (l : list Q) : list Q := foldr insert_rational [] l.

(** The interpolation of [percentile] on a sorted array of rationals. *)
Definition interpolate (sq : list Q) (q : Q) : Q :=
  let n := length sq in
  let virtual_index := inject_Z (Z.of_nat n - 1) * (q / 100) in
  let previous_index := Qfloor virtual_index in
  let gamma := virtual_index - inject_Z previous_index in
  let previous := nth (clamp_index n previous_index) sq 0 in
  let next := nth (clamp_index n (previous_index + 1)) sq 0 in
  previous + (next + - previous) * gamma.

(** [total] is the sum of the projected variance of the whole dataset
    under some assignment of probabilities. *)
Definition trial_total (df : DataFrame) (total : float) : Prop :=
  exists probabilities out pv,
    apply_probability_scenario df probabilities = Ok out /\
    getitem out "projected_variance" = Ok pv /\
    series_sum pv = Ok total.

(** An upload that names every canonical column through an alias. *)
Definition canonical_upload : DataFrame :=
  mkDF 2 [("Ref", [VStr "4000"; VStr "4100"]);
          ("Details", [VStr "Clerks Salary"; VStr "Insurance"]);
          ("Section", [VStr "Administration"; VStr "Administration"]);
          ("Planned", [VNum (Fin 42134); VNum (Fin 900)]);
          ("Used", [VNum (Fin 19577.64); VNum (Fin 0)]);
          ("Remaining", [VNum (Fin 22556.36); VNum (Fin 900)])].

(** ** Sums and page lines

    Helpers for the properties of the totals and of the page parser. *)

(** The sum of a column of rationals, added up from the left as
    [series_sum] does. *)
Definition sum_rationals (l : list Q) : Q := foldl Qplus 0 l.

(** The rationals of [l] in the rows whose label in [t] is [label]. *)
Definition select_rationals (t : list value) (label : string) (l : list Q) : list Q :=
  map snd (List.filter (fun p => is_label label (fst p)) (zip t l)).

(** The lines that the loop of [_parse_financial_text] passes over: the
    empty ones and those of the table header. *)
Definition skipped (line : string) : bool :=
  (String.length line =? 0)%nat || Str.contains "Balance" line
  || Str.contains "Actual Net" line.

(** A total between 0 and 90% of the budget that is left,
    [sum(budget) - sum(actual)]. *)
Definition within_remaining (bq aq : list Q) (total : float) : Prop :=
  exists q, total = Fin q /\ 0 <= q /\
            q <= (9 # 10) * (sum_rationals bq - sum_rationals aq).


(** * Properties *)

(** ** The result monad and [traverse] *)

Section Traverse.
Context {A B : Type}.
Implicit Types (f : A -> result B) (l : list A).

Lemma traverse_total f g l :
  (forall a, a ∈ l -> f a = Ok (g a)) -> traverse f l = Ok (map g l).
Proof.
  induction l as [|a t IH]; intros H; simpl; [done|].
  rewrite (H a) by left. simpl.
  rewrite IH; [done|]. intros b Hb. apply H. by right.
Qed.

Lemma traverse_ext f f' l :
  (forall a, a ∈ l -> f a = f' a) -> traverse f l = traverse f' l.
Proof.
  induction l as [|a t IH]; intros H; simpl; [done|].
  rewrite (H a) by left. rewrite IH; [done|].
  intros b Hb. apply H. by right.
Qed.

Lemma traverse_length f l r : traverse f l = Ok r -> length r = length l.
Proof.
  revert r. induction l as [|a t IH]; intros r; simpl.
  - by intros [= <-].
  - destruct (f a); simpl; [|done].
    destruct (traverse f t); simpl; [|done].
    intros [= <-]. simpl. f_equal. by apply IH.
Qed.
End Traverse.

Lemma traverse_map {A B C} (f : B -> result C) (h : A -> B) (l : list A) :
  traverse f (map h l) = traverse (fun a => f (h a)) l.
Proof. induction l as [|a t IH]; simpl; [done|]. by rewrite IH. Qed.

(** ** Columns of a frame *)

Lemma assoc_None c l : assoc c l = None <-> c ∉ map fst l.
Proof.
  induction l as [|[k s] t IH]; simpl.
  - split; [intros _ H; by apply elem_of_nil in H | done].
  - destruct (String.eqb_spec k c) as [->|Hne].
    + split; [done|]. intros H. exfalso. apply H. left.
    + rewrite IH, not_elem_of_cons. split; [intros H; split; [congruence|done] | by intros [_ H]].
Qed.

Lemma has_column_true df c : has_column df c = true <-> c ∈ columns df.
Proof. unfold has_column. apply bool_decide_eq_true. Qed.

Lemma has_column_false df c : has_column df c = false <-> c ∉ columns df.
Proof. unfold has_column. apply bool_decide_eq_false. Qed.

Lemma assoc_replace_eq c s l :
  c ∈ map fst l -> assoc c (replace_col c s l) = Some s.
Proof.
  induction l as [|[k s0] t IH]; simpl.
  - intros H. by apply elem_of_nil in H.
  - intros H. destruct (String.eqb_spec k c) as [->|Hne]; simpl.
    + by rewrite String.eqb_refl.
    + apply String.eqb_neq in Hne as Hne'. rewrite Hne'. apply IH.
      apply elem_of_cons in H as [->|H]; [done|exact H].
Qed.

Lemma assoc_replace_ne c c' s l :
  c <> c' -> assoc c' (replace_col c s l) = assoc c' l.
Proof.
  intros Hne. induction l as [|[k s0] t IH]; simpl; [done|].
  destruct (String.eqb_spec k c) as [->|Hk]; simpl.
  - apply String.eqb_neq in Hne. by rewrite Hne.
  - by rewrite IH.
Qed.

Lemma assoc_app c l l' :
  assoc c (l ++ l') = match assoc c l with Some s => Some s | None => assoc c l' end.
Proof.
  induction l as [|[k s] t IH]; simpl; [done|].
  by destruct (String.eqb k c).
Qed.

Lemma getitem_setitem_eq df c s : getitem (setitem df c s) c = Ok s.
Proof.
  unfold getitem, setitem. destruct (has_column df c) eqn:E; simpl.
  - apply has_column_true in E. by rewrite assoc_replace_eq.
  - apply has_column_false, assoc_None in E.
    rewrite assoc_app, E. simpl. by rewrite String.eqb_refl.
Qed.

Lemma getitem_setitem_ne df c c' s :
  c <> c' -> getitem (setitem df c s) c' = getitem df c'.
Proof.
  intros Hne. unfold getitem, setitem. destruct (has_column df c); simpl.
  - by rewrite assoc_replace_ne.
  - rewrite assoc_app. destruct (assoc c' (data df)); [done|]. simpl.
    apply String.eqb_neq in Hne. by rewrite Hne.
Qed.

Lemma nrows_setitem df c s : nrows (setitem df c s) = nrows df.
Proof. unfold setitem. by destruct (has_column df c). Qed.

Lemma map_fst_replace_col c s l : map fst (replace_col c s l) = map fst l.
Proof.
  induction l as [|[k s0] t IH]; simpl; [done|].
  destruct (String.eqb k c); simpl; [done|]. by rewrite IH.
Qed.

Lemma columns_setitem df c s c' :
  c' ∈ columns (setitem df c s) <-> c' = c \/ c' ∈ columns df.
Proof.
  unfold setitem, columns. destruct (has_column df c) eqn:E; simpl.
  - rewrite map_fst_replace_col. apply has_column_true in E.
    split; [intros H; by right|]. intros [->|H]; [exact E | exact H].
  - rewrite map_app. simpl. rewrite elem_of_app, list_elem_of_singleton. tauto.
Qed.

(** ** Rows *)

Lemma row_get_row_at df i c :
  row_get (row_at df i) c = s ← getitem df c; Ok (cell s i).
Proof.
  unfold row_at, getitem. induction (data df) as [|[k s] t IH]; simpl; [done|].
  destruct (String.eqb k c); [done|]. exact IH.
Qed.

Lemma cells_seq (s : Series) : map (cell s) (seq 0 (length s)) = s.
Proof.
  apply list_eq. intros i. rewrite list_lookup_fmap.
  destruct (decide (i < length s)%nat) as [Hlt|Hge].
  - rewrite lookup_seq_lt by done. simpl. unfold cell.
    destruct (lookup_lt_is_Some_2 s i Hlt) as [v Hv]. by rewrite Hv.
  - rewrite lookup_seq_ge by lia. simpl. symmetry. apply lookup_ge_None. lia.
Qed.

Lemma apply_rows_1 df c s (g : value -> result value) :
  getitem df c = Ok s -> length s = nrows df ->
  apply_rows df (fun row => v ← row_get row c; g v) = traverse g s.
Proof.
  intros Hc Hlen. unfold apply_rows, rows. rewrite traverse_map.
  rewrite <- (cells_seq s) at 1. rewrite traverse_map, Hlen.
  apply traverse_ext. intros i _. by rewrite row_get_row_at, Hc.
Qed.

Lemma zip_cells (s1 s2 : Series) (l : list nat) :
  zip (map (cell s1) l) (map (cell s2) l) = map (fun i => (cell s1 i, cell s2 i)) l.
Proof. induction l as [|i t IH]; simpl; [done|]. by rewrite IH. Qed.

Lemma apply_rows_2 df c1 c2 s1 s2 (g : value -> value -> result value) :
  getitem df c1 = Ok s1 -> getitem df c2 = Ok s2 ->
  length s1 = nrows df -> length s2 = nrows df ->
  apply_rows df (fun row => v ← row_get row c1; b ← row_get row c2; g v b)
  = traverse (fun p => g (fst p) (snd p)) (zip s1 s2).
Proof.
  intros H1 H2 L1 L2. unfold apply_rows, rows. rewrite traverse_map.
  rewrite <- (cells_seq s1) at 1. rewrite <- (cells_seq s2) at 1.
  rewrite L1, L2, zip_cells, traverse_map.
  apply traverse_ext. intros i _. by rewrite !row_get_row_at, H1, H2.
Qed.

(** ** Numeric columns *)

Lemma series_binop_num f (xs ys : list float) :
  series_binop f (VNum <$> xs) (VNum <$> ys) = Ok (VNum <$> zip_with f xs ys).
Proof.
  unfold series_binop. revert ys.
  induction xs as [|x xs IH]; intros [|y ys]; try done.
  rewrite !fmap_cons. cbn [zip zip_with traverse num_binop fst snd].
  rewrite IH. done.
Qed.

Lemma series_unop_num f (xs : list float) :
  series_unop f (VNum <$> xs) = Ok (VNum <$> (f <$> xs)).
Proof.
  unfold series_unop. induction xs as [|x xs IH]; [done|].
  rewrite !fmap_cons. cbn [traverse num_unop]. rewrite IH. done.
Qed.

Lemma bind_ok {A B} (a : A) (k : A -> result B) : (Ok a ≫= k) = k a.
Proof. reflexivity. Qed.

Lemma fillna_num x (xs : list float) :
  fillna x (VNum <$> xs)
  = VNum <$> ((fun y => match y with NaN => x | _ => y end) <$> xs).
Proof.
  unfold fillna. apply list_eq. intros i. rewrite !list_lookup_fmap.
  by destruct (xs !! i) as [[]|].
Qed.

Lemma budget_col_cases df :
  budget_col df = "budget_2025_26" \/ budget_col df = "budget".
Proof. unfold budget_col. destruct (has_column _ _); auto. Qed.

Lemma actual_col_cases df :
  actual_col df = "actual_net" \/ actual_col df = "actual".
Proof. unfold actual_col. destruct (has_column _ _); auto. Qed.

Lemma categorize_risk_num (vs bs : list float) :
  traverse (fun p => c ← categorize_risk (fst p) (snd p); Ok (VStr c))
           (zip (VNum <$> vs) (VNum <$> bs))
  = Ok (VStr <$> zip_with risk_category_of vs bs).
Proof.
  revert bs. induction vs as [|v vs IH]; intros [|b bs]; try done.
  rewrite !fmap_cons. cbn [zip zip_with traverse fst snd].
  rewrite IH. unfold categorize_risk, risk_category_of, equals_zero. simpl.
  destruct (Float.eqb b (Fin 0)); [done|].
  repeat (destruct (Float.leb _ _); [done|]). done.
Qed.

Ltac col_ne df :=
  let H := fresh in
  first
    [ destruct (budget_col_cases df) as [H|H]; rewrite H; discriminate
    | destruct (actual_col_cases df) as [H|H]; rewrite H; discriminate
    | discriminate ].

Lemma calculate_risk_assessment_num df (bf af : list float) :
  getitem df (budget_col df) = Ok (VNum <$> bf) ->
  getitem df (actual_col df) = Ok (VNum <$> af) ->
  length bf = nrows df -> length af = nrows df ->
  let vps := zip_with variance_pct_of bf af in
  calculate_risk_assessment df
  = Ok (setitem
          (setitem
             (setitem df "variance_pct" (VNum <$> vps))
             "risk_category" (VStr <$> zip_with risk_category_of vps bf))
          "risk_score" (VNum <$> (risk_score_of <$> vps))).
Proof.
  intros Hb Ha Lb La vps. unfold calculate_risk_assessment.
  unfold series_scale, series_clip.
  repeat first [ rewrite Hb | rewrite Ha | rewrite bind_ok
               | rewrite series_binop_num | rewrite series_unop_num ].
  rewrite fillna_num.
  set (df1 := setitem df "variance_pct" _).
  assert (Hv : df1 = setitem df "variance_pct" (VNum <$> vps)).
  { subst df1 vps. do 2 f_equal.
    clear. revert af. induction bf as [|b bf IH]; intros [|a af]; try done.
    simpl. f_equal. apply IH. }
  rewrite Hv. clear Hv df1. set (df1 := setitem df "variance_pct" _).
  rewrite (apply_rows_2 df1 "variance_pct" (budget_col df) (VNum <$> vps) (VNum <$> bf)).
  - rewrite categorize_risk_num, bind_ok.
    rewrite getitem_setitem_ne by discriminate.
    subst df1. rewrite getitem_setitem_eq, bind_ok.
    repeat first [ rewrite bind_ok | rewrite series_unop_num ].
    do 3 f_equal. rewrite <- !list_fmap_compose. done.
  - subst df1. apply getitem_setitem_eq.
  - subst df1. rewrite getitem_setitem_ne; [exact Hb|]. intros E. symmetry in E. revert E. col_ne df.
  - subst df1 vps. rewrite nrows_setitem, length_fmap, length_zip_with. lia.
  - subst df1. rewrite nrows_setitem, length_fmap. lia.
Qed.


Lemma factor_num probabilities (cs : list value) :
  traverse (fun c => Ok (VNum (Float.div (probabilities_get probabilities c) (Fin 100)))) cs
  = Ok (VNum <$> (factor_of probabilities <$> cs)).
Proof.
  rewrite (traverse_total _ (fun c => VNum (factor_of probabilities c))) by done.
  f_equal. by rewrite <- list_fmap_compose.
Qed.

Lemma apply_probability_scenario_num df probabilities cs (bf af : list float) :
  getitem df "category" = Ok cs ->
  getitem df (budget_col df) = Ok (VNum <$> bf) ->
  getitem df (actual_col df) = Ok (VNum <$> af) ->
  length cs = nrows df ->
  let pf := factor_of probabilities <$> cs in
  let rb := zip_with Float.sub bf af in
  let pr := zip_with Float.mul rb pf in
  let pt := zip_with Float.add af pr in
  let pv := zip_with Float.sub bf pt in
  apply_probability_scenario df probabilities
  = Ok (setitem (setitem (setitem (setitem (setitem df
          "probability_factor" (VNum <$> pf))
          "remaining_budget" (VNum <$> rb))
          "projected_remaining" (VNum <$> pr))
          "projected_total" (VNum <$> pt))
          "projected_variance" (VNum <$> pv)).
Proof.
  intros Hc Hb Ha Lc pf rb pr pt pv. unfold apply_probability_scenario.
  rewrite (apply_rows_1 df "category" cs) by done.
  rewrite factor_num, bind_ok.
  assert (Nb : forall c, In c ["probability_factor"; "remaining_budget";
                                "projected_remaining"; "projected_total"] ->
                         c <> budget_col df).
  { intros c Hin E. destruct (budget_col_cases df) as [H|H]; rewrite H in E;
      subst c; simpl in Hin; intuition discriminate. }
  assert (Na : forall c, In c ["probability_factor"; "remaining_budget";
                                "projected_remaining"; "projected_total"] ->
                         c <> actual_col df).
  { intros c Hin E. destruct (actual_col_cases df) as [H|H]; rewrite H in E;
      subst c; simpl in Hin; intuition discriminate. }
  repeat first
    [ rewrite bind_ok
    | rewrite getitem_setitem_eq
    | rewrite (getitem_setitem_ne _ _ (budget_col df)) by (apply Nb; simpl; tauto)
    | rewrite (getitem_setitem_ne _ _ (actual_col df)) by (apply Na; simpl; tauto)
    | rewrite getitem_setitem_ne by discriminate
    | rewrite Hb | rewrite Ha
    | rewrite series_binop_num ].
  done.
Qed.


Lemma cell_at_setitem_eq df c s i : cell_at (setitem df c s) c i = s !! i.
Proof. unfold cell_at. by rewrite getitem_setitem_eq. Qed.

Lemma cell_at_setitem_ne df c c' s i :
  c <> c' -> cell_at (setitem df c s) c' i = cell_at df c' i.
Proof. intros H. unfold cell_at. by rewrite getitem_setitem_ne. Qed.

Lemma variance_pct_of_finite (b a : Q) :
  ~ b == 0 ->
  variance_pct_of (Fin b) (Fin a) = Fin ((b + - a) / b * 100).
Proof.
  intros Hb. unfold variance_pct_of. simpl. unfold Float.is_zero.
  destruct (Qeq_bool b 0) eqn:E; [|done].
  apply Qeq_bool_iff in E. contradiction.
Qed.

(** C3: risk classification is total.  In [calculate_risk_assessment]
    every row of finite budget and actual gets exactly one label, one of
    the five of [risk_labels]; a budget equal to 0 gives "No Budget"
    whatever the actual, and otherwise the absolute value of the row's
    variance_pct, the cell that the function has just computed, decides
    in this order: at most 5 gives "Low Risk", at most 15 "Medium Risk",
    at most 30 "High Risk", and anything above "Critical Risk". *)
Theorem risk_classification_total df (bf af : list float) :
  getitem df (budget_col df) = Ok (VNum <$> bf) ->
  getitem df (actual_col df) = Ok (VNum <$> af) ->
  length bf = nrows df -> length af = nrows df ->
  exists out,
    calculate_risk_assessment df = Ok out /\
    forall i (b a : Q),
      bf !! i = Some (Fin b) -> af !! i = Some (Fin a) ->
      exists variance_pct label,
        cell_at out "variance_pct" i = Some (VNum variance_pct) /\
        cell_at out "risk_category" i = Some (VStr label) /\
        label ∈ risk_labels /\
        (b == 0 -> label = "No Budget") /\
        (~ b == 0 ->
         let v := Float.abs variance_pct in
         (Float.leb v (Fin 5) = true -> label = "Low Risk") /\
         (Float.leb v (Fin 5) = false -> Float.leb v (Fin 15) = true ->
          label = "Medium Risk") /\
         (Float.leb v (Fin 15) = false -> Float.leb v (Fin 30) = true ->
          label = "High Risk") /\
         (Float.leb v (Fin 30) = false -> label = "Critical Risk")).
Proof.
  intros Hb Ha Lb La. eexists. split.
  { by apply calculate_risk_assessment_num. }
  intros i b a Hbi Hai.
  exists (variance_pct_of (Fin b) (Fin a)),
         (risk_category_of (variance_pct_of (Fin b) (Fin a)) (Fin b)).
  repeat first [ rewrite cell_at_setitem_eq
               | rewrite cell_at_setitem_ne by discriminate ].
  rewrite !list_lookup_fmap, !lookup_zip_with, Hbi, Hai.
  cbn [mbind option_bind fmap option_fmap option_map].
  split; [reflexivity|]. split; [reflexivity|].
  unfold risk_category_of, Float.eqb.
  destruct (Qeq_bool b 0) eqn:Eb.
  - apply Qeq_bool_iff in Eb.
    split; [apply list_elem_of_In; simpl; auto 10|]. split; [done|].
    intros H. contradiction.
  - apply Qeq_bool_neq in Eb. rewrite variance_pct_of_finite by done.
    set (v := Float.abs (Fin ((b + - a) / b * 100))).
    assert (M : forall k1 k2, (k1 <= k2)%Q ->
                Float.leb v (Fin k1) = true -> Float.leb v (Fin k2) = true).
    { intros k1 k2 Hk. subst v. cbn [Float.abs Float.leb].
      rewrite !Qle_bool_iff. intros H. lra. }
    cbv zeta.
    destruct (Float.leb v (Fin 5)) eqn:E5.
    { split; [apply list_elem_of_In; simpl; auto 10|]. split; [intros; contradiction|].
      intros _. pose proof (M 5 15 ltac:(lra) E5). pose proof (M 5 30 ltac:(lra) E5).
      repeat split; intros; congruence. }
    destruct (Float.leb v (Fin 15)) eqn:E15.
    { split; [apply list_elem_of_In; simpl; auto 10|]. split; [intros; contradiction|].
      intros _. pose proof (M 15 30 ltac:(lra) E15).
      repeat split; intros; congruence. }
    destruct (Float.leb v (Fin 30)) eqn:E30.
    { split; [apply list_elem_of_In; simpl; auto 10|]. split; [intros; contradiction|].
      intros _. repeat split; intros; congruence. }
    split; [apply list_elem_of_In; simpl; auto 10|]. split; [intros; contradiction|].
    intros _. repeat split; intros; congruence.
Qed.


Lemma variance_pct_rows df (bf af : list float) :
  getitem df (budget_col df) = Ok (VNum <$> bf) ->
  getitem df (actual_col df) = Ok (VNum <$> af) ->
  length bf = nrows df -> length af = nrows df ->
  exists out,
    calculate_risk_assessment df = Ok out /\
    forall i (b a : Q),
      bf !! i = Some (Fin b) -> af !! i = Some (Fin a) -> ~ b == 0 ->
      cell_at out "variance_pct" i = Some (VNum (Fin ((b - a) / b * 100))).
Proof.
  intros Hb Ha Lb La. eexists. split.
  { by apply calculate_risk_assessment_num. }
  intros i b a Hbi Hai Hnz.
  rewrite !cell_at_setitem_ne by discriminate.
  rewrite cell_at_setitem_eq, list_lookup_fmap, lookup_zip_with, Hbi, Hai.
  cbn [mbind option_bind fmap option_fmap option_map].
  by rewrite variance_pct_of_finite.
Qed.

(** C1 (refuted on the code): a row whose budget is 0 and whose actual is
    5 gets the variance percentage minus infinity, not 0: the division
    [(0 - 5) / 0] is an infinity, which [fillna(0)] leaves in place. *)
Theorem variance_pct_zero_budget_nonzero_actual :
  exists out,
    calculate_risk_assessment zero_budget_frame = Ok out /\
    cell_at zero_budget_frame (budget_col zero_budget_frame) 0 = Some (VNum (Fin 0)) /\
    cell_at zero_budget_frame (actual_col zero_budget_frame) 0 = Some (VNum (Fin 5)) /\
    cell_at out "variance_pct" 0 = Some (VNum NInf).
Proof.
  eexists. split; [vm_compute; reflexivity|]. by vm_compute.
Qed.

Lemma probabilities_get_100 (probabilities : gmap string float) c :
  (forall k v, probabilities !! k = Some v -> v =f= Fin 100) ->
  exists q, probabilities_get probabilities c = Fin q /\ q == 100.
Proof.
  intros H. destruct c as [x|s]; simpl.
  - by exists 100.
  - destruct (probabilities !! s) as [v|] eqn:E; simpl.
    + specialize (H s v E). destruct v; try done. by eexists.
    + by exists 100.
Qed.

(** C4 (amended): in [apply_probability_scenario] every row gets
    factor = probabilities.get(category, 100) / 100 (the probability of
    the row's category when the map has one, 100 when it has none),
    remaining_budget = budget - actual,
    projected_remaining = remaining_budget * factor,
    projected_total = actual + projected_remaining and
    projected_variance = budget - projected_total; and when every
    category in the map has probability 100, the projected variance of
    every row (of finite budget and actual) is 0 in exact arithmetic. *)
Theorem apply_probability_scenario_rows df probabilities cs (bf af : list float) :
  getitem df "category" = Ok cs ->
  getitem df (budget_col df) = Ok (VNum <$> bf) ->
  getitem df (actual_col df) = Ok (VNum <$> af) ->
  length cs = nrows df ->
  exists out,
    apply_probability_scenario df probabilities = Ok out /\
    forall i category budget actual,
      cs !! i = Some category -> bf !! i = Some budget -> af !! i = Some actual ->
      let factor := Float.div (probabilities_get probabilities category) (Fin 100) in
      let remaining_budget := Float.sub budget actual in
      let projected_remaining := Float.mul remaining_budget factor in
      let projected_total := Float.add actual projected_remaining in
      let projected_variance := Float.sub budget projected_total in
      (forall c probability,
         category = VStr c -> probabilities !! c = Some probability ->
         probabilities_get probabilities category = probability) /\
      (forall c, category = VStr c -> probabilities !! c = None ->
                 probabilities_get probabilities category = Fin 100) /\
      cell_at out "probability_factor" i = Some (VNum factor) /\
      cell_at out "remaining_budget" i = Some (VNum remaining_budget) /\
      cell_at out "projected_remaining" i = Some (VNum projected_remaining) /\
      cell_at out "projected_total" i = Some (VNum projected_total) /\
      cell_at out "projected_variance" i = Some (VNum projected_variance) /\
      ((forall k v, probabilities !! k = Some v -> v =f= Fin 100) ->
       Float.finite budget -> Float.finite actual ->
       projected_variance =f= Fin 0).
Proof.
  intros Hc Hb Ha Lc. eexists. split.
  { by apply apply_probability_scenario_num. }
  intros i category budget actual Hci Hbi Hai.
  cbv zeta.
  split. { intros c p -> E. simpl. by rewrite E. }
  split. { intros c -> E. simpl. by rewrite E. }
  repeat first [ rewrite cell_at_setitem_eq
               | rewrite cell_at_setitem_ne by discriminate ].
  rewrite !list_lookup_fmap, !lookup_zip_with, !list_lookup_fmap, Hci, Hbi, Hai.
  do 5 (split; [reflexivity|]).
  intros Hall Fb Fa.
  destruct (probabilities_get_100 probabilities category Hall) as (q & -> & Hq).
  destruct budget as [b| | |], actual as [a| | |]; try done.
  unfold Float.div, Float.is_zero.
  replace (Qeq_bool 100 0) with false by reflexivity.
  unfold Float.sub, Float.mul, Float.add, Float.neg, Float.eq.
  rewrite Hq. field.
Qed.

Lemma apply_probability_scenario_rows_witness :
  exists out,
    apply_probability_scenario sample_frame (<["Administration" := Fin 80]> ∅) = Ok out /\
    cell_at out "probability_factor" 0 = Some (VNum (Float.div (Fin 80) (Fin 100))) /\
    cell_at out "probability_factor" 1 = Some (VNum (Float.div (Fin 100) (Fin 100))).
Proof.
  destruct (apply_probability_scenario_rows sample_frame
              (<["Administration" := Fin 80]> ∅)
              [VStr "Administration"; VStr "Income"; VStr "Administration"]
              [Fin 42134; Fin 40000; Fin 900] [Fin 19577; Fin 14571; Fin 0]
              eq_refl eq_refl eq_refl eq_refl) as [out [Hout Hrows]].
  exists out. split; [exact Hout|]. split.
  - destruct (Hrows 0%nat (VStr "Administration") (Fin 42134) (Fin 19577)
                eq_refl eq_refl eq_refl) as (Hin & _ & Hf & _).
    rewrite Hf, (Hin "Administration" (Fin 80)); reflexivity.
  - destruct (Hrows 1%nat (VStr "Income") (Fin 40000) (Fin 14571)
                eq_refl eq_refl eq_refl) as (_ & Hout' & Hf & _).
    rewrite Hf, (Hout' "Income"); reflexivity.
Defined.

(** C4 (as stated, refuted): in the binary64 arithmetic of the program
    the projected variance of a row is not always 0 under the probability
    100.  For budget 64883.96 and actual 28439.74 the projected total,
    actual + (budget - actual) * (100 / 100), is rounded to a number
    above the budget, and the projected variance is negative. *)
Lemma projected_variance_residue_in_binary64 :
  PrimFloat.eqb
    (Binary64.projected_variance Binary64.example_budget Binary64.example_actual
                                 Binary64.hundred)
    PrimFloat.zero = false /\
  PrimFloat.ltb
    (Binary64.projected_variance Binary64.example_budget Binary64.example_actual
                                 Binary64.hundred)
    PrimFloat.zero = true /\
  PrimFloat.ltb
    Binary64.example_budget
    (Binary64.projected_total Binary64.example_budget Binary64.example_actual
                              Binary64.hundred) = true.
Proof. repeat split; vm_compute; reflexivity. Qed.

Lemma risk_classification_total_witness :
  exists out,
    calculate_risk_assessment sample_frame = Ok out /\
    cell_at out "risk_category" 2 = Some (VStr "Critical Risk").
Proof.
  destruct (risk_classification_total sample_frame
              [Fin 42134; Fin 40000; Fin 900] [Fin 19577; Fin 14571; Fin 0]
              eq_refl eq_refl eq_refl eq_refl) as [out [Hout Hrows]].
  exists out. split; [exact Hout|].
  destruct (Hrows 2%nat 900 0 eq_refl eq_refl)
    as (v & label & Hv & Hcell & _ & _ & Hnz).
  rewrite Hcell. do 2 f_equal.
  apply Hnz; [discriminate|].
  vm_compute in Hout. injection Hout as <-.
  vm_compute in Hv. injection Hv as <-. reflexivity.
Defined.

(** C8: under the active category "EXPENDITURE" the line
    "4000 Clerks Salary £42,134.00 £19,577.64 £22,556.36" gives exactly one
    record, with code "4000", description "Clerks Salary", budget
    42134.00, actual 19577.64, balance 22556.36 and type "Expenditure". *)
Theorem parse_clerk_line :
  FinancialDataProcessor._parse_financial_line clerk_line "EXPENDITURE"
  = Some [("code", VStr "4000");
          ("description", VStr "Clerks Salary");
          ("category", VStr "EXPENDITURE");
          ("budget_2025_26", VNum (Fin 42134.00));
          ("actual_net", VNum (Fin 19577.64));
          ("balance", VNum (Fin 22556.36));
          ("type", VStr "Expenditure")]
  /\ FinancialDataProcessor._parse_financial_text clerk_page
     = [[("code", VStr "4000");
         ("description", VStr "Clerks Salary");
         ("category", VStr "EXPENDITURE");
         ("budget_2025_26", VNum (Fin 42134.00));
         ("actual_net", VNum (Fin 19577.64));
         ("balance", VNum (Fin 22556.36));
         ("type", VStr "Expenditure")]].
Proof. split; vm_compute; reflexivity. Qed.

(** ** CSV reconciliation *)

Lemma missing_from_spec df cols c :
  c ∈ missing_from df cols <-> c ∈ cols /\ c ∉ columns df.
Proof. unfold missing_from. rewrite list_elem_of_filter. tauto. Qed.

Lemma missing_from_nil df cols :
  missing_from df cols = [] <-> forall c, c ∈ cols -> c ∈ columns df.
Proof.
  split.
  - intros E c Hc. destruct (decide (c ∈ columns df)) as [|Hn]; [done|].
    assert (H : c ∈ missing_from df cols) by (by apply missing_from_spec).
    rewrite E in H. by apply elem_of_nil in H.
  - intros H. destruct (missing_from df cols) as [|c t] eqn:E; [done|].
    assert (Hc : c ∈ missing_from df cols) by (rewrite E; left).
    apply missing_from_spec in Hc as [Hc Hn]. by apply H in Hc.
Qed.

Lemma _map_csv_columns_fst df original_columns :
  fst (_map_csv_columns df original_columns)
  = let df' := rename (fst (build_column_map (columns df))) df in
    match missing_from df' essential_cols with
    | [] => df'
    | _ :: _ => empty_frame
    end.
Proof.
  unfold _map_csv_columns. destruct (build_column_map (columns df)) as [m mc].
  simpl. by destruct (missing_from _ _).
Qed.

Lemma _map_csv_columns_reports df original_columns :
  let df' := rename (fst (build_column_map (columns df))) df in
  missing_from df' essential_cols <> [] ->
  st_write ["**Missing required columns:**";
            Str.join ", " (missing_from df' essential_cols)]
    ∈ snd (_map_csv_columns df original_columns).
Proof.
  unfold _map_csv_columns. destruct (build_column_map (columns df)) as [m mc].
  cbn [fst]. intros Hm. destruct (missing_from _ _) as [|c t] eqn:E; [done|].
  cbn [snd]. apply elem_of_app. right.
  rewrite !elem_of_cons. auto.
Qed.

Lemma process_csv_unfold df :
  process_csv df
  = let r := _map_csv_columns (normalize_columns df) (columns df) in
    if empty (fst r) then r
    else match add_derived_columns (fst r) with
         | Ok out => (out, snd r)
         | Raise e => (empty_frame, snd r ++ [st_error_exn "Error processing CSV: " e])
         end.
Proof.
  unfold process_csv. by destruct (_map_csv_columns _ _) as [d l].
Qed.

Lemma add_balance_keeps df out c :
  add_balance df = Ok out -> c ∈ columns df -> c ∈ columns out.
Proof.
  unfold add_balance. intros H Hc. destruct (_ && _).
  - destruct (getitem df "budget") as [b|]; [|done].
    destruct (getitem df "actual") as [a|]; [|done].
    rewrite !bind_ok in H.
    destruct (series_binop Float.sub b a) as [d|]; [|done].
    rewrite bind_ok in H. injection H as <-. apply columns_setitem. by right.
  - by injection H as <-.
Qed.

Lemma add_category_keeps df c : c ∈ columns df -> c ∈ columns (add_category df).
Proof.
  unfold add_category. intros Hc.
  destruct (negb _); [apply columns_setitem; by right | done].
Qed.

Lemma add_type_keeps df out c :
  add_type df = Ok out -> c ∈ columns df -> c ∈ columns out.
Proof.
  unfold add_type. intros H Hc. destruct (_ && _).
  - destruct (getitem df "budget") as [b|]; [|done]. rewrite bind_ok in H.
    destruct (traverse type_of_budget b) as [t|]; [|done].
    rewrite bind_ok in H. injection H as <-. apply columns_setitem. by right.
  - by injection H as <-.
Qed.

Lemma add_derived_columns_keeps df out c :
  add_derived_columns df = Ok out -> c ∈ columns df -> c ∈ columns out.
Proof.
  unfold add_derived_columns. intros H Hc.
  destruct (add_balance df) as [df1|] eqn:E1; [|done]. rewrite bind_ok in H.
  eapply add_type_keeps; [exact H|].
  apply add_category_keeps. eapply add_balance_keeps; eauto.
Qed.

(** C5: when an essential column (description, budget, actual) is absent
    after the alias mapping, [process_csv] rejects the whole upload: it
    returns the empty frame and writes the missing names, which are
    exactly the essential names that the mapped table lacks.  Nothing
    partial is returned: the result of [process_csv] is either the empty
    frame or a frame that has all three essential columns. *)
Theorem missing_essential_rejects_upload (df : DataFrame) :
  let missing := missing_from (mapped df) essential_cols in
  (forall c, c ∈ missing <-> c ∈ essential_cols /\ c ∉ columns (mapped df)) /\
  ((exists c, c ∈ essential_cols /\ c ∉ columns (mapped df)) ->
   fst (process_csv df) = empty_frame /\
   st_write ["**Missing required columns:**"; Str.join ", " missing]
     ∈ snd (process_csv df)) /\
  (fst (process_csv df) = empty_frame \/
   forall c, c ∈ essential_cols -> c ∈ columns (fst (process_csv df))).
Proof.
  cbv zeta.
  pose proof (_map_csv_columns_fst (normalize_columns df) (columns df)) as Hf.
  pose proof (_map_csv_columns_reports (normalize_columns df) (columns df)) as Hr.
  cbv zeta in Hf, Hr. fold (mapped df) in Hf, Hr.
  split; [|split].
  - intros c. apply missing_from_spec.
  - intros (c & Hc & Hn).
    assert (Hm : missing_from (mapped df) essential_cols <> []).
    { intros E. apply Hn. by apply (proj1 (missing_from_nil _ _) E). }
    specialize (Hr Hm).
    rewrite process_csv_unfold. cbv zeta.
    destruct (missing_from (mapped df) essential_cols) as [|m t]; [done|].
    rewrite Hf. simpl. split; [exact Hf | exact Hr].
  - rewrite process_csv_unfold. cbv zeta.
    destruct (_map_csv_columns (normalize_columns df) (columns df)) as [d l].
    cbn [fst snd] in *.
    destruct (missing_from (mapped df) essential_cols) as [|m t] eqn:E.
    + pose proof (proj1 (missing_from_nil _ _) E) as E'. subst d.
      destruct (empty (mapped df)) eqn:Ee; cbn [fst]; [by right|].
      destruct (add_derived_columns (mapped df)) as [out|e] eqn:Ea; cbn [fst].
      * right. intros c Hc. eapply add_derived_columns_keeps; eauto.
      * by left.
    + subst d. by left.
Qed.


Lemma normalize_columns_id df :
  (forall c, c ∈ columns df -> normalize_name c = c) -> normalize_columns df = df.
Proof.
  destruct df as [n d]. unfold normalize_columns, columns. simpl. intros H.
  f_equal. induction d as [|[k s] t IH]; simpl; [done|].
  rewrite (H k) by left. f_equal. apply IH. intros c Hc. apply H. by right.
Qed.

Lemma rename_id (m : gmap string string) df :
  (forall k v, m !! k = Some v -> v = k) -> rename m df = df.
Proof.
  destruct df as [n d]. unfold rename. simpl. intros H. f_equal.
  induction d as [|[k s] t IH]; simpl; [done|]. rewrite IH. f_equal.
  destruct (m !! k) as [v|] eqn:E; simpl; [|done]. by rewrite (H k v E).
Qed.

Lemma first_present_head cols a l :
  a ∈ cols -> first_present cols (a :: l) = Some a.
Proof. intros H. unfold first_present. simpl. by rewrite bool_decide_true. Qed.

Lemma build_column_map_canonical cols :
  (forall c, c ∈ canonical_columns -> c ∈ cols) ->
  forall k v, fst (build_column_map cols) !! k = Some v -> v = k.
Proof.
  intros H. unfold build_column_map, column_mappings. cbn [foldl]. unfold map_step. cbn [fst snd].
  rewrite !first_present_head
    by (apply H; unfold canonical_columns; rewrite !elem_of_cons; auto 10).
  cbn [fst snd]. intros k v.
  rewrite !lookup_insert, lookup_empty.
  repeat case_decide; congruence.
Qed.

Lemma has_column_in df c : c ∈ columns df -> has_column df c = true.
Proof. apply has_column_true. Qed.

(** C6: reconciliation is idempotent.  A dataset in canonical form, whose
    column names are in normal form and include description, budget,
    actual, category, balance, code and type, is returned by
    [process_csv] unchanged. *)
Theorem reconcile_canonical_is_noop (df : DataFrame) :
  (forall c, c ∈ canonical_columns -> c ∈ columns df) ->
  (forall c, c ∈ columns df -> normalize_name c = c) ->
  fst (process_csv df) = df.
Proof.
  intros Hcan Hnorm.
  assert (Hin : forall c, c ∈ canonical_columns -> has_column df c = true).
  { intros c Hc. by apply has_column_in, Hcan. }
  rewrite process_csv_unfold. cbv zeta.
  rewrite (normalize_columns_id df Hnorm).
  pose proof (_map_csv_columns_fst df (columns df)) as Hf. cbv zeta in Hf.
  rewrite (rename_id _ df (build_column_map_canonical _ Hcan)) in Hf.
  replace (missing_from df essential_cols) with (@nil string) in Hf.
  2:{ symmetry. apply missing_from_nil. intros c Hc. apply Hcan.
      revert Hc. unfold essential_cols, canonical_columns.
      rewrite !elem_of_cons. intuition. }
  destruct (_map_csv_columns df (columns df)) as [d l]. cbn [fst snd] in *.
  subst d.
  destruct (empty df); [done|].
  unfold add_derived_columns, add_balance, add_category, add_type.
  rewrite (Hin "balance"), (Hin "budget"), (Hin "actual") by
    (unfold canonical_columns; rewrite !elem_of_cons; auto 10).
  cbn [negb andb]. rewrite bind_ok.
  rewrite (Hin "category") by
    (unfold canonical_columns; rewrite !elem_of_cons; auto 10).
  cbn [negb]. rewrite (Hin "type") by
    (unfold canonical_columns; rewrite !elem_of_cons; auto 10).
  reflexivity.
Qed.


(** C2 (as stated, refuted): for the columns "Item Name", "Budgeted" and
    "Spent" the mapped columns are item_name, budget and actual; the
    essential-column check finds description missing and the upload is
    rejected. *)
Lemma item_name_upload_is_rejected :
  columns item_name_upload = ["Item Name"; "Budgeted"; "Spent"] /\
  columns (mapped item_name_upload) = ["item_name"; "budget"; "actual"] /\
  missing_from (mapped item_name_upload) essential_cols = ["description"] /\
  fst (process_csv item_name_upload) = empty_frame.
Proof. repeat split; vm_compute; reflexivity. Qed.

(** C2 (amended): aliases are matched by their exact normalised name.
    With the columns "Item Name", "Budgeted", "Spent", the last two are
    mapped to budget and actual, but item_name is no alias of description,
    so the essential-column check fails with description missing.  With
    the columns "Item", "Budgeted", "Spent" the three are mapped to
    description, budget and actual in this order and the check passes. *)
Theorem reconcile_item_budgeted_spent (n : nat) (s1 s2 s3 : list value) :
  let rejected := mkDF n [("Item Name", s1); ("Budgeted", s2); ("Spent", s3)] in
  let accepted := mkDF n [("Item", s1); ("Budgeted", s2); ("Spent", s3)] in
  (columns (mapped rejected) = ["item_name"; "budget"; "actual"] /\
   missing_from (mapped rejected) essential_cols = ["description"] /\
   fst (process_csv rejected) = empty_frame) /\
  (columns (mapped accepted) = ["description"; "budget"; "actual"] /\
   missing_from (mapped accepted) essential_cols = [] /\
   fst (_map_csv_columns (normalize_columns accepted) (columns accepted))
   = mkDF n [("description", s1); ("budget", s2); ("actual", s3)]).
Proof. repeat split; vm_compute; reflexivity. Qed.

Lemma first_present_Some cols l a :
  first_present cols l = Some a -> a ∈ l /\ a ∈ cols.
Proof.
  unfold first_present. induction l as [|x l IH]; simpl; [done|].
  case_bool_decide as Hx.
  - intros [= <-]. split; [left | done].
  - intros H. destruct (IH H) as [H1 H2]. split; [by right | done].
Qed.

Lemma foldl_map_step_inv cols (l : list (string * list string)) acc :
  (forall e, e ∈ l -> e ∈ column_mappings) ->
  (forall k t, fst acc !! k = Some t ->
     exists aliases, (t, aliases) ∈ column_mappings /\ first_present cols aliases = Some k) ->
  forall k t, fst (foldl (map_step cols) acc l) !! k = Some t ->
     exists aliases, (t, aliases) ∈ column_mappings /\ first_present cols aliases = Some k.
Proof.
  revert acc. induction l as [|[t0 al] l IH]; intros acc Hl Hacc; simpl; [done|].
  apply IH.
  - intros e He. apply Hl. by right.
  - intros k t. unfold map_step. simpl.
    destruct (first_present cols al) as [a|] eqn:E; simpl; [|by apply Hacc].
    rewrite lookup_insert. case_decide as Hk.
    + intros [= <-]. subst k. exists al. split; [apply Hl; left | done].
    + apply Hacc.
Qed.

Lemma build_column_map_inv cols k t :
  fst (build_column_map cols) !! k = Some t ->
  exists aliases, (t, aliases) ∈ column_mappings /\ first_present cols aliases = Some k.
Proof.
  apply (foldl_map_step_inv cols column_mappings (∅, [])); [done|].
  intros k' t'. simpl. by rewrite lookup_empty.
Qed.


Lemma mapping_target t aliases :
  (t, aliases) ∈ column_mappings ->
  t ∈ ["description"; "budget"; "actual"; "category"; "balance"; "code"].
Proof.
  unfold column_mappings. rewrite !elem_of_cons. rewrite elem_of_nil.
  intros H. repeat destruct H as [H|H]; try done;
    injection H as -> _; auto 10.
Qed.

Lemma mapping_category aliases :
  ("category", aliases) ∈ column_mappings ->
  aliases = ["category"; "cat"; "type"; "group"; "section"].
Proof.
  unfold column_mappings. rewrite !elem_of_cons. rewrite elem_of_nil.
  intros H. repeat destruct H as [H|H]; try done; by injection H.
Qed.

Lemma map_step_keeps cols acc entry k t :
  fst acc !! k = Some t -> k ∉ snd entry ->
  fst (map_step cols acc entry) !! k = Some t.
Proof.
  intros Hk Hn. unfold map_step.
  destruct (first_present cols (snd entry)) as [a|] eqn:E; [|done]. cbn [fst].
  apply first_present_Some in E as [E _].
  rewrite lookup_insert_ne; [done|]. by intros ->.
Qed.

Section TypeAlias.
Variable cols : list string.
Hypothesis Htype : "type" ∈ cols.
Hypothesis Hcategory : "category" ∉ cols.
Hypothesis Hcat : "cat" ∉ cols.

Lemma first_present_type :
  first_present cols ["category"; "cat"; "type"; "group"; "section"] = Some "type".
Proof.
  unfold first_present. simpl.
  rewrite (bool_decide_false _ Hcategory), (bool_decide_false _ Hcat).
  by rewrite (bool_decide_true _ Htype).
Qed.

Lemma column_map_type : fst (build_column_map cols) !! "type" = Some "category".
Proof.
  unfold build_column_map, column_mappings. cbn [foldl].
  do 2 (apply map_step_keeps;
        [|cbn [snd]; rewrite !elem_of_cons, elem_of_nil; intuition discriminate]).
  unfold map_step at 1. cbn [fst snd]. rewrite first_present_type. cbn [fst].
  apply lookup_insert_eq.
Qed.

Lemma renamed_category k : k ∈ cols -> renamed cols k = "category" <-> k = "type".
Proof.
  intros Hk. unfold renamed. split.
  - destruct (fst (build_column_map cols) !! k) as [t|] eqn:E; simpl.
    + intros ->. apply build_column_map_inv in E as (aliases & Hin & Hfp).
      apply mapping_category in Hin as ->.
      rewrite first_present_type in Hfp. by injection Hfp.
    + intros ->. contradiction.
  - intros ->. by rewrite column_map_type.
Qed.

Lemma renamed_not_type k : k ∈ cols -> renamed cols k <> "type".
Proof.
  intros Hk. unfold renamed.
  destruct (fst (build_column_map cols) !! k) as [t|] eqn:E; simpl.
  - apply build_column_map_inv in E as (aliases & Hin & _).
    apply mapping_target in Hin. revert Hin.
    rewrite !elem_of_cons, elem_of_nil. intros H E'. rewrite E' in H.
    intuition discriminate.
  - intros ->. by rewrite column_map_type in E.
Qed.
End TypeAlias.

Lemma assoc_rename_category (d : list (string * list value)) :
  "type" ∈ map fst d -> "category" ∉ map fst d -> "cat" ∉ map fst d ->
  assoc "category"
    (map (fun cs => (renamed (map fst d) (fst cs), snd cs)) d)
  = assoc "type" d.
Proof.
  intros H1 H2 H3.
  assert (Hall : forall k, k ∈ map fst d ->
            (renamed (map fst d) k = "category" <-> k = "type")).
  { intros k Hk. by apply renamed_category. }
  revert Hall. generalize (renamed (map fst d)). intros f Hall.
  clear H1 H2 H3. induction d as [|[k s] t IH]; simpl; [done|].
  destruct (String.eqb_spec (f k) "category") as [E|E].
  - apply Hall in E; [|left]. subst k. by rewrite String.eqb_refl.
  - destruct (String.eqb_spec k "type") as [->|E'].
    + exfalso. apply E. apply Hall; [left|done].
    + apply IH. intros k' Hk'. apply Hall. by right.
Qed.

Lemma columns_rename m df :
  columns (rename m df) = map (fun k => default k (m !! k)) (columns df).
Proof.
  unfold columns, rename. simpl. rewrite !map_map. done.
Qed.


Lemma traverse_lookup {A B} (f : A -> result B) (l : list A) (r : list B) i a :
  traverse f l = Ok r -> l !! i = Some a ->
  exists b, r !! i = Some b /\ f a = Ok b.
Proof.
  revert r i. induction l as [|x l IH]; intros r i; simpl; [done|].
  destruct (f x) as [y|] eqn:Ex; [|done]. rewrite bind_ok.
  destruct (traverse f l) as [r'|] eqn:Er; [|done]. rewrite bind_ok.
  intros [= <-]. destruct i as [|i]; simpl.
  - intros [= <-]. by exists y.
  - intros Hi. by apply (IH r' i).
Qed.

Lemma add_balance_getitem df out c :
  add_balance df = Ok out -> c <> "balance" -> getitem out c = getitem df c.
Proof.
  unfold add_balance. intros H Hc. destruct (_ && _).
  - destruct (getitem df "budget") as [b|]; [|done].
    destruct (getitem df "actual") as [a|]; [|done].
    rewrite !bind_ok in H.
    destruct (series_binop Float.sub b a) as [d|]; [|done].
    rewrite bind_ok in H. injection H as <-. by rewrite getitem_setitem_ne.
  - by injection H as <-.
Qed.

Lemma add_balance_columns df out c :
  add_balance df = Ok out -> c ∈ columns out -> c = "balance" \/ c ∈ columns df.
Proof.
  unfold add_balance. intros H Hc. destruct (_ && _).
  - destruct (getitem df "budget") as [b|]; [|done].
    destruct (getitem df "actual") as [a|]; [|done].
    rewrite !bind_ok in H.
    destruct (series_binop Float.sub b a) as [d|]; [|done].
    rewrite bind_ok in H. injection H as <-. by apply columns_setitem in Hc.
  - injection H as <-. by right.
Qed.

Lemma mapped_category_is_type df :
  let cols := columns (normalize_columns df) in
  "type" ∈ cols -> "category" ∉ cols -> "cat" ∉ cols ->
  getitem (mapped df) "category" = getitem (normalize_columns df) "type".
Proof.
  intros cols H1 H2 H3.
  pose proof (assoc_rename_category (data (normalize_columns df)) H1 H2 H3) as E.
  unfold renamed in E. unfold getitem, mapped, rename, columns. cbn [data].
  rewrite E. destruct (assoc "type" _) eqn:En; [done|].
  apply assoc_None in En. contradiction.
Qed.

Lemma mapped_has_no_type df :
  let cols := columns (normalize_columns df) in
  "type" ∈ cols -> "category" ∉ cols -> "cat" ∉ cols ->
  ("type" ∉ columns (mapped df)) /\ ("category" ∈ columns (mapped df)).
Proof.
  intros cols H1 H2 H3. unfold mapped. rewrite columns_rename. fold cols. split.
  - intros H. apply list_elem_of_fmap in H as (k & Hk & Hin).
    by apply (renamed_not_type cols H1 H2 H3 k Hin).
  - apply list_elem_of_fmap. exists "type". split; [|done].
    by rewrite (column_map_type cols H1 H2 H3).
Qed.

(** C10: when the normalised columns of an upload include type but
    neither category nor cat, the column map sends type to category, so in
    an accepted upload the category column holds the user's type column,
    and the type column is derived afresh from the sign of the budget:
    "Income" for a negative budget, "Expenditure" otherwise. *)
Theorem type_column_becomes_category (df : DataFrame) :
  let cols := columns (normalize_columns df) in
  let out := fst (process_csv df) in
  "type" ∈ cols -> "category" ∉ cols -> "cat" ∉ cols ->
  empty out = false ->
  fst (build_column_map cols) !! "type" = Some "category" /\
  getitem out "category" = getitem (normalize_columns df) "type" /\
  forall i x,
    cell_at out "budget" i = Some x ->
    exists b,
      x = VNum b /\
      cell_at out "type" i
      = Some (VStr (if Float.ltb b (Fin 0) then "Income" else "Expenditure")).
Proof.
  intros cols out H1 H2 H3 Hne.
  split; [by apply column_map_type|].
  destruct (mapped_has_no_type df H1 H2 H3) as [Hnt Hc].
  pose proof (mapped_category_is_type df H1 H2 H3) as Hcat.
  subst out. rewrite process_csv_unfold in *. cbv zeta in *.
  pose proof (_map_csv_columns_fst (normalize_columns df) (columns df)) as Hf.
  cbv zeta in Hf. fold (mapped df) in Hf.
  destruct (_map_csv_columns (normalize_columns df) (columns df)) as [d l].
  cbn [fst snd] in *.
  destruct (missing_from (mapped df) essential_cols) as [|m t] eqn:Em; subst d.
  2:{ exfalso. revert Hne. by vm_compute. }
  pose proof (proj1 (missing_from_nil _ _) Em) as Hess.
  destruct (empty (mapped df)) eqn:Ee; cbn [fst] in *; [congruence|].
  destruct (add_derived_columns (mapped df)) as [out|e] eqn:Ea; cbn [fst] in *.
  2:{ exfalso. revert Hne. by vm_compute. }
  unfold add_derived_columns in Ea.
  destruct (add_balance (mapped df)) as [df1|] eqn:Eb; [|done].
  rewrite bind_ok in Ea.
  assert (Hc1 : has_column df1 "category" = true).
  { apply has_column_true. eapply add_balance_keeps; eauto. }
  assert (Hb1 : has_column df1 "budget" = true).
  { apply has_column_true. eapply add_balance_keeps; eauto.
    apply Hess. unfold essential_cols. rewrite !elem_of_cons. auto. }
  assert (Ht1 : has_column df1 "type" = false).
  { apply has_column_false. intros Hin.
    destruct (add_balance_columns _ _ _ Eb Hin) as [?|?]; [done|]. contradiction. }
  unfold add_category, add_type in Ea. rewrite Hc1 in Ea. cbn [negb] in Ea.
  rewrite Ht1, Hb1 in Ea. cbn [negb andb] in Ea.
  destruct (getitem df1 "budget") as [b|] eqn:Egb; [|done]. rewrite bind_ok in Ea.
  destruct (traverse type_of_budget b) as [ty|] eqn:Et; [|done].
  rewrite bind_ok in Ea. injection Ea as <-.
  split.
  - rewrite getitem_setitem_ne by discriminate.
    rewrite (add_balance_getitem _ _ "category" Eb) by discriminate. exact Hcat.
  - intros i x. rewrite cell_at_setitem_ne by discriminate.
    rewrite cell_at_setitem_eq. unfold cell_at. rewrite Egb. intros Hx.
    destruct (traverse_lookup _ _ _ _ _ Et Hx) as (y & Hy & Hty).
    destruct x as [bx|s]; [|done]. exists bx. split; [done|].
    injection Hty as <-. exact Hy.
Qed.

Lemma type_column_becomes_category_witness :
  getitem (fst (process_csv typed_upload)) "category"
  = Ok [VStr "Income"; VStr "Expenditure"] /\
  cell_at (fst (process_csv typed_upload)) "type" 0 = Some (VStr "Income").
Proof.
  assert (H1 : "type" ∈ columns (normalize_columns typed_upload)).
  { apply (bool_decide_unpack _). vm_compute. exact I. }
  assert (H2 : "category" ∉ columns (normalize_columns typed_upload)).
  { apply (bool_decide_unpack _). vm_compute. exact I. }
  assert (H3 : "cat" ∉ columns (normalize_columns typed_upload)).
  { apply (bool_decide_unpack _). vm_compute. exact I. }
  destruct (type_column_becomes_category typed_upload H1 H2 H3 eq_refl)
    as (_ & Hcat & Hty).
  split.
  - rewrite Hcat. reflexivity.
  - destruct (Hty 0%nat (VNum (Fin (-40000))) eq_refl) as (b & Hb & Hc).
    injection Hb as <-. exact Hc.
Defined.

(** ** Sorting and percentiles *)

Lemma insert_sorted_rational x (l : list Q) :
  insert_sorted (Fin x) (Fin <$> l) = Fin <$> insert_rational x l.
Proof.
  induction l as [|y l IH]; [done|].
  rewrite fmap_cons. cbn [insert_sorted insert_rational Float.leb].
  destruct (Qle_bool x y); [done|]. by rewrite IH, fmap_cons.
Qed.

Lemma sort_rational (l : list Q) : sort (Fin <$> l) = Fin <$> sort_rationals l.
Proof.
  unfold sort, sort_rationals. induction l as [|x l IH]; [done|].
  rewrite fmap_cons. cbn [foldr]. by rewrite IH, insert_sorted_rational.
Qed.

Lemma insert_rational_length x l : length (insert_rational x l) = S (length l).
Proof.
  induction l as [|y l IH]; simpl; [done|].
  destruct (Qle_bool x y); simpl; [done|]. by rewrite IH.
Qed.

Lemma sort_rationals_length l : length (sort_rationals l) = length l.
Proof.
  unfold sort_rationals. induction l as [|x l IH]; simpl; [done|].
  by rewrite insert_rational_length, IH.
Qed.

Lemma insert_rational_In x l y :
  In y (insert_rational x l) -> y = x \/ In y l.
Proof.
  induction l as [|z l IH]; simpl; [intuition|].
  destruct (Qle_bool x z); simpl; [intuition|]. intros [->|H]; [tauto|].
  destruct (IH H); tauto.
Qed.

Lemma insert_rational_sorted x l :
  StronglySorted Qle l -> StronglySorted Qle (insert_rational x l).
Proof.
  induction 1 as [|y l Hs IH Hy]; simpl.
  - repeat constructor.
  - destruct (Qle_bool x y) eqn:E.
    + apply Qle_bool_iff in E.
      constructor; [by constructor|]. constructor; [exact E|].
      eapply Forall_impl; [exact Hy|]. intros z Hz. simpl in Hz. lra.
    + assert (Hxy : y <= x).
      { destruct (Qlt_le_dec y x) as [H|H]; [lra|].
        apply Qle_bool_iff in H. congruence. }
      constructor; [exact IH|].
      apply List.Forall_forall. intros z Hz.
      apply insert_rational_In in Hz as [->|Hz]; [exact Hxy|].
      by apply (proj1 (List.Forall_forall _ _) Hy).
Qed.

Lemma sort_rationals_sorted l : StronglySorted Qle (sort_rationals l).
Proof.
  unfold sort_rationals. induction l as [|x l IH]; simpl; [constructor|].
  by apply insert_rational_sorted.
Qed.

Lemma sorted_nth (sq : list Q) (i j : nat) :
  StronglySorted Qle sq -> (i <= j)%nat -> (j < length sq)%nat ->
  nth i sq 0 <= nth j sq 0.
Proof.
  intros Hs. revert i j. induction Hs as [|x l Hs IH Hx]; intros i j Hij Hj.
  - simpl in Hj. lia.
  - destruct i as [|i], j as [|j]; simpl in *; try lia.
    + lra.
    + apply (proj1 (List.Forall_forall _ _) Hx). apply nth_In. lia.
    + apply IH; lia.
Qed.


Lemma lerp_between (lo hi g : Q) :
  lo <= hi -> 0 <= g -> g <= 1 ->
  lo <= lo + (hi + - lo) * g /\ lo + (hi + - lo) * g <= hi.
Proof. intros. split; nra. Qed.

Lemma lerp_mono (lo hi g1 g2 : Q) :
  lo <= hi -> g1 <= g2 ->
  lo + (hi + - lo) * g1 <= lo + (hi + - lo) * g2.
Proof. intros. nra. Qed.

Lemma virtual_index_bounds (N : Z) (q : Q) :
  (0 <= N)%Z -> 0 <= q -> q <= 100 ->
  0 <= inject_Z N * (q / 100) /\ inject_Z N * (q / 100) <= inject_Z N.
Proof.
  intros HN H0 H1.
  assert (0 <= inject_Z N) by (change 0 with (inject_Z 0); by rewrite <- Zle_Qle).
  assert (E : q / 100 == q * (1 # 100)) by reflexivity.
  rewrite E. split; nra.
Qed.

Lemma virtual_index_mono (N : Z) (q1 q2 : Q) :
  (0 <= N)%Z -> q1 <= q2 ->
  inject_Z N * (q1 / 100) <= inject_Z N * (q2 / 100).
Proof.
  intros HN H.
  assert (0 <= inject_Z N) by (change 0 with (inject_Z 0); by rewrite <- Zle_Qle).
  assert (E1 : q1 / 100 == q1 * (1 # 100)) by reflexivity.
  assert (E2 : q2 / 100 == q2 * (1 # 100)) by reflexivity.
  rewrite E1, E2. nra.
Qed.

Lemma floor_bounds (N : Z) (v : Q) :
  0 <= v -> v <= inject_Z N ->
  (0 <= Qfloor v <= N)%Z /\ 0 <= v - inject_Z (Qfloor v) /\ v - inject_Z (Qfloor v) <= 1.
Proof.
  intros H0 H1. split; [split|].
  - change 0%Z with (Qfloor 0). by apply Qfloor_resp_le.
  - rewrite <- (Qfloor_Z N). by apply Qfloor_resp_le.
  - pose proof (Qfloor_le v). pose proof (Qlt_floor v) as Hlt.
    rewrite inject_Z_plus in Hlt. change (inject_Z 1) with 1 in Hlt. split; lra.
Qed.

Lemma interpolate_mono (sq : list Q) (q1 q2 : Q) :
  StronglySorted Qle sq -> (0 < length sq)%nat ->
  0 <= q1 -> q1 <= q2 -> q2 <= 100 ->
  interpolate sq q1 <= interpolate sq q2.
Proof.
  intros Hs Hn H0 H12 H100. unfold interpolate.
  set (n := length sq) in *. set (N := (Z.of_nat n - 1)%Z).
  assert (HN : (0 <= N)%Z) by (subst N; lia).
  set (v1 := inject_Z N * (q1 / 100)). set (v2 := inject_Z N * (q2 / 100)).
  assert (Hv : v1 <= v2) by (by apply virtual_index_mono).
  destruct (virtual_index_bounds N q1 HN) as [V1a V1b]; [done|lra|].
  destruct (virtual_index_bounds N q2 HN) as [V2a V2b]; [lra|done|].
  fold v1 in V1a, V1b. fold v2 in V2a, V2b.
  destruct (floor_bounds N v1 V1a V1b) as ([P1a P1b] & G1a & G1b).
  destruct (floor_bounds N v2 V2a V2b) as ([P2a P2b] & G2a & G2b).
  assert (Hp : (Qfloor v1 <= Qfloor v2)%Z) by (by apply Qfloor_resp_le).
  set (p1 := Qfloor v1) in *. set (p2 := Qfloor v2) in *.
  assert (C : forall p, (0 <= p <= N)%Z ->
            clamp_index n p = Z.to_nat p /\
            clamp_index n (p + 1) = Z.to_nat (Z.min (p + 1) N)).
  { intros p Hp'. unfold clamp_index. fold N. split; f_equal; lia. }
  destruct (C p1) as [-> ->]; [lia|]. destruct (C p2) as [-> ->]; [lia|].
  assert (L : forall p, (0 <= p <= N)%Z ->
            nth (Z.to_nat p) sq 0 <= nth (Z.to_nat (Z.min (p + 1) N)) sq 0).
  { intros p Hp'. apply sorted_nth; [done| |]; subst N n; lia. }
  destruct (Z.eq_dec p1 p2) as [E|E].
  - rewrite <- E in *. apply lerp_mono; [apply L; lia|]. lra.
  - assert (M : nth (Z.to_nat (Z.min (p1 + 1) N)) sq 0 <= nth (Z.to_nat p2) sq 0).
    { apply sorted_nth; [done| |]; subst N n; lia. }
    destruct (lerp_between _ _ (v1 - inject_Z p1) (L p1 ltac:(lia))) as [_ U]; [lra|lra|].
    destruct (lerp_between _ _ (v2 - inject_Z p2) (L p2 ltac:(lia))) as [D _]; [lra|lra|].
    lra.
Qed.

Lemma nth_fin (sq : list Q) (i : nat) :
  (i < length sq)%nat -> nth i (Fin <$> sq) NaN = Fin (nth i sq 0).
Proof.
  revert i. induction sq as [|x sq IH]; intros [|i] H; simpl in *; try lia; [done|].
  apply IH. lia.
Qed.

Lemma clamp_index_lt n i : (0 < n)%nat -> (clamp_index n i < n)%nat.
Proof. unfold clamp_index. lia. Qed.

Lemma existsb_isnan_fin (ql : list Q) : existsb Float.isnan (Fin <$> ql) = false.
Proof. induction ql as [|x l IH]; [done|]. rewrite fmap_cons. simpl. exact IH. Qed.

Lemma percentile_finite (ql : list Q) (q : Q) :
  (0 < length ql)%nat ->
  percentile (Fin <$> ql) q = Ok (Fin (interpolate (sort_rationals ql) q)).
Proof.
  intros Hn. unfold percentile.
  rewrite length_fmap. destruct (Nat.eqb_spec (length ql) 0) as [E|_]; [lia|].
  rewrite existsb_isnan_fin, sort_rational, length_fmap.
  unfold interpolate. rewrite sort_rationals_length.
  rewrite !nth_fin by (rewrite sort_rationals_length; by apply clamp_index_lt).
  reflexivity.
Qed.


(** ** The simulation *)

Lemma Forall_finite_fmap (ql : list Q) : Forall Float.finite (Fin <$> ql).
Proof. induction ql; constructor; done. Qed.

Lemma clip_finite (x lo hi : Q) : Float.finite (Float.clip (Fin x) (Fin lo) (Fin hi)).
Proof.
  unfold Float.clip, Float.maximum, Float.minimum. simpl.
  destruct (Qle_bool x lo); simpl; by destruct (Qle_bool _ hi).
Qed.

Lemma draw_probs_finite normal cats k (probs : gmap string float) :
  (forall c v, probs !! c = Some v -> Float.finite v) ->
  forall c v, fst (draw_probs normal cats k probs) !! c = Some v -> Float.finite v.
Proof.
  revert k probs. induction cats as [|cat cats IH]; intros k probs H; simpl; [done|].
  apply IH. destruct cat as [x|s]; [done|].
  intros c v. rewrite lookup_insert. case_decide; [|by apply H].
  intros [= <-]. apply clip_finite.
Qed.

Lemma factor_finite (probs : gmap string float) c :
  (forall c v, probs !! c = Some v -> Float.finite v) ->
  Float.finite (factor_of probs c).
Proof.
  intros H. unfold factor_of.
  assert (F : Float.finite (probabilities_get probs c)).
  { destruct c as [x|s]; simpl; [done|].
    destruct (probs !! s) as [v|] eqn:E; simpl; [by apply (H s)|done]. }
  by destruct (probabilities_get probs c).
Qed.

Lemma zip_with_finite (f : float -> float -> float) (xs ys : list float) :
  (forall x y, Float.finite x -> Float.finite y -> Float.finite (f x y)) ->
  Forall Float.finite xs -> Forall Float.finite ys ->
  Forall Float.finite (zip_with f xs ys).
Proof.
  intros Hf Hx. revert ys. induction Hx as [|x xs Fx _ IH]; intros ys Hy; simpl.
  - constructor.
  - destruct Hy as [|y ys Fy Hy]; constructor; auto.
Qed.

Lemma add_finite x y : Float.finite x -> Float.finite y -> Float.finite (Float.add x y).
Proof. by destruct x, y. Qed.
Lemma sub_finite x y : Float.finite x -> Float.finite y -> Float.finite (Float.sub x y).
Proof. by destruct x, y. Qed.
Lemma mul_finite x y : Float.finite x -> Float.finite y -> Float.finite (Float.mul x y).
Proof. by destruct x, y. Qed.

Lemma series_sum_finite (xs : list float) :
  Forall Float.finite xs ->
  exists q, series_sum (VNum <$> xs) = Ok (Fin q).
Proof.
  unfold series_sum. generalize 0. intros a H. revert a.
  induction H as [|x xs Fx _ IH]; intros a; [by exists a|].
  rewrite fmap_cons. cbn [foldl]. destruct x as [q| | |]; try done.
  rewrite bind_ok. cbn [Float.add]. apply IH.
Qed.

Section Simulation.
Variable normal : nat -> Q.
Variable df : DataFrame.
Variables (cs : list value) (bq aq : list Q).
Hypothesis Hc : getitem df "category" = Ok cs.
Hypothesis Hb : getitem df (budget_col df) = Ok (VNum <$> (Fin <$> bq)).
Hypothesis Ha : getitem df (actual_col df) = Ok (VNum <$> (Fin <$> aq)).
Hypothesis Lc : length cs = nrows df.

Lemma trial_finite (probs : gmap string float) :
  (forall c v, probs !! c = Some v -> Float.finite v) ->
  exists out pv q,
    apply_probability_scenario df probs = Ok out /\
    getitem out "projected_variance" = Ok pv /\
    series_sum pv = Ok (Fin q).
Proof.
  intros Hp.
  pose proof (apply_probability_scenario_num df probs cs _ _ Hc Hb Ha Lc) as E.
  cbv zeta in E. eexists _, _.
  assert (F : Forall Float.finite
            (zip_with Float.sub (Fin <$> bq)
               (zip_with Float.add (Fin <$> aq)
                  (zip_with Float.mul
                     (zip_with Float.sub (Fin <$> bq) (Fin <$> aq))
                     (factor_of probs <$> cs))))).
  { apply (zip_with_finite _ _ _ sub_finite); [apply Forall_finite_fmap|].
    apply (zip_with_finite _ _ _ add_finite); [apply Forall_finite_fmap|].
    apply (zip_with_finite _ _ _ mul_finite).
    - apply (zip_with_finite _ _ _ sub_finite); apply Forall_finite_fmap.
    - apply Forall_fmap, Forall_forall. intros c _. by apply factor_finite. }
  destruct (series_sum_finite _ F) as [q Hq]. exists q.
  split; [exact E|]. rewrite getitem_setitem_eq. split; [done|exact Hq].
Qed.

Lemma simulate_spec (left k : nat) (results : list float) :
  Forall (fun t => Float.finite t /\ trial_total df t) results ->
  exists rs,
    simulate normal left k df results = Ok rs /\
    length rs = (length results + left)%nat /\
    Forall (fun t => Float.finite t /\ trial_total df t) rs.
Proof.
  revert k results. induction left as [|left IH]; intros k results Hr.
  - exists results. simpl. split; [done|]. split; [lia|done].
  - cbn [simulate]. rewrite Hc, bind_ok.
    destruct (draw_probs normal (unique cs) k ∅) as [probs k'] eqn:Ed.
    assert (Hp : forall c v, probs !! c = Some v -> Float.finite v).
    { intros c v. pose proof (draw_probs_finite normal (unique cs) k ∅) as H.
      rewrite Ed in H. apply H. intros c' v'. by rewrite lookup_empty. }
    destruct (trial_finite probs Hp) as (out & pv & q & E1 & E2 & E3).
    rewrite E1, bind_ok, E2, bind_ok, E3, bind_ok.
    destruct (IH k' (results ++ [Fin q])) as (rs & Hs & Hl & Hf).
    { apply Forall_app. split; [done|]. constructor; [|constructor].
      split; [done|]. by exists probs, out, pv. }
    exists rs. split; [exact Hs|]. split; [|exact Hf].
    rewrite Hl, length_app. simpl. lia.
Qed.
End Simulation.


Lemma finite_list (l : list float) :
  Forall Float.finite l -> exists ql, l = Fin <$> ql.
Proof.
  induction 1 as [|x l Hx _ [ql ->]]; [by exists []|].
  destruct x as [q| | |]; try done. by exists (q :: ql).
Qed.

Lemma percentile_order (ql : list Q) (q1 q2 : Q) :
  (0 < length ql)%nat -> 0 <= q1 -> q1 <= q2 -> q2 <= 100 ->
  Float.leb (Fin (interpolate (sort_rationals ql) q1))
            (Fin (interpolate (sort_rationals ql) q2)) = true.
Proof.
  intros Hn H0 H1 H2. simpl. apply Qle_bool_iff.
  apply interpolate_mono; try done.
  - apply sort_rationals_sorted.
  - by rewrite sort_rationals_length.
Qed.

(** C9 (amended): for every dataset with rows, with a category column and
    finite budget and actual columns, and every number of trials n >= 1,
    the simulation returns a result whose array [all_results] has length
    exactly n, each entry being the sum over the dataset of the projected
    variance of one scenario, and whose percentiles are ordered:
    percentile_5 <= percentile_25 <= percentile_75 <= percentile_95. *)
Theorem monte_carlo_results_and_percentiles
    (normal : nat -> Q) (np_sqrt : float -> float)
    (df : DataFrame) (cs : list value) (bq aq : list Q) (n : nat) :
  getitem df "category" = Ok cs ->
  getitem df (budget_col df) = Ok (VNum <$> (Fin <$> bq)) ->
  getitem df (actual_col df) = Ok (VNum <$> (Fin <$> aq)) ->
  length cs = nrows df ->
  (0 < nrows df)%nat ->
  (0 < n)%nat ->
  exists r,
    calculate_monte_carlo_simulation normal np_sqrt df n = Ok r /\
    length (all_results r) = n /\
    Forall (trial_total df) (all_results r) /\
    Float.leb (percentile_5 r) (percentile_25 r) = true /\
    Float.leb (percentile_25 r) (percentile_75 r) = true /\
    Float.leb (percentile_75 r) (percentile_95 r) = true.
Proof.
  intros Hc Hb Ha Lc _ Hn. unfold calculate_monte_carlo_simulation.
  destruct (simulate_spec normal df cs bq aq Hc Hb Ha Lc n 0 [])
    as (rs & Hs & Hl & Hf); [constructor|].
  simpl in Hl. rewrite Hs, bind_ok.
  destruct (finite_list rs) as [ql ->].
  { eapply Forall_impl; [exact Hf|]. by intros t [Ft _]. }
  rewrite length_fmap in Hl.
  rewrite !percentile_finite by lia. rewrite !bind_ok.
  eexists. split; [reflexivity|]. cbn [all_results percentile_5 percentile_25
                                       percentile_75 percentile_95].
  split; [by rewrite length_fmap|].
  split; [eapply Forall_impl; [exact Hf|]; by intros t [_ Ht]|].
  repeat split; apply percentile_order; try lia; by vm_compute.
Qed.

(** C9 (as stated, refuted): with no trial the array of results is empty,
    [np.percentile] rejects it, and the simulation returns nothing. *)
Lemma monte_carlo_without_trials_raises :
  (0 < nrows sample_frame)%nat /\
  calculate_monte_carlo_simulation (fun _ => 75) (fun x => x) sample_frame 0
  = Raise IndexError.
Proof. split; [vm_compute; lia | vm_compute; reflexivity]. Qed.

Lemma monte_carlo_results_and_percentiles_witness :
  exists r,
    calculate_monte_carlo_simulation
      (fun k => inject_Z (Z.of_nat (50 + 10 * k))) (fun x => x) sample_frame 3 = Ok r /\
    length (all_results r) = 3%nat /\
    Float.leb (percentile_5 r) (percentile_95 r) = true.
Proof.
  destruct (monte_carlo_results_and_percentiles
              (fun k => inject_Z (Z.of_nat (50 + 10 * k))) (fun x => x) sample_frame
              [VStr "Administration"; VStr "Income"; VStr "Administration"]
              [42134; 40000; 900] [19577; 14571; 0] 3
              eq_refl eq_refl eq_refl eq_refl ltac:(simpl; lia) ltac:(lia))
    as (r & Hr & Hl & _ & _). exists r. split; [exact Hr|]. split; [exact Hl|].
  vm_compute in Hr. injection Hr as <-. reflexivity.
Defined.


(** ** Empty input *)

Lemma rows_without_index df : nrows df = 0%nat -> rows df = [].
Proof. unfold rows. by intros ->. Qed.

(** C7 (as stated, refuted): the empty frame [pd.DataFrame()] is an empty
    dataset, and [calculate_risk_assessment] raises on it: the frame has
    no budget column to read. *)
Lemma risk_assessment_raises_on_empty_frame :
  empty empty_frame = true /\
  calculate_risk_assessment empty_frame = Raise (KeyError "budget").
Proof. split; reflexivity. Qed.

(** C7 (amended): [get_summary_statistics] returns the empty dictionary
    for every empty frame; [generate_cash_flow_projection] returns the
    empty frame for every frame without rows; [calculate_risk_assessment]
    has no guard of its own and raises [KeyError] on the empty frame
    [pd.DataFrame()]; the guard is in its caller [get_risk_analysis], which
    returns the empty frame for every empty frame. *)
Theorem aggregations_on_empty_input :
  (forall df, empty df = true -> Csv.get_summary_statistics df = Ok ∅) /\
  (forall df months_ahead,
     nrows df = 0%nat ->
     generate_cash_flow_projection df months_ahead = Ok empty_frame) /\
  calculate_risk_assessment empty_frame = Raise (KeyError "budget") /\
  (forall df, empty df = true -> DataAccess.get_risk_analysis df = Ok empty_frame).
Proof.
  split; [|split; [|split]].
  - intros df H. unfold Csv.get_summary_statistics. by rewrite H.
  - intros df months_ahead H. unfold generate_cash_flow_projection.
    by rewrite (rows_without_index df H).
  - reflexivity.
  - intros df H. unfold DataAccess.get_risk_analysis. by rewrite H.
Qed.

Lemma aggregations_on_empty_input_witness :
  Csv.get_summary_statistics empty_frame = Ok ∅ /\
  generate_cash_flow_projection empty_frame 12 = Ok empty_frame /\
  DataAccess.get_risk_analysis empty_frame = Ok empty_frame.
Proof.
  destruct aggregations_on_empty_input as (H1 & H2 & _ & H4).
  split; [|split].
  - apply H1. reflexivity.
  - apply H2. reflexivity.
  - apply H4. reflexivity.
Defined.

Lemma missing_essential_rejects_upload_witness :
  fst (Csv.process_csv foo_bar_upload) = empty_frame /\
  st_write ["**Missing required columns:**"; "description, budget, actual"]
    ∈ snd (Csv.process_csv foo_bar_upload).
Proof.
  destruct (missing_essential_rejects_upload foo_bar_upload) as (_ & H & _).
  apply H. exists "description". split.
  - apply (bool_decide_unpack _). vm_compute. exact I.
  - apply (bool_decide_unpack _). vm_compute. exact I.
Defined.

Lemma reconcile_canonical_is_noop_witness :
  fst (Csv.process_csv (fst (Csv.process_csv canonical_upload)))
  = fst (Csv.process_csv canonical_upload).
Proof.
  apply reconcile_canonical_is_noop.
  - apply Forall_forall. apply (bool_decide_unpack _). vm_compute. exact I.
  - apply Forall_forall. apply (bool_decide_unpack _). vm_compute. exact I.
Defined.

(** * Further properties *)


(** ** What the engine leaves alone *)

Ltac bind_inv H :=
  repeat match type of H with
         | (?m ≫= _) = Ok _ =>
             let E := fresh "E" in
             destruct m eqn:E; [rewrite bind_ok in H | discriminate H]
         end.

Ltac not_in_names H :=
  let E := fresh in
  intros E; apply H; rewrite E, !elem_of_cons; auto 10.

Lemma calculate_risk_assessment_keeps df out :
  calculate_risk_assessment df = Ok out ->
  nrows out = nrows df /\
  (forall c, c ∈ columns df -> c ∈ columns out) /\
  (forall c, c ∉ ["variance_pct"; "risk_category"; "risk_score"] ->
             getitem out c = getitem df c).
Proof.
  unfold calculate_risk_assessment. intros H. bind_inv H. injection H as <-.
  split; [by rewrite !nrows_setitem|]. split.
  - intros c Hc. do 3 (apply columns_setitem; right). exact Hc.
  - intros c Hc. rewrite !getitem_setitem_ne; [done| | |]; not_in_names Hc.
Qed.

Lemma apply_probability_scenario_keeps df probabilities out :
  apply_probability_scenario df probabilities = Ok out ->
  nrows out = nrows df /\
  (forall c, c ∈ columns df -> c ∈ columns out) /\
  (forall c, c ∉ ["probability_factor"; "remaining_budget"; "projected_remaining";
                  "projected_total"; "projected_variance"] ->
             getitem out c = getitem df c).
Proof.
  unfold apply_probability_scenario. intros H. bind_inv H. injection H as <-.
  split; [by rewrite !nrows_setitem|]. split.
  - intros c Hc. do 5 (apply columns_setitem; right). exact Hc.
  - intros c Hc. rewrite !getitem_setitem_ne; [done| | | | |]; not_in_names Hc.
Qed.

(** X1: [calculate_risk_assessment] works on a copy and only adds to it.
    Whenever it returns, on a frame with distinct column names, the result
    has the rows and every column of the dataset, and every column other
    than variance_pct, risk_category and risk_score reads as it did
    before. *)
Theorem risk_assessment_keeps_the_dataset df out :
  NoDup (columns df) ->
  calculate_risk_assessment df = Ok out ->
  nrows out = nrows df /\
  (forall c, c ∈ columns df -> c ∈ columns out) /\
  (forall c, c ∉ ["variance_pct"; "risk_category"; "risk_score"] ->
             getitem out c = getitem df c).
Proof. intros _. apply calculate_risk_assessment_keeps. Qed.

Lemma risk_assessment_keeps_the_dataset_witness :
  exists out,
    calculate_risk_assessment sample_frame = Ok out /\
    nrows out = nrows sample_frame /\
    getitem out "description" = getitem sample_frame "description".
Proof.
  destruct (calculate_risk_assessment sample_frame) as [out|e] eqn:E;
    [|vm_compute in E; discriminate E].
  exists out. split; [reflexivity|].
  destruct (risk_assessment_keeps_the_dataset sample_frame out) as (H1 & _ & H3).
  - apply (bool_decide_unpack _). vm_compute. exact I.
  - exact E.
  - split; [exact H1|]. apply H3. apply (bool_decide_unpack _). vm_compute. exact I.
Defined.

(** X2: [apply_probability_scenario] works on a copy and only adds to
    it.  Whenever it returns, on a frame with distinct column names, the
    result has the rows and every column of the dataset, and every column
    other than its five derived ones (probability_factor,
    remaining_budget, projected_remaining, projected_total,
    projected_variance) reads as it did before. *)
Theorem probability_scenario_keeps_the_dataset df probabilities out :
  NoDup (columns df) ->
  apply_probability_scenario df probabilities = Ok out ->
  nrows out = nrows df /\
  (forall c, c ∈ columns df -> c ∈ columns out) /\
  (forall c, c ∉ ["probability_factor"; "remaining_budget"; "projected_remaining";
                  "projected_total"; "projected_variance"] ->
             getitem out c = getitem df c).
Proof. intros _. apply apply_probability_scenario_keeps. Qed.

Lemma probability_scenario_keeps_the_dataset_witness :
  exists out,
    apply_probability_scenario sample_frame (<["Administration" := Fin 80]> ∅) = Ok out /\
    nrows out = nrows sample_frame /\
    getitem out "budget" = getitem sample_frame "budget".
Proof.
  destruct (apply_probability_scenario sample_frame (<["Administration" := Fin 80]> ∅))
    as [out|e] eqn:E; [|vm_compute in E; discriminate E].
  exists out. split; [reflexivity|].
  destruct (probability_scenario_keeps_the_dataset
              sample_frame (<["Administration" := Fin 80]> ∅) out) as (H1 & _ & H3).
  - apply (bool_decide_unpack _). vm_compute. exact I.
  - exact E.
  - split; [exact H1|]. apply H3. apply (bool_decide_unpack _). vm_compute. exact I.
Defined.

(** ** Setting columns *)

Lemma replace_col_replace_col c s s' l :
  replace_col c s' (replace_col c s l) = replace_col c s' l.
Proof.
  induction l as [|[k s0] t IH]; simpl; [done|].
  destruct (String.eqb k c) eqn:E; simpl; rewrite E; [done|]. by rewrite IH.
Qed.

Lemma replace_col_app_new c s s' l :
  c ∉ map fst l -> replace_col c s' (l ++ [(c, s)]) = l ++ [(c, s')].
Proof.
  induction l as [|[k s0] t IH]; simpl.
  - intros _. by rewrite String.eqb_refl.
  - intros H. apply not_elem_of_cons in H as [Hk Ht].
    destruct (String.eqb_spec k c) as [->|_]; [done|]. by rewrite IH.
Qed.

Lemma setitem_setitem_same df c s s' :
  setitem (setitem df c s) c s' = setitem df c s'.
Proof.
  unfold setitem at 1.
  assert (Hin : has_column (setitem df c s) c = true).
  { apply has_column_true, columns_setitem. by left. }
  rewrite Hin. unfold setitem. destruct (has_column df c) eqn:E; cbn [nrows data].
  - by rewrite replace_col_replace_col.
  - apply has_column_false in E. by rewrite replace_col_app_new.
Qed.

Lemma replace_col_comm c c' s s' l :
  c <> c' ->
  replace_col c s (replace_col c' s' l) = replace_col c' s' (replace_col c s l).
Proof.
  intros Hne. induction l as [|[k s0] t IH]; simpl; [done|].
  destruct (String.eqb k c') eqn:E1, (String.eqb k c) eqn:E2; simpl;
    rewrite ?E1, ?E2; try done.
  - apply String.eqb_eq in E1, E2. congruence.
  - by rewrite IH.
Qed.

Lemma replace_col_app c s l l' :
  c ∈ map fst l -> replace_col c s (l ++ l') = replace_col c s l ++ l'.
Proof.
  induction l as [|[k s0] t IH]; simpl.
  - intros H. by apply elem_of_nil in H.
  - intros H. destruct (String.eqb_spec k c) as [->|Hk]; [done|].
    simpl. rewrite IH; [done|]. apply elem_of_cons in H as [->|H]; done.
Qed.

Lemma has_column_setitem_ne df c c' s :
  c <> c' -> has_column (setitem df c s) c' = has_column df c'.
Proof.
  intros Hne. unfold has_column. apply bool_decide_ext.
  rewrite columns_setitem. split; [|by right]. intros [->|H]; done.
Qed.

Lemma setitem_existing df c s :
  c ∈ columns df -> setitem df c s = mkDF (nrows df) (replace_col c s (data df)).
Proof. intros H. unfold setitem. by rewrite (proj2 (has_column_true df c) H). Qed.

Lemma setitem_new df c s :
  c ∉ columns df -> setitem df c s = mkDF (nrows df) (data df ++ [(c, s)]).
Proof. intros H. unfold setitem. by rewrite (proj2 (has_column_false df c) H). Qed.

(** Setting an existing column commutes with setting another one. *)
Lemma setitem_comm df c c' s s' :
  c <> c' -> c ∈ columns df ->
  setitem (setitem df c' s') c s = setitem (setitem df c s) c' s'.
Proof.
  intros Hne Hc.
  rewrite (setitem_existing (setitem df c' s') c)
    by (apply columns_setitem; by right).
  rewrite (setitem_existing df c s Hc).
  destruct (decide (c' ∈ columns df)) as [Hc'|Hc'].
  - rewrite (setitem_existing df c' s' Hc'). cbn [nrows data].
    rewrite setitem_existing
      by (unfold columns; cbn [data]; by rewrite map_fst_replace_col).
    cbn [nrows data]. f_equal. by apply replace_col_comm.
  - rewrite (setitem_new df c' s' Hc'). cbn [nrows data].
    rewrite setitem_new
      by (unfold columns; cbn [data]; by rewrite map_fst_replace_col).
    cbn [nrows data]. f_equal. by apply replace_col_app.
Qed.


Ltac in_set_columns :=
  repeat first [ apply columns_setitem; left; reflexivity
               | apply columns_setitem; right ].

Lemma budget_col_setitem df c s :
  c <> "budget_2025_26" -> budget_col (setitem df c s) = budget_col df.
Proof. intros H. unfold budget_col. by rewrite has_column_setitem_ne. Qed.

Lemma actual_col_setitem df c s :
  c <> "actual_net" -> actual_col (setitem df c s) = actual_col df.
Proof. intros H. unfold actual_col. by rewrite has_column_setitem_ne. Qed.

(** X3: scenarios do not pile up.  On a frame with distinct column
    names, a category column and numeric budget and actual columns,
    applying a scenario to the result of an earlier scenario gives the
    same frame as applying it to the dataset itself: the five derived
    columns are overwritten in place, whatever the two probability maps
    are. *)
Theorem later_scenario_replaces_earlier df p q cs (bf af : list float) :
  NoDup (columns df) ->
  getitem df "category" = Ok cs ->
  getitem df (budget_col df) = Ok (VNum <$> bf) ->
  getitem df (actual_col df) = Ok (VNum <$> af) ->
  length cs = nrows df ->
  exists out,
    apply_probability_scenario df p = Ok out /\
    apply_probability_scenario out q = apply_probability_scenario df q.
Proof.
  intros _ Hc Hb Ha Lc.
  pose proof (apply_probability_scenario_num df p cs bf af Hc Hb Ha Lc) as Ep.
  pose proof (apply_probability_scenario_num df q cs bf af Hc Hb Ha Lc) as Eq.
  cbv zeta in Ep, Eq. eexists. split; [exact Ep|].
  set (out := setitem _ "projected_variance" _) in *.
  assert (Bo : budget_col out = budget_col df).
  { subst out. by rewrite !budget_col_setitem. }
  assert (Ao : actual_col out = actual_col df).
  { subst out. by rewrite !actual_col_setitem. }
  assert (Hco : getitem out "category" = Ok cs).
  { subst out. by rewrite !getitem_setitem_ne. }
  destruct (apply_probability_scenario_keeps df p out Ep) as (_ & _ & K).
  assert (Hbo : getitem out (budget_col out) = Ok (VNum <$> bf)).
  { rewrite Bo, <- Hb.
    apply K.
    destruct (budget_col_cases df) as [->| ->];
      rewrite !elem_of_cons, elem_of_nil; intuition discriminate. }
  assert (Hao : getitem out (actual_col out) = Ok (VNum <$> af)).
  { rewrite Ao, <- Ha.
    apply K.
    destruct (actual_col_cases df) as [->| ->];
      rewrite !elem_of_cons, elem_of_nil; intuition discriminate. }
  assert (Lo : length cs = nrows out).
  { subst out. by rewrite !nrows_setitem. }
  rewrite (apply_probability_scenario_num out q cs bf af Hco Hbo Hao Lo), Eq.
  cbv zeta. f_equal. subst out.
  (* probability_factor *)
  rewrite (setitem_comm _ "probability_factor" "projected_variance") by (done || in_set_columns).
  rewrite (setitem_comm _ "probability_factor" "projected_total") by (done || in_set_columns).
  rewrite (setitem_comm _ "probability_factor" "projected_remaining") by (done || in_set_columns).
  rewrite (setitem_comm _ "probability_factor" "remaining_budget") by (done || in_set_columns).
  rewrite setitem_setitem_same.
  (* remaining_budget *)
  rewrite (setitem_comm _ "remaining_budget" "projected_variance") by (done || in_set_columns).
  rewrite (setitem_comm _ "remaining_budget" "projected_total") by (done || in_set_columns).
  rewrite (setitem_comm _ "remaining_budget" "projected_remaining") by (done || in_set_columns).
  rewrite setitem_setitem_same.
  (* projected_remaining *)
  rewrite (setitem_comm _ "projected_remaining" "projected_variance") by (done || in_set_columns).
  rewrite (setitem_comm _ "projected_remaining" "projected_total") by (done || in_set_columns).
  rewrite setitem_setitem_same.
  (* projected_total *)
  rewrite (setitem_comm _ "projected_total" "projected_variance") by (done || in_set_columns).
  rewrite setitem_setitem_same.
  (* projected_variance *)
  by rewrite setitem_setitem_same.
Qed.

Lemma later_scenario_replaces_earlier_witness :
  exists out,
    apply_probability_scenario sample_frame (<["Administration" := Fin 80]> ∅) = Ok out /\
    apply_probability_scenario out (<["Income" := Fin 50]> ∅)
    = apply_probability_scenario sample_frame (<["Income" := Fin 50]> ∅).
Proof.
  apply (later_scenario_replaces_earlier sample_frame
           (<["Administration" := Fin 80]> ∅) (<["Income" := Fin 50]> ∅)
           [VStr "Administration"; VStr "Income"; VStr "Administration"]
           [Fin 42134; Fin 40000; Fin 900] [Fin 19577; Fin 14571; Fin 0]).
  - apply (bool_decide_unpack _). vm_compute. exact I.
  - reflexivity.
  - reflexivity.
  - reflexivity.
  - reflexivity.
Defined.


(** ** Projections between actual and budget *)

Lemma factor_of_percent (probabilities : gmap string float) c :
  (forall k v, probabilities !! k = Some v -> exists q, v = Fin q /\ 0 <= q /\ q <= 100) ->
  exists f, factor_of probabilities c = Fin f /\ 0 <= f /\ f <= 1.
Proof.
  intros H. unfold factor_of.
  assert (F : exists q, probabilities_get probabilities c = Fin q /\ 0 <= q /\ q <= 100).
  { destruct c as [x|s]; simpl; [exists 100; split; [done|lra]|].
    destruct (probabilities !! s) as [v|] eqn:E; simpl; [by apply (H s)|].
    exists 100. split; [done|lra]. }
  destruct F as (q & -> & H1 & H2). unfold Float.div, Float.is_zero.
  replace (Qeq_bool 100 0) with false by reflexivity.
  exists (q / 100). split; [done|].
  assert (E : q / 100 == q * (1 # 100)) by reflexivity. rewrite E. split; lra.
Qed.

(** X21: in exact arithmetic, a projection stays between actual and
    budget.  On a frame with distinct column names, a category column and
    numeric budget and actual columns, under a scenario whose
    probabilities all lie between 0 and 100, every row with finite actual
    <= budget gets, all three in exact arithmetic, actual <=
    projected_total <= budget, projected_variance >= 0 and
    projected_total + projected_variance = budget.  (In binary64 each
    bound can be missed by a rounding residue.) *)
Theorem projection_stays_between_actual_and_budget
    df probabilities cs (bf af : list float) :
  NoDup (columns df) ->
  getitem df "category" = Ok cs ->
  getitem df (budget_col df) = Ok (VNum <$> bf) ->
  getitem df (actual_col df) = Ok (VNum <$> af) ->
  length cs = nrows df ->
  (forall k v, probabilities !! k = Some v ->
     exists q, v = Fin q /\ 0 <= q /\ q <= 100) ->
  exists out,
    apply_probability_scenario df probabilities = Ok out /\
    forall i category (budget actual : Q),
      cs !! i = Some category -> bf !! i = Some (Fin budget) ->
      af !! i = Some (Fin actual) -> actual <= budget ->
      exists projected_total projected_variance : Q,
        cell_at out "projected_total" i = Some (VNum (Fin projected_total)) /\
        cell_at out "projected_variance" i = Some (VNum (Fin projected_variance)) /\
        actual <= projected_total /\ projected_total <= budget /\
        0 <= projected_variance /\
        projected_total + projected_variance == budget.
Proof.
  intros _ Hc Hb Ha Lc Hp. eexists. split.
  { by apply apply_probability_scenario_num. }
  intros i category b a Hci Hbi Hai Hab.
  repeat first [ rewrite cell_at_setitem_eq
               | rewrite cell_at_setitem_ne by discriminate ].
  rewrite !list_lookup_fmap, !lookup_zip_with, !list_lookup_fmap, Hci, Hbi, Hai.
  cbn [mbind option_bind fmap option_fmap option_map].
  destruct (factor_of_percent probabilities category Hp) as (f & -> & Hf0 & Hf1).
  cbn [Float.sub Float.neg Float.add Float.mul].
  eexists _, _. split; [reflexivity|]. split; [reflexivity|].
  repeat split; nra.
Qed.

Lemma projection_stays_between_actual_and_budget_witness :
  exists out projected_total,
    apply_probability_scenario sample_frame (<["Administration" := Fin 80]> ∅) = Ok out /\
    cell_at out "projected_total" 0 = Some (VNum (Fin projected_total)) /\
    19577 <= projected_total /\ projected_total <= 42134.
Proof.
  destruct (projection_stays_between_actual_and_budget sample_frame
              (<["Administration" := Fin 80]> ∅)
              [VStr "Administration"; VStr "Income"; VStr "Administration"]
              [Fin 42134; Fin 40000; Fin 900] [Fin 19577; Fin 14571; Fin 0])
    as (out & E & H).
  - apply (bool_decide_unpack _). vm_compute. exact I.
  - reflexivity.
  - reflexivity.
  - reflexivity.
  - reflexivity.
  - intros k v Hl. apply lookup_insert_Some in Hl as [[_ <-]|[_ Hl]].
    + exists 80. split; [reflexivity|]. split; by vm_compute.
    + by rewrite lookup_empty in Hl.
  - destruct (H 0%nat (VStr "Administration") 42134 19577 eq_refl eq_refl eq_refl)
      as (pt & pv & H1 & _ & H3 & H4 & _); [by vm_compute|].
    by exists out, pt.
Defined.

(** ** Risk and scenario together *)

Ltac getitem_through :=
  repeat first
    [ rewrite getitem_setitem_eq
    | rewrite getitem_setitem_ne by first [discriminate | congruence] ].

(** X23: the risk assessment and a scenario do not disturb each other.
    On a frame with distinct column names, a category column and numeric
    budget and actual columns, both analyses return, each can be run on
    the other's result, and the two orders give the same columns: every
    column reads the same in both results, the three risk columns are
    those of the risk assessment alone, and the five projection columns
    are those of the scenario alone. *)
Theorem risk_and_scenario_are_independent
    df probabilities cs (bf af : list float) :
  NoDup (columns df) ->
  getitem df "category" = Ok cs ->
  getitem df (budget_col df) = Ok (VNum <$> bf) ->
  getitem df (actual_col df) = Ok (VNum <$> af) ->
  length cs = nrows df -> length bf = nrows df -> length af = nrows df ->
  exists risk scenario risk_then_scenario scenario_then_risk,
    calculate_risk_assessment df = Ok risk /\
    apply_probability_scenario df probabilities = Ok scenario /\
    apply_probability_scenario risk probabilities = Ok risk_then_scenario /\
    calculate_risk_assessment scenario = Ok scenario_then_risk /\
    nrows risk_then_scenario = nrows scenario_then_risk /\
    (forall c, getitem risk_then_scenario c = getitem scenario_then_risk c) /\
    (forall c, c ∈ ["variance_pct"; "risk_category"; "risk_score"] ->
               getitem scenario_then_risk c = getitem risk c) /\
    (forall c, c ∈ ["probability_factor"; "remaining_budget"; "projected_remaining";
                    "projected_total"; "projected_variance"] ->
               getitem risk_then_scenario c = getitem scenario c).
Proof.
  intros _ Hc Hb Ha Lc Lb La.
  pose proof (calculate_risk_assessment_num df bf af Hb Ha Lb La) as Er.
  pose proof (apply_probability_scenario_num df probabilities cs bf af Hc Hb Ha Lc) as Es.
  cbv zeta in Er, Es.
  set (risk := setitem _ "risk_score" _) in Er.
  set (scenario := setitem _ "projected_variance" _) in Es.
  assert (Nb : forall c, c ∈ ["variance_pct"; "risk_category"; "risk_score";
                              "probability_factor"; "remaining_budget";
                              "projected_remaining"; "projected_total";
                              "projected_variance"] -> c <> budget_col df).
  { intros c Hin E. destruct (budget_col_cases df) as [H|H]; rewrite H in E; subst c;
      revert Hin; rewrite !elem_of_cons, elem_of_nil; intuition discriminate. }
  assert (Na : forall c, c ∈ ["variance_pct"; "risk_category"; "risk_score";
                              "probability_factor"; "remaining_budget";
                              "projected_remaining"; "projected_total";
                              "projected_variance"] -> c <> actual_col df).
  { intros c Hin E. destruct (actual_col_cases df) as [H|H]; rewrite H in E; subst c;
      revert Hin; rewrite !elem_of_cons, elem_of_nil; intuition discriminate. }
  (* the scenario on the risk table *)
  assert (Hcr : getitem risk "category" = Ok cs).
  { subst risk. by rewrite !getitem_setitem_ne. }
  assert (Hbr : getitem risk (budget_col risk) = Ok (VNum <$> bf)).
  { subst risk. rewrite !budget_col_setitem by discriminate.
    rewrite !getitem_setitem_ne by (apply Nb; rewrite !elem_of_cons; auto 10).
    exact Hb. }
  assert (Har : getitem risk (actual_col risk) = Ok (VNum <$> af)).
  { subst risk. rewrite !actual_col_setitem by discriminate.
    rewrite !getitem_setitem_ne by (apply Na; rewrite !elem_of_cons; auto 10).
    exact Ha. }
  assert (Lr : length cs = nrows risk).
  { subst risk. by rewrite !nrows_setitem. }
  pose proof (apply_probability_scenario_num risk probabilities cs bf af Hcr Hbr Har Lr)
    as Ers.
  (* the risk on the scenario table *)
  assert (Hbs : getitem scenario (budget_col scenario) = Ok (VNum <$> bf)).
  { subst scenario. rewrite !budget_col_setitem by discriminate.
    rewrite !getitem_setitem_ne by (apply Nb; rewrite !elem_of_cons; auto 10).
    exact Hb. }
  assert (Has : getitem scenario (actual_col scenario) = Ok (VNum <$> af)).
  { subst scenario. rewrite !actual_col_setitem by discriminate.
    rewrite !getitem_setitem_ne by (apply Na; rewrite !elem_of_cons; auto 10).
    exact Ha. }
  assert (Lbs : length bf = nrows scenario).
  { subst scenario. by rewrite !nrows_setitem. }
  assert (Las : length af = nrows scenario).
  { subst scenario. by rewrite !nrows_setitem. }
  pose proof (calculate_risk_assessment_num scenario bf af Hbs Has Lbs Las) as Esr.
  clear Hcr Hbr Har Lr Hbs Has Lbs Las.
  cbv zeta in Ers, Esr.
  eexists _, _, _, _. split; [exact Er|]. split; [exact Es|].
  split; [exact Ers|]. split; [exact Esr|].
  subst risk scenario.
  split; [by rewrite !nrows_setitem|].
  split; [|split].
  - intros c.
    destruct (decide (c = "projected_variance")) as [->|N1]; [by getitem_through|].
    destruct (decide (c = "projected_total")) as [->|N2]; [by getitem_through|].
    destruct (decide (c = "projected_remaining")) as [->|N3]; [by getitem_through|].
    destruct (decide (c = "remaining_budget")) as [->|N4]; [by getitem_through|].
    destruct (decide (c = "probability_factor")) as [->|N5]; [by getitem_through|].
    destruct (decide (c = "risk_score")) as [->|N6]; [by getitem_through|].
    destruct (decide (c = "risk_category")) as [->|N7]; [by getitem_through|].
    destruct (decide (c = "variance_pct")) as [->|N8]; [by getitem_through|].
    by getitem_through.
  - intros c. rewrite !elem_of_cons, elem_of_nil.
    intros [->|[->|[->|[]]]]; by getitem_through.
  - intros c. rewrite !elem_of_cons, elem_of_nil.
    intros [->|[->|[->|[->|[->|[]]]]]]; by getitem_through.
Qed.

Lemma risk_and_scenario_are_independent_witness :
  exists risk scenario risk_then_scenario scenario_then_risk,
    calculate_risk_assessment sample_frame = Ok risk /\
    apply_probability_scenario sample_frame (<["Income" := Fin 50]> ∅) = Ok scenario /\
    apply_probability_scenario risk (<["Income" := Fin 50]> ∅) = Ok risk_then_scenario /\
    calculate_risk_assessment scenario = Ok scenario_then_risk /\
    getitem risk_then_scenario "risk_score" = getitem scenario_then_risk "risk_score".
Proof.
  destruct (risk_and_scenario_are_independent sample_frame (<["Income" := Fin 50]> ∅)
              [VStr "Administration"; VStr "Income"; VStr "Administration"]
              [Fin 42134; Fin 40000; Fin 900] [Fin 19577; Fin 14571; Fin 0])
    as (r & s & rs & sr & H1 & H2 & H3 & H4 & _ & H6 & _).
  - apply (bool_decide_unpack _). vm_compute. exact I.
  - reflexivity.
  - reflexivity.
  - reflexivity.
  - reflexivity.
  - reflexivity.
  - reflexivity.
  - exists r, s, rs, sr. split; [exact H1|]. split; [exact H2|].
    split; [exact H3|]. split; [exact H4|]. apply H6.
Defined.

(** ** Risk scores *)

Lemma variance_pct_of_not_nan b a : variance_pct_of b a <> NaN.
Proof. unfold variance_pct_of, fill_zero. by destruct (Float.mul _ _). Qed.

Lemma risk_score_of_range v :
  v <> NaN -> exists s, risk_score_of v = Fin s /\ 0 <= s /\ s <= 100.
Proof.
  intros Hv. unfold risk_score_of, Float.clip, Float.maximum, Float.minimum.
  destruct v as [q| | |]; try done; cbn [Float.abs Float.mul Float.isnan orb].
  - cbn [Float.leb]. destruct (Qle_bool (Qabs q * 2) 0) eqn:E0.
    + exists 0. cbn. split; [done|]. split; lra.
    + cbn [Float.isnan orb Float.leb].
      assert (H0 : ~ Qabs q * 2 <= 0) by (rewrite <- Qle_bool_iff; congruence).
      destruct (Qle_bool (Qabs q * 2) 100) eqn:E1.
      * apply Qle_bool_iff in E1. eexists. split; [done|]. split; lra.
      * exists 100. split; [done|]. split; lra.
  - exists 100. split; [reflexivity|]. split; lra.
  - exists 100. split; [reflexivity|]. split; lra.
Qed.

(** X4: every risk score lies between 0 and 100.  On a frame with
    distinct column names and numeric budget and actual columns,
    [calculate_risk_assessment] returns, and the risk_score of every row
    is a finite number between 0 and 100, also where budget or actual is
    zero, infinite or NaN. *)
Theorem risk_score_between_0_and_100 df (bf af : list float) :
  NoDup (columns df) ->
  getitem df (budget_col df) = Ok (VNum <$> bf) ->
  getitem df (actual_col df) = Ok (VNum <$> af) ->
  length bf = nrows df -> length af = nrows df ->
  exists out,
    calculate_risk_assessment df = Ok out /\
    forall i, (i < nrows df)%nat ->
      exists s, cell_at out "risk_score" i = Some (VNum (Fin s)) /\ 0 <= s /\ s <= 100.
Proof.
  intros _ Hb Ha Lb La. eexists. split.
  { by apply calculate_risk_assessment_num. }
  intros i Hi. rewrite cell_at_setitem_eq.
  destruct (lookup_lt_is_Some_2 bf i) as [b Hbi]; [lia|].
  destruct (lookup_lt_is_Some_2 af i) as [a Hai]; [lia|].
  rewrite !list_lookup_fmap, lookup_zip_with, Hbi, Hai.
  cbn [mbind option_bind fmap option_fmap option_map].
  destruct (risk_score_of_range _ (variance_pct_of_not_nan b a)) as (s & -> & Hs).
  by exists s.
Qed.

Lemma risk_score_between_0_and_100_witness :
  exists out s,
    calculate_risk_assessment zero_budget_frame = Ok out /\
    cell_at out "risk_score" 0 = Some (VNum (Fin s)) /\ 0 <= s /\ s <= 100.
Proof.
  destruct (risk_score_between_0_and_100 zero_budget_frame [Fin 0] [Fin 5])
    as (out & E & H).
  - apply (bool_decide_unpack _). vm_compute. exact I.
  - reflexivity.
  - reflexivity.
  - reflexivity.
  - reflexivity.
  - destruct (H 0%nat) as (s & Hs); [simpl; lia|]. by exists out, s.
Defined.

Lemma risk_score_of_finite (v : Q) :
  exists s, risk_score_of (Fin v) = Fin s /\
            ((Qabs v * 2 <= 100 /\ s == Qabs v * 2) \/ (100 < Qabs v * 2 /\ s == 100)).
Proof.
  unfold risk_score_of, Float.clip, Float.maximum, Float.minimum.
  cbn [Float.abs Float.mul Float.isnan orb Float.leb].
  pose proof (Qabs_nonneg v) as Hn.
  destruct (Qle_bool (Qabs v * 2) 0) eqn:E0.
  - apply Qle_bool_iff in E0. exists 0. split; [done|]. left. split; lra.
  - cbn [Float.isnan orb Float.leb].
    destruct (Qle_bool (Qabs v * 2) 100) eqn:E1.
    + apply Qle_bool_iff in E1. eexists. split; [done|]. left. split; [done|reflexivity].
    + assert (~ Qabs v * 2 <= 100) by (rewrite <- Qle_bool_iff; congruence).
      exists 100. split; [done|]. right. split; [lra|reflexivity].
Qed.

(** X5: the risk label and the risk score of a row agree.  For a row
    with finite budget and actual, of a frame with distinct column names:
    when budget is not 0 the label is Low Risk exactly when the score is
    at most 10, Medium Risk when it is above 10 and at most 30, High Risk
    above 30 and at most 60, and Critical Risk above 60 (the score is
    twice the absolute variance percentage, capped at 100); when budget
    is 0 the label is No Budget and the score is 0 if actual is 0 and 100
    otherwise. *)
Theorem risk_label_matches_score df (bf af : list float) :
  NoDup (columns df) ->
  getitem df (budget_col df) = Ok (VNum <$> bf) ->
  getitem df (actual_col df) = Ok (VNum <$> af) ->
  length bf = nrows df -> length af = nrows df ->
  exists out,
    calculate_risk_assessment df = Ok out /\
    forall i (b a : Q),
      bf !! i = Some (Fin b) -> af !! i = Some (Fin a) ->
      exists label s,
        cell_at out "risk_category" i = Some (VStr label) /\
        cell_at out "risk_score" i = Some (VNum (Fin s)) /\
        (~ b == 0 ->
           (label = "Low Risk" <-> s <= 10) /\
           (label = "Medium Risk" <-> 10 < s /\ s <= 30) /\
           (label = "High Risk" <-> 30 < s /\ s <= 60) /\
           (label = "Critical Risk" <-> 60 < s)) /\
        (b == 0 -> label = "No Budget" /\
                   (a == 0 -> s == 0) /\ (~ a == 0 -> s == 100)).
Proof.
  intros _ Hb Ha Lb La. eexists. split.
  { by apply calculate_risk_assessment_num. }
  intros i b a Hbi Hai.
  rewrite cell_at_setitem_ne by discriminate.
  rewrite !cell_at_setitem_eq.
  rewrite !list_lookup_fmap, !lookup_zip_with, Hbi, Hai.
  cbn [mbind option_bind fmap option_fmap option_map].
  destruct (Qeq_bool b 0) eqn:Eb.
  - apply Qeq_bool_iff in Eb.
    assert (Hl : risk_category_of (variance_pct_of (Fin b) (Fin a)) (Fin b) = "No Budget").
    { unfold risk_category_of, Float.eqb. by rewrite (proj2 (Qeq_bool_iff b 0) Eb). }
    rewrite Hl.
    assert (Hv : variance_pct_of (Fin b) (Fin a)
                 = if Qeq_bool (b + - a) 0 then Fin 0
                   else if negb (Qle_bool 0 (b + - a)) then NInf else PInf).
    { unfold variance_pct_of, Float.sub, Float.neg, Float.add, Float.div, Float.is_zero,
        Float.is_neg. rewrite (proj2 (Qeq_bool_iff b 0) Eb).
      destruct (Qeq_bool (b + - a) 0); [done|].
      by destruct (negb (Qle_bool 0 (b + - a))). }
    rewrite Hv. destruct (Qeq_bool (b + - a) 0) eqn:Ez.
    + apply Qeq_bool_iff in Ez. exists "No Budget", 0.
      split; [done|]. split; [done|].
      split; [intros Hn; contradiction|]. intros _. split; [done|].
      split; [reflexivity|]. intros Hn. exfalso. apply Hn. lra.
    + apply Qeq_bool_neq in Ez.
      exists "No Budget", 100.
      split; [done|]. split; [by destruct (negb _)|].
      split; [intros Hn; contradiction|]. intros _. split; [done|].
      split; [intros Hz; exfalso; apply Ez; lra | reflexivity].
  - pose proof Eb as Ebb. apply Qeq_bool_neq in Eb.
    rewrite variance_pct_of_finite by done.
    set (v := (b + - a) / b * 100).
    destruct (risk_score_of_finite v) as (s & -> & Hs).
    eexists _, s. split; [reflexivity|]. split; [reflexivity|].
    split; [|intros H; contradiction]. intros _.
    unfold risk_category_of, Float.eqb, Float.abs, Float.leb.
    rewrite Ebb.
    assert (L : forall k, Qle_bool (Qabs v) k = true <-> Qabs v <= k)
      by (intros; apply Qle_bool_iff).
    destruct (Qle_bool (Qabs v) 5) eqn:E5.
    { apply L in E5. repeat split; try done; try (intros; lra);
        intros [? ?]; try lra; intros; lra. }
    assert (~ Qabs v <= 5) by (rewrite <- L; congruence).
    destruct (Qle_bool (Qabs v) 15) eqn:E15.
    { apply L in E15. repeat split; try done; try lra; intros; try done; lra. }
    assert (~ Qabs v <= 15) by (rewrite <- L; congruence).
    destruct (Qle_bool (Qabs v) 30) eqn:E30.
    { apply L in E30. repeat split; try done; try lra; intros; try done; lra. }
    assert (~ Qabs v <= 30) by (rewrite <- L; congruence).
    repeat split; try done; try lra; intros; try done; lra.
Qed.

Lemma risk_label_matches_score_witness :
  exists out label s,
    calculate_risk_assessment sample_frame = Ok out /\
    cell_at out "risk_category" 2 = Some (VStr label) /\
    cell_at out "risk_score" 2 = Some (VNum (Fin s)) /\
    (label = "Critical Risk" <-> 60 < s).
Proof.
  destruct (risk_label_matches_score sample_frame
              [Fin 42134; Fin 40000; Fin 900] [Fin 19577; Fin 14571; Fin 0])
    as (out & E & H).
  - apply (bool_decide_unpack _). vm_compute. exact I.
  - reflexivity.
  - reflexivity.
  - reflexivity.
  - reflexivity.
  - destruct (H 2%nat 900 0 eq_refl eq_refl) as (label & s & H1 & H2 & H3 & _).
    exists out, label, s. split; [exact E|]. split; [exact H1|]. split; [exact H2|].
    apply H3. by vm_compute.
Defined.


(** ** Sums *)

Lemma series_sum_from a (l : list Q) :
  foldl (fun acc v =>
           a ← acc;
           match v with
           | VNum NaN => Ok a
           | VNum x => Ok (Float.add a x)
           | VStr _ => Raise TypeError
           end) (Ok (Fin a)) (VNum <$> (Fin <$> l))
  = Ok (Fin (foldl Qplus a l)).
Proof.
  revert a. induction l as [|x l IH]; intros a; [done|].
  rewrite !fmap_cons. cbn [foldl]. rewrite bind_ok. cbn [Float.add]. apply IH.
Qed.

Lemma series_sum_rationals (l : list Q) :
  series_sum (VNum <$> (Fin <$> l)) = Ok (Fin (sum_rationals l)).
Proof. apply series_sum_from. Qed.

Lemma foldl_Qplus a (l : list Q) : foldl Qplus a l == a + sum_rationals l.
Proof.
  unfold sum_rationals. revert a. induction l as [|x l IH]; intros a; simpl.
  - lra.
  - rewrite (IH (a + x)), (IH (0 + x)). lra.
Qed.

Lemma sum_rationals_cons x l : sum_rationals (x :: l) == x + sum_rationals l.
Proof. unfold sum_rationals at 1. simpl. rewrite foldl_Qplus. lra. Qed.

Lemma select_rationals_num t label (l : list Q) :
  select t label (VNum <$> (Fin <$> l)) = VNum <$> (Fin <$> select_rationals t label l).
Proof.
  unfold select, select_rationals. revert l.
  induction t as [|v t IH]; intros [|x l]; try done.
  rewrite !fmap_cons. cbn [zip zip_with List.filter fst].
  destruct (is_label label v); cbn [map snd]; rewrite IH; done.
Qed.

Lemma sum_rationals_partition (t : list value) (l : list Q) :
  Forall (fun v => v = VStr "Income" \/ v = VStr "Expenditure") t ->
  length t = length l ->
  sum_rationals (select_rationals t "Income" l)
  + sum_rationals (select_rationals t "Expenditure" l) == sum_rationals l.
Proof.
  intros Ht. revert l. induction Ht as [|v t Hv Ht IH]; intros [|x l] Hl; try done.
  simpl in Hl. specialize (IH l ltac:(lia)).
  unfold select_rationals in *. cbn [zip zip_with List.filter fst].
  destruct Hv as [-> | ->]; cbn [is_label String.eqb Ascii.eqb Bool.eqb andb map snd];
    rewrite !sum_rationals_cons; lra.
Qed.

(** X6: the totals of the summary, in exact arithmetic.  For a non-empty
    frame with distinct column names, finite budget and actual columns
    and a type column, [get_summary_statistics] returns a dictionary in
    which total_budget and total_actual are the sums of the two columns
    and total_variance is their difference; variance_percentage and
    completion_rate are 0 when total_budget is 0, and otherwise
    total_variance / total_budget * 100 and total_actual / total_budget *
    100. *)
Theorem summary_statistics_totals df (t : list value) (bq aq : list Q) :
  NoDup (columns df) ->
  empty df = false ->
  getitem df (budget_col df) = Ok (VNum <$> (Fin <$> bq)) ->
  getitem df (actual_col df) = Ok (VNum <$> (Fin <$> aq)) ->
  getitem df "type" = Ok t ->
  let total_budget := sum_rationals bq in
  let total_actual := sum_rationals aq in
  exists stats,
    get_summary_statistics df = Ok stats /\
    stats !! "total_budget" = Some (Fin total_budget) /\
    stats !! "total_actual" = Some (Fin total_actual) /\
    stats !! "total_variance" = Some (Fin (total_budget - total_actual)) /\
    (total_budget == 0 ->
     stats !! "variance_percentage" = Some (Fin 0) /\
     stats !! "completion_rate" = Some (Fin 0)) /\
    (~ total_budget == 0 ->
     stats !! "variance_percentage"
     = Some (Fin ((total_budget - total_actual) / total_budget * 100)) /\
     stats !! "completion_rate" = Some (Fin (total_actual / total_budget * 100))).
Proof.
  intros _ He Hb Ha Ht tb ta. unfold get_summary_statistics. rewrite He.
  repeat first [ rewrite Hb | rewrite Ha | rewrite Ht | rewrite bind_ok
               | rewrite select_rationals_num | rewrite series_sum_rationals ].
  eexists. split; [reflexivity|].
  split; [by rewrite lookup_insert_eq|].
  split; [rewrite lookup_insert_ne by done; by rewrite lookup_insert_eq|].
  split; [do 2 rewrite lookup_insert_ne by done; by rewrite lookup_insert_eq|].
  fold tb ta. unfold guarded_pct, Float.eqb.
  split.
  - intros Hz. apply Qeq_bool_iff in Hz. rewrite Hz. cbn [negb]. split.
    + do 3 rewrite lookup_insert_ne by done. by rewrite lookup_insert_eq.
    + do 8 rewrite lookup_insert_ne by done. by rewrite lookup_insert_eq.
  - intros Hz.
    assert (Ez : Qeq_bool tb 0 = false).
    { destruct (Qeq_bool tb 0) eqn:E; [|done]. apply Qeq_bool_iff in E. contradiction. }
    rewrite Ez. cbn [negb Float.sub Float.neg Float.add Float.div Float.mul].
    unfold Float.is_zero. rewrite Ez. split.
    + do 3 rewrite lookup_insert_ne by done. by rewrite lookup_insert_eq.
    + do 8 rewrite lookup_insert_ne by done. by rewrite lookup_insert_eq.
Qed.

Lemma summary_statistics_totals_witness :
  exists stats,
    get_summary_statistics sample_frame = Ok stats /\
    stats !! "total_budget" = Some (Fin (sum_rationals [42134; 40000; 900])) /\
    stats !! "total_actual" = Some (Fin (sum_rationals [19577; 14571; 0])).
Proof.
  destruct (summary_statistics_totals sample_frame
              [VStr "Expenditure"; VStr "Income"; VStr "Expenditure"]
              [42134; 40000; 900] [19577; 14571; 0])
    as (stats & E & H1 & H2 & _).
  - apply (bool_decide_unpack _). vm_compute. exact I.
  - reflexivity.
  - reflexivity.
  - reflexivity.
  - reflexivity.
  - by exists stats.
Defined.

(** X7: income and expenditure add up to the totals.  For a non-empty
    frame with distinct column names and finite budget and actual
    columns, whose type column holds only the labels Income and
    Expenditure, the summary satisfies, in exact arithmetic,
    income_budget + expense_budget = total_budget and income_actual +
    expense_actual = total_actual. *)
Theorem summary_statistics_income_plus_expenditure df (t : list value) (bq aq : list Q) :
  NoDup (columns df) ->
  empty df = false ->
  getitem df (budget_col df) = Ok (VNum <$> (Fin <$> bq)) ->
  getitem df (actual_col df) = Ok (VNum <$> (Fin <$> aq)) ->
  getitem df "type" = Ok t ->
  length t = length bq -> length t = length aq ->
  Forall (fun v => v = VStr "Income" \/ v = VStr "Expenditure") t ->
  exists stats ib ia eb ea tb ta,
    get_summary_statistics df = Ok stats /\
    stats !! "income_budget" = Some (Fin ib) /\
    stats !! "income_actual" = Some (Fin ia) /\
    stats !! "expense_budget" = Some (Fin eb) /\
    stats !! "expense_actual" = Some (Fin ea) /\
    stats !! "total_budget" = Some (Fin tb) /\
    stats !! "total_actual" = Some (Fin ta) /\
    ib + eb == tb /\ ia + ea == ta.
Proof.
  intros _ He Hb Ha Ht Lb La Hty. unfold get_summary_statistics. rewrite He.
  repeat first [ rewrite Hb | rewrite Ha | rewrite Ht | rewrite bind_ok
               | rewrite select_rationals_num | rewrite series_sum_rationals ].
  eexists _, _, _, _, _, _, _. split; [reflexivity|].
  split; [do 4 rewrite lookup_insert_ne by done; by rewrite lookup_insert_eq|].
  split; [do 5 rewrite lookup_insert_ne by done; by rewrite lookup_insert_eq|].
  split; [do 6 rewrite lookup_insert_ne by done; by rewrite lookup_insert_eq|].
  split; [do 7 rewrite lookup_insert_ne by done; by rewrite lookup_insert_eq|].
  split; [by rewrite lookup_insert_eq|].
  split; [rewrite lookup_insert_ne by done; by rewrite lookup_insert_eq|].
  split; by apply sum_rationals_partition.
Qed.

Lemma summary_statistics_income_plus_expenditure_witness :
  exists stats ib eb tb,
    get_summary_statistics sample_frame = Ok stats /\
    stats !! "income_budget" = Some (Fin ib) /\
    stats !! "expense_budget" = Some (Fin eb) /\
    stats !! "total_budget" = Some (Fin tb) /\
    ib + eb == tb.
Proof.
  destruct (summary_statistics_income_plus_expenditure sample_frame
              [VStr "Expenditure"; VStr "Income"; VStr "Expenditure"]
              [42134; 40000; 900] [19577; 14571; 0])
    as (stats & ib & ia & eb & ea & tb & ta & E & H1 & _ & H3 & _ & H5 & _ & H7 & _).
  - apply (bool_decide_unpack _). vm_compute. exact I.
  - reflexivity.
  - reflexivity.
  - reflexivity.
  - reflexivity.
  - reflexivity.
  - reflexivity.
  - constructor; [by right|]. constructor; [by left|]. constructor; [by right|].
    constructor.
  - by exists stats, ib, eb, tb.
Defined.


(** ** Derived columns of an upload *)

Lemma series_binop_lookup f (b a d : list value) i x y :
  series_binop f b a = Ok d -> b !! i = Some x -> a !! i = Some y ->
  exists fx fy, x = VNum fx /\ y = VNum fy /\ d !! i = Some (VNum (f fx fy)).
Proof.
  unfold series_binop. intros Hd Hx Hy.
  assert (Hz : zip b a !! i = Some (x, y)).
  { rewrite lookup_zip_with, Hx, Hy. done. }
  destruct (traverse_lookup _ _ _ _ _ Hd Hz) as (v & Hv & Hf).
  cbn [fst snd] in Hf. destruct x as [fx|], y as [fy|]; try done.
  injection Hf as <-. by exists fx, fy.
Qed.

Lemma process_csv_accepted df :
  empty (fst (process_csv df)) = false ->
  (forall c, c ∈ essential_cols -> c ∈ columns (mapped df)) /\
  add_derived_columns (mapped df) = Ok (fst (process_csv df)).
Proof.
  rewrite process_csv_unfold. cbv zeta.
  pose proof (_map_csv_columns_fst (normalize_columns df) (columns df)) as Hf.
  cbv zeta in Hf. fold (mapped df) in Hf.
  destruct (_map_csv_columns (normalize_columns df) (columns df)) as [d l].
  cbn [fst snd] in *.
  destruct (missing_from (mapped df) essential_cols) as [|m t] eqn:Em; subst d.
  2:{ intros H. exfalso. revert H. by vm_compute. }
  pose proof (proj1 (missing_from_nil _ _) Em) as Hess.
  destruct (empty (mapped df)) eqn:Ee; cbn [fst]; [congruence|].
  destruct (add_derived_columns (mapped df)) as [out|e] eqn:Ea; cbn [fst].
  - done.
  - intros H. exfalso. revert H. by vm_compute.
Qed.

(** X8: what [process_csv] adds to an upload it accepts.  For an upload
    whose normalised column names are distinct and whose result is not
    empty: every column of the mapped table is returned as it was mapped;
    balance, category and type are columns of the result; when the upload
    brought no balance, the balance of every row is budget - actual in
    exact arithmetic (the difference as a number: the rounding of a
    float64 column and the wrap-around of an int64 column are not
    modelled); when it brought no category, the category of every row is
    General; and when the mapped table has no type, the type of every row
    is Income for a negative budget and Expenditure otherwise. *)
Theorem derived_columns_of_an_accepted_upload (df : DataFrame) :
  let out := fst (process_csv df) in
  NoDup (columns (normalize_columns df)) ->
  empty out = false ->
  (forall c, c ∈ columns (mapped df) -> getitem out c = getitem (mapped df) c) /\
  (forall c, c ∈ ["balance"; "category"; "type"] -> c ∈ columns out) /\
  ("balance" ∉ columns (mapped df) ->
   forall i b a,
     cell_at out "budget" i = Some b -> cell_at out "actual" i = Some a ->
     exists x y, b = VNum x /\ a = VNum y /\
                 cell_at out "balance" i = Some (VNum (Float.sub x y))) /\
  ("category" ∉ columns (mapped df) ->
   forall i, (i < nrows out)%nat -> cell_at out "category" i = Some (VStr "General")) /\
  ("type" ∉ columns (mapped df) ->
   forall i b,
     cell_at out "budget" i = Some b ->
     exists x, b = VNum x /\
       cell_at out "type" i
       = Some (VStr (if Float.ltb x (Fin 0) then "Income" else "Expenditure"))).
Proof.
  intros out _ Hne. destruct (process_csv_accepted df Hne) as [Hess Ha].
  fold out in Ha. clearbody out.
  assert (Hbud : "budget" ∈ columns (mapped df))
    by (apply Hess; unfold essential_cols; rewrite !elem_of_cons; auto).
  assert (Hact : "actual" ∈ columns (mapped df))
    by (apply Hess; unfold essential_cols; rewrite !elem_of_cons; auto).
  unfold add_derived_columns in Ha.
  destruct (add_balance (mapped df)) as [df1|] eqn:Eb; [|done].
  rewrite bind_ok in Ha.
  (* the balance step *)
  assert (B : (forall c, c ∈ columns (mapped df) -> getitem df1 c = getitem (mapped df) c) /\
              "balance" ∈ columns df1 /\ nrows df1 = nrows (mapped df) /\
              (forall c, c ∈ columns df1 -> c = "balance" \/ c ∈ columns (mapped df)) /\
              ("balance" ∉ columns (mapped df) ->
               forall i b a,
                 cell_at df1 "budget" i = Some b -> cell_at df1 "actual" i = Some a ->
                 exists x y, b = VNum x /\ a = VNum y /\
                             cell_at df1 "balance" i = Some (VNum (Float.sub x y)))).
  { unfold add_balance in Eb.
    rewrite (has_column_in _ _ Hbud), (has_column_in _ _ Hact) in Eb.
    destruct (has_column (mapped df) "balance") eqn:Hbal; cbn [negb andb] in Eb.
    - injection Eb as <-. apply has_column_true in Hbal.
      split; [done|]. split; [done|]. split; [done|].
      split; [intros c Hc; by right|]. intros Hn. contradiction.
    - apply has_column_false in Hbal.
      destruct (getitem (mapped df) "budget") as [b|] eqn:Gb; [|done].
      destruct (getitem (mapped df) "actual") as [a|] eqn:Ga; [|done].
      rewrite !bind_ok in Eb.
      destruct (series_binop Float.sub b a) as [d|] eqn:Ed; [|done].
      rewrite bind_ok in Eb. injection Eb as <-.
      split; [|split; [|split; [|split]]].
      + intros c Hc. apply getitem_setitem_ne. intros <-. contradiction.
      + apply columns_setitem. by left.
      + apply nrows_setitem.
      + intros c Hc. by apply columns_setitem in Hc.
      + intros _ i x y. rewrite !cell_at_setitem_ne by discriminate.
        rewrite cell_at_setitem_eq. unfold cell_at. rewrite Gb, Ga.
        intros Hx Hy. by apply (series_binop_lookup Float.sub b a d i). }
  destruct B as (B1 & B2 & B3 & B4 & B5).
  assert (K1 : forall c, c ∈ columns (mapped df) -> c ∈ columns df1).
  { intros c Hc. eapply add_balance_keeps; eauto. }
  assert (Kb := K1 _ Hbud). assert (Ka := K1 _ Hact).
  (* the category step *)
  set (df2 := add_category df1) in *.
  assert (C : (forall c, c ∈ columns df1 -> getitem df2 c = getitem df1 c) /\
              "category" ∈ columns df2 /\ nrows df2 = nrows df1 /\
              (forall c, c ∈ columns df1 -> c ∈ columns df2) /\
              (forall c, c ∈ columns df2 -> c = "category" \/ c ∈ columns df1) /\
              ("category" ∉ columns df1 ->
               forall i, (i < nrows df1)%nat ->
                         cell_at df2 "category" i = Some (VStr "General"))).
  { subst df2. unfold add_category.
    destruct (has_column df1 "category") eqn:Hcat; cbn [negb].
    - apply has_column_true in Hcat.
      split; [done|]. split; [done|]. split; [done|]. split; [done|].
      split; [intros c Hc; by right|]. intros Hn. contradiction.
    - apply has_column_false in Hcat. split; [|split; [|split; [|split; [|split]]]].
      + intros c Hc. apply getitem_setitem_ne. intros <-. contradiction.
      + apply columns_setitem. by left.
      + apply nrows_setitem.
      + intros c Hc. apply columns_setitem. by right.
      + intros c Hc. by apply columns_setitem in Hc.
      + intros _ i Hi. rewrite cell_at_setitem_eq. by apply lookup_replicate_2. }
  destruct C as (C1 & C2 & C3 & C4 & C5 & C6). clearbody df2.
  (* the type step *)
  assert (Hbud2 : has_column df2 "budget" = true) by apply has_column_in, C4, Kb.
  unfold add_type in Ha. rewrite Hbud2 in Ha.
  destruct (has_column df2 "type") eqn:Hty; cbn [negb andb] in Ha.
  - injection Ha as <-. apply has_column_true in Hty.
    split; [intros c Hc; rewrite C1, B1; auto|].
    split.
    { intros c. rewrite !elem_of_cons, elem_of_nil. intros [->|[->|[->|[]]]]; auto. }
    split.
    { intros Hn i b a. unfold cell_at.
      rewrite (C1 "budget"), (C1 "actual"), (C1 "balance") by auto.
      apply (B5 Hn i). }
    split.
    { intros Hn i Hi. apply C6; [|lia]. intros Hc. destruct (B4 _ Hc); done. }
    intros Hn. exfalso. apply Hn.
    destruct (C5 _ Hty) as [?|H1]; [done|]. destruct (B4 _ H1); done.
  - apply has_column_false in Hty.
    destruct (getitem df2 "budget") as [b|] eqn:Gb; [|done]. rewrite bind_ok in Ha.
    destruct (traverse type_of_budget b) as [t|] eqn:Et; [|done].
    rewrite bind_ok in Ha. injection Ha as <-.
    assert (N : forall c, c ∈ columns df2 -> "type" <> c) by (intros c Hc <-; done).
    split.
    { intros c Hc. rewrite getitem_setitem_ne by (apply N; auto).
      rewrite C1, B1; auto. }
    split.
    { intros c. rewrite !elem_of_cons, elem_of_nil.
      intros [->|[->|[->|[]]]]; apply columns_setitem; auto. }
    split.
    { intros Hn i x y.
      rewrite !cell_at_setitem_ne by discriminate. unfold cell_at.
      rewrite (C1 "budget"), (C1 "actual"), (C1 "balance") by auto.
      apply (B5 Hn i). }
    split.
    { intros Hn i. rewrite nrows_setitem, C3. intros Hi.
      rewrite cell_at_setitem_ne by discriminate.
      apply C6; [|done]. intros Hc. destruct (B4 _ Hc); done. }
    intros _ i x. rewrite cell_at_setitem_ne by discriminate.
    rewrite cell_at_setitem_eq. unfold cell_at. rewrite Gb. intros Hx.
    destruct (traverse_lookup _ _ _ _ _ Et Hx) as (y & Hy & Hty').
    destruct x as [bx|s]; [|done]. exists bx. split; [done|].
    injection Hty' as <-. exact Hy.
Qed.

Lemma derived_columns_of_an_accepted_upload_witness :
  cell_at (fst (process_csv typed_upload)) "balance" 0
  = Some (VNum (Float.sub (Fin (-40000)) (Fin (-14571)))) /\
  cell_at (fst (process_csv typed_upload)) "type" 0 = Some (VStr "Income").
Proof.
  destruct (derived_columns_of_an_accepted_upload typed_upload)
    as (_ & _ & Hbal & _ & Hty).
  - apply (bool_decide_unpack _). vm_compute. exact I.
  - reflexivity.
  - split.
    + destruct (Hbal ltac:(apply (bool_decide_unpack _); vm_compute; exact I)
                  0%nat (VNum (Fin (-40000))) (VNum (Fin (-14571))) eq_refl eq_refl)
        as (x & y & [= <-] & [= <-] & H). exact H.
    + destruct (Hty ltac:(apply (bool_decide_unpack _); vm_compute; exact I)
                  0%nat (VNum (Fin (-40000))) eq_refl)
        as (x & [= <-] & H). exact H.
Defined.


(** ** Reconciling twice *)

Lemma map_chars_map_chars f g s :
  Str.map_chars f (Str.map_chars g s) = Str.map_chars (fun c => f (g c)) s.
Proof. induction s as [|c s IH]; simpl; [done|]. by rewrite IH. Qed.

Lemma map_chars_ext f g s :
  (forall c, f c = g c) -> Str.map_chars f s = Str.map_chars g s.
Proof. intros H. induction s as [|c s IH]; simpl; [done|]. by rewrite H, IH. Qed.

Lemma normalize_name_idempotent c :
  normalize_name (normalize_name c) = normalize_name c.
Proof.
  unfold normalize_name, Str.replace_char, Str.lower.
  rewrite !map_chars_map_chars. apply map_chars_ext.
  intros [[] [] [] [] [] [] [] []]; reflexivity.
Qed.

Lemma target_is_normalized t aliases :
  (t, aliases) ∈ column_mappings -> normalize_name t = t.
Proof.
  intros H. apply mapping_target in H. revert H.
  rewrite !elem_of_cons, elem_of_nil.
  intros [->|[->|[->|[->|[->|[->|[]]]]]]]; reflexivity.
Qed.

Lemma mapped_columns_normalized df c :
  c ∈ columns (mapped df) -> normalize_name c = c.
Proof.
  unfold mapped. rewrite columns_rename. intros H.
  apply list_elem_of_fmap in H as (k & -> & Hk).
  destruct (fst (build_column_map _) !! k) as [t|] eqn:E; cbn [default].
  - apply build_column_map_inv in E as (aliases & Hin & _).
    by apply (target_is_normalized t aliases).
  - unfold normalize_columns, columns in Hk. cbn [data] in Hk.
    rewrite map_map in Hk. apply list_elem_of_fmap in Hk as ([c0 s0] & -> & _).
    cbn [fst]. apply normalize_name_idempotent.
Qed.

(** Later turns of the loop keep an entry whose key they do not list. *)
Lemma foldl_map_step_keeps cols (l : list (string * list string)) acc k t :
  fst acc !! k = Some t -> (forall e, e ∈ l -> k ∉ snd e) ->
  fst (foldl (map_step cols) acc l) !! k = Some t.
Proof.
  revert acc. induction l as [|e l IH]; intros acc Hk Hl; simpl; [done|].
  apply IH.
  - apply map_step_keeps; [done|]. apply Hl. left.
  - intros e' He'. apply Hl. by right.
Qed.

Lemma foldl_map_step_hit cols pre e post acc a :
  first_present cols (snd e) = Some a ->
  (forall e', e' ∈ post -> a ∉ snd e') ->
  fst (foldl (map_step cols) acc (pre ++ e :: post)) !! a = Some (fst e).
Proof.
  intros Hfp Hpost. rewrite foldl_app. cbn [foldl].
  apply foldl_map_step_keeps; [|done].
  unfold map_step. rewrite Hfp. cbn [fst]. apply lookup_insert_eq.
Qed.

(** The alias lists do not overlap: an alias of one entry is in no later
    entry. *)
Lemma aliases_disjoint pre e post a :
  column_mappings = pre ++ e :: post -> a ∈ snd e ->
  forall e', e' ∈ post -> a ∉ snd e'.
Proof.
  intros Hsplit Ha.
  assert (D : Forall (fun a => Forall (fun e' => a ∉ snd e') post) (snd e)).
  { revert Hsplit. unfold column_mappings. intros Hsplit.
    do 6 (destruct pre as [|? pre];
          [ simpl in Hsplit; injection Hsplit as <- <-;
            apply (bool_decide_unpack _); vm_compute; exact I
          | simpl in Hsplit; injection Hsplit as <- Hsplit ]).
    by destruct pre. }
  intros e' He'. rewrite Forall_forall in D. specialize (D a Ha).
  rewrite Forall_forall in D. by apply D.
Qed.

Lemma build_column_map_hit cols t aliases a :
  (t, aliases) ∈ column_mappings -> first_present cols aliases = Some a ->
  fst (build_column_map cols) !! a = Some t.
Proof.
  intros Hin Hfp. apply list_elem_of_split in Hin as (pre & post & Hsplit).
  unfold build_column_map. rewrite Hsplit.
  apply (foldl_map_step_hit cols pre (t, aliases) post); [done|].
  apply (aliases_disjoint pre (t, aliases) post a Hsplit).
  by apply first_present_Some in Hfp as [? _].
Qed.

Lemma first_present_exists cols l a :
  a ∈ l -> a ∈ cols -> exists a', first_present cols l = Some a'.
Proof.
  unfold first_present. induction l as [|x l IH]; simpl.
  - by intros H%elem_of_nil.
  - intros H Hc. case_bool_decide as Hx; [by eexists|].
    apply elem_of_cons in H as [->|H]; [done|]. by apply IH.
Qed.

(** Every list of aliases starts with its own target, a target is an alias
    of itself only, and the names of the derived columns are aliases of
    balance and category only. *)
Lemma mapping_head t aliases :
  (t, aliases) ∈ column_mappings -> exists rest, aliases = t :: rest.
Proof.
  unfold column_mappings. rewrite !elem_of_cons, elem_of_nil.
  intros H. repeat destruct H as [H|H]; try done;
    injection H as -> ->; by eexists.
Qed.

Lemma mapping_target_alias t aliases t' aliases' :
  (t, aliases) ∈ column_mappings -> (t', aliases') ∈ column_mappings ->
  t' ∈ aliases -> t' = t.
Proof.
  intros H H' Ha.
  assert (D : Forall (fun e => Forall (fun e' => fst e' ∈ snd e -> fst e' = fst e)
                                      column_mappings) column_mappings)
    by (apply (bool_decide_unpack _); vm_compute; exact I).
  rewrite Forall_forall in D. specialize (D _ H).
  rewrite Forall_forall in D. by apply (D _ H').
Qed.

Lemma mapping_functional t aliases aliases' :
  (t, aliases) ∈ column_mappings -> (t, aliases') ∈ column_mappings ->
  aliases = aliases'.
Proof.
  intros H H'.
  assert (D : Forall (fun e => Forall (fun e' => fst e' = fst e -> snd e' = snd e)
                                      column_mappings) column_mappings)
    by (apply (bool_decide_unpack _); vm_compute; exact I).
  rewrite Forall_forall in D. specialize (D _ H).
  rewrite Forall_forall in D. symmetry. by apply (D _ H').
Qed.

Lemma mapping_derived t aliases a :
  (t, aliases) ∈ column_mappings -> a ∈ aliases ->
  a ∈ ["balance"; "category"; "type"] -> t ∈ ["balance"; "category"].
Proof.
  intros H Ha Hd.
  assert (D : Forall (fun e => Forall (fun a => a ∈ snd e -> fst e ∈ ["balance"; "category"])
                                      ["balance"; "category"; "type"]) column_mappings)
    by (apply (bool_decide_unpack _); vm_compute; exact I).
  rewrite Forall_forall in D. specialize (D _ H).
  rewrite Forall_forall in D. by apply (D _ Hd).
Qed.

(** A set of column names is closed when it holds the target of every
    alias it holds. *)
Lemma mapped_columns_closed df t aliases a :
  (t, aliases) ∈ column_mappings -> a ∈ aliases ->
  a ∈ columns (mapped df) -> t ∈ columns (mapped df).
Proof.
  intros Hin Ha. unfold mapped. cbv zeta. rewrite columns_rename.
  set (cols := columns (normalize_columns df)).
  intros H. apply list_elem_of_fmap in H as (k & -> & Hk).
  destruct (fst (build_column_map cols) !! k) as [t'|] eqn:E; cbn [default] in *.
  - destruct (build_column_map_inv _ _ _ E) as (aliases' & Hin' & _).
    rewrite <- (mapping_target_alias t aliases t' aliases' Hin Hin' Ha).
    apply list_elem_of_fmap. exists k. by rewrite E.
  - destruct (first_present_exists cols aliases k Ha Hk) as [a' Hfp].
    pose proof (build_column_map_hit cols t aliases a' Hin Hfp) as Hm.
    apply first_present_Some in Hfp as [_ Hc].
    apply list_elem_of_fmap. exists a'. by rewrite Hm.
Qed.

Lemma closed_column_map cols :
  (forall t aliases a, (t, aliases) ∈ column_mappings -> a ∈ aliases ->
                       a ∈ cols -> t ∈ cols) ->
  forall k v, fst (build_column_map cols) !! k = Some v -> v = k.
Proof.
  intros Hcl k v E.
  destruct (build_column_map_inv _ _ _ E) as (aliases & Hin & Hfp).
  pose proof (first_present_Some _ _ _ Hfp) as [Hk Hc].
  pose proof (Hcl _ _ _ Hin Hk Hc) as Hv.
  destruct (mapping_head _ _ Hin) as [rest ->].
  rewrite (first_present_head cols v rest Hv) in Hfp. congruence.
Qed.

Lemma add_derived_columns_present df :
  (forall c, c ∈ ["balance"; "category"; "type"] -> c ∈ columns df) ->
  add_derived_columns df = Ok df.
Proof.
  intros H.
  assert (Hin : forall c, c ∈ ["balance"; "category"; "type"] -> has_column df c = true)
    by (intros c Hc; by apply has_column_in, H).
  unfold add_derived_columns, add_balance, add_category, add_type.
  rewrite (Hin "balance") by (rewrite !elem_of_cons; auto).
  cbn [negb andb]. rewrite bind_ok.
  rewrite (Hin "category") by (rewrite !elem_of_cons; auto).
  cbn [negb]. rewrite (Hin "type") by (rewrite !elem_of_cons; auto).
  reflexivity.
Qed.

Lemma add_category_columns df c :
  c ∈ columns (add_category df) -> c = "category" \/ c ∈ columns df.
Proof.
  unfold add_category. destruct (negb _); [|by right].
  intros H. by apply columns_setitem in H.
Qed.

Lemma add_type_columns df out c :
  add_type df = Ok out -> c ∈ columns out -> c = "type" \/ c ∈ columns df.
Proof.
  unfold add_type. intros H Hc. destruct (_ && _).
  - destruct (getitem df "budget") as [b|]; [|done]. rewrite bind_ok in H.
    destruct (traverse type_of_budget b) as [t|]; [|done].
    rewrite bind_ok in H. injection H as <-. by apply columns_setitem in Hc.
  - injection H as <-. by right.
Qed.

Lemma add_balance_adds df out :
  add_balance df = Ok out -> "budget" ∈ columns df -> "actual" ∈ columns df ->
  "balance" ∈ columns out.
Proof.
  unfold add_balance. intros H Hb Ha.
  rewrite (has_column_in _ _ Hb), (has_column_in _ _ Ha) in H.
  destruct (has_column df "balance") eqn:E; cbn [negb andb] in H.
  - injection H as <-. by apply has_column_true.
  - destruct (getitem df "budget") as [b|]; [|done].
    destruct (getitem df "actual") as [a|]; [|done].
    rewrite !bind_ok in H.
    destruct (series_binop Float.sub b a) as [d|]; [|done].
    rewrite bind_ok in H. injection H as <-. apply columns_setitem. by left.
Qed.

Lemma add_category_adds df : "category" ∈ columns (add_category df).
Proof.
  unfold add_category. destruct (has_column df "category") eqn:E; cbn [negb].
  - by apply has_column_true.
  - apply columns_setitem. by left.
Qed.

Lemma add_type_adds df out :
  add_type df = Ok out -> "budget" ∈ columns df -> "type" ∈ columns out.
Proof.
  unfold add_type. intros H Hb. rewrite (has_column_in _ _ Hb) in H.
  destruct (has_column df "type") eqn:E; cbn [negb andb] in H.
  - injection H as <-. by apply has_column_true.
  - destruct (getitem df "budget") as [b|]; [|done]. rewrite bind_ok in H.
    destruct (traverse type_of_budget b) as [t|]; [|done].
    rewrite bind_ok in H. injection H as <-. apply columns_setitem. by left.
Qed.

Lemma add_derived_columns_columns df out :
  add_derived_columns df = Ok out ->
  "budget" ∈ columns df -> "actual" ∈ columns df ->
  forall c, c ∈ columns out <-> c ∈ columns df \/ c ∈ ["balance"; "category"; "type"].
Proof.
  intros H Hb Ha c. pose proof H as H0. unfold add_derived_columns in H.
  destruct (add_balance df) as [df1|] eqn:E1; [|done]. rewrite bind_ok in H.
  split.
  - intros Hc. rewrite !elem_of_cons.
    destruct (add_type_columns _ _ _ H Hc) as [->|Hc2]; [auto|].
    destruct (add_category_columns _ _ Hc2) as [->|Hc1]; [auto|].
    destruct (add_balance_columns _ _ _ E1 Hc1) as [->|Hc0]; auto.
  - intros [Hc|Hc]; [by apply (add_derived_columns_keeps df)|].
    revert Hc. rewrite !elem_of_cons, elem_of_nil. intros [->|[->|[->|[]]]].
    + eapply add_type_keeps; [exact H|]. apply add_category_keeps.
      by apply (add_balance_adds df).
    + eapply add_type_keeps; [exact H|]. apply add_category_adds.
    + eapply add_type_adds; [exact H|]. apply add_category_keeps.
      by apply (add_balance_keeps df).
Qed.

(** A frame in reconciled form is returned as it is. *)
Lemma process_csv_fixed df :
  (forall c, c ∈ columns df -> normalize_name c = c) ->
  (forall t aliases a, (t, aliases) ∈ column_mappings -> a ∈ aliases ->
                       a ∈ columns df -> t ∈ columns df) ->
  (forall c, c ∈ essential_cols -> c ∈ columns df) ->
  (empty df = true \/ forall c, c ∈ ["balance"; "category"; "type"] -> c ∈ columns df) ->
  fst (process_csv df) = df.
Proof.
  intros Hnorm Hcl Hess Hder.
  rewrite process_csv_unfold. cbv zeta.
  rewrite (normalize_columns_id df Hnorm).
  pose proof (_map_csv_columns_fst df (columns df)) as Hf. cbv zeta in Hf.
  rewrite (rename_id _ df (closed_column_map _ Hcl)) in Hf.
  rewrite (proj2 (missing_from_nil df essential_cols) Hess) in Hf.
  destruct (_map_csv_columns df (columns df)) as [d l]. cbn [fst snd] in *.
  subst d. destruct (empty df) eqn:Ee; [done|].
  destruct Hder as [?|Hder]; [done|].
  by rewrite (add_derived_columns_present df Hder).
Qed.

(** X9: reconciliation is idempotent on every upload.  Whatever
    [process_csv] returns for an upload with distinct normalised column
    names (the accepted table with its derived columns, or the empty
    frame of a rejected upload), passing that result to [process_csv]
    again returns it unchanged. *)
Theorem reconciling_twice_changes_nothing (df : DataFrame) :
  NoDup (columns (normalize_columns df)) ->
  fst (process_csv (fst (process_csv df))) = fst (process_csv df).
Proof.
  intros _. set (out := fst (process_csv df)).
  assert (Hout : out = empty_frame \/
                 (out = mapped df /\ empty (mapped df) = true /\
                  forall c, c ∈ essential_cols -> c ∈ columns (mapped df)) \/
                 (add_derived_columns (mapped df) = Ok out /\
                  forall c, c ∈ essential_cols -> c ∈ columns (mapped df))).
  { subst out. rewrite process_csv_unfold. cbv zeta.
    pose proof (_map_csv_columns_fst (normalize_columns df) (columns df)) as Hf.
    cbv zeta in Hf. fold (mapped df) in Hf.
    destruct (_map_csv_columns (normalize_columns df) (columns df)) as [d l].
    cbn [fst snd] in *.
    destruct (missing_from (mapped df) essential_cols) as [|m t] eqn:Em; subst d.
    2:{ by left. }
    pose proof (proj1 (missing_from_nil _ _) Em) as Hess.
    destruct (empty (mapped df)) eqn:Em'; cbn [fst]; [by right; left|].
    destruct (add_derived_columns (mapped df)) as [o|e]; cbn [fst].
    - by right; right.
    - by left. }
  destruct Hout as [->|[(-> & Hem & Hess)|[Ha Hess]]].
  - reflexivity.
  - apply process_csv_fixed; auto.
    + apply mapped_columns_normalized.
    + apply mapped_columns_closed.
  - assert (Hbud : "budget" ∈ columns (mapped df))
      by (apply Hess; unfold essential_cols; rewrite !elem_of_cons; auto).
    assert (Hact : "actual" ∈ columns (mapped df))
      by (apply Hess; unfold essential_cols; rewrite !elem_of_cons; auto).
    pose proof (add_derived_columns_columns _ _ Ha Hbud Hact) as Hcols.
    apply process_csv_fixed.
    + intros c Hc. apply Hcols in Hc as [Hc|Hc].
      * by apply (mapped_columns_normalized df).
      * revert Hc. rewrite !elem_of_cons, elem_of_nil.
        intros [->|[->|[->|[]]]]; reflexivity.
    + intros t aliases a Hin Hal Hc. apply Hcols. apply Hcols in Hc as [Hc|Hc].
      * left. by apply (mapped_columns_closed df t aliases a).
      * right. pose proof (mapping_derived t aliases a Hin Hal Hc) as Ht.
        revert Ht. rewrite !elem_of_cons, !elem_of_nil. tauto.
    + intros c Hc. apply Hcols. left. by apply Hess.
    + right. intros c Hc. apply Hcols. by right.
Qed.

Lemma reconciling_twice_changes_nothing_witness :
  fst (process_csv (fst (process_csv typed_upload))) = fst (process_csv typed_upload) /\
  fst (process_csv (fst (process_csv foo_bar_upload))) = fst (process_csv foo_bar_upload).
Proof.
  split; apply reconciling_twice_changes_nothing;
    apply (bool_decide_unpack _); vm_compute; exact I.
Defined.


(** ** Distinct column names *)

Lemma columns_setitem_list df c s :
  columns (setitem df c s)
  = if has_column df c then columns df else columns df ++ [c].
Proof.
  unfold setitem, columns. destruct (has_column df c); simpl.
  - apply map_fst_replace_col.
  - by rewrite map_app.
Qed.

Lemma setitem_NoDup df c s : NoDup (columns df) -> NoDup (columns (setitem df c s)).
Proof.
  intros H. rewrite columns_setitem_list.
  destruct (has_column df c) eqn:E; [done|]. apply has_column_false in E.
  apply NoDup_app. split; [done|]. split; [|apply NoDup_singleton].
  intros x Hx ->%list_elem_of_singleton. contradiction.
Qed.

Lemma add_balance_NoDup df out :
  add_balance df = Ok out -> NoDup (columns df) -> NoDup (columns out).
Proof.
  unfold add_balance. intros H Hn. destruct (_ && _).
  - destruct (getitem df "budget") as [b|]; [|done].
    destruct (getitem df "actual") as [a|]; [|done].
    rewrite !bind_ok in H.
    destruct (series_binop Float.sub b a) as [d|]; [|done].
    rewrite bind_ok in H. injection H as <-. by apply setitem_NoDup.
  - by injection H as <-.
Qed.

Lemma add_category_NoDup df : NoDup (columns df) -> NoDup (columns (add_category df)).
Proof.
  unfold add_category. intros H. destruct (negb _); [by apply setitem_NoDup | done].
Qed.

Lemma add_type_NoDup df out :
  add_type df = Ok out -> NoDup (columns df) -> NoDup (columns out).
Proof.
  unfold add_type. intros H Hn. destruct (_ && _).
  - destruct (getitem df "budget") as [b|]; [|done]. rewrite bind_ok in H.
    destruct (traverse type_of_budget b) as [t|]; [|done].
    rewrite bind_ok in H. injection H as <-. by apply setitem_NoDup.
  - by injection H as <-.
Qed.

(** The renaming sends two different columns to different names. *)
Lemma renamed_injective cols k1 k2 :
  k1 ∈ cols -> k2 ∈ cols -> renamed cols k1 = renamed cols k2 -> k1 = k2.
Proof.
  unfold renamed. intros H1 H2.
  destruct (fst (build_column_map cols) !! k1) as [t1|] eqn:E1;
    destruct (fst (build_column_map cols) !! k2) as [t2|] eqn:E2; cbn [default from_option id].
  - intros ->.
    destruct (build_column_map_inv _ _ _ E1) as (al1 & Hin1 & Hfp1).
    destruct (build_column_map_inv _ _ _ E2) as (al2 & Hin2 & Hfp2).
    rewrite (mapping_functional _ _ _ Hin1 Hin2) in Hfp1. congruence.
  - intros ->.
    destruct (build_column_map_inv _ _ _ E1) as (al1 & Hin1 & Hfp1).
    destruct (mapping_head _ _ Hin1) as [rest ->].
    rewrite (first_present_head cols k2 rest H2) in Hfp1. congruence.
  - intros <-.
    destruct (build_column_map_inv _ _ _ E2) as (al2 & Hin2 & Hfp2).
    destruct (mapping_head _ _ Hin2) as [rest ->].
    rewrite (first_present_head cols k1 rest H1) in Hfp2. congruence.
  - done.
Qed.

Lemma mapped_NoDup df :
  NoDup (columns (normalize_columns df)) -> NoDup (columns (mapped df)).
Proof.
  intros H. unfold mapped. cbv zeta. rewrite columns_rename.
  apply (NoDup_fmap_2_strong (renamed (columns (normalize_columns df)))); [|done].
  intros k1 k2 H1 H2. by apply renamed_injective.
Qed.

(** X10: reconciliation never produces two columns of the same name.
    When the normalised column names of the upload are distinct, so are
    the column names of the result of [process_csv]: an alias is renamed
    to a target that no other column bears, and a derived column is added
    only when its name is free. *)
Theorem reconciled_column_names_are_distinct (df : DataFrame) :
  NoDup (columns (normalize_columns df)) ->
  NoDup (columns (fst (process_csv df))).
Proof.
  intros Hn. apply mapped_NoDup in Hn.
  rewrite process_csv_unfold. cbv zeta.
  pose proof (_map_csv_columns_fst (normalize_columns df) (columns df)) as Hf.
  cbv zeta in Hf. fold (mapped df) in Hf.
  destruct (_map_csv_columns (normalize_columns df) (columns df)) as [d l].
  cbn [fst snd] in *.
  destruct (missing_from (mapped df) essential_cols) as [|m t] eqn:Em; subst d.
  2:{ cbn. apply NoDup_nil_2. }
  destruct (empty (mapped df)); cbn [fst]; [done|].
  destruct (add_derived_columns (mapped df)) as [o|e] eqn:Ea; cbn [fst].
  - unfold add_derived_columns in Ea.
    destruct (add_balance (mapped df)) as [df1|] eqn:E1; [|done].
    rewrite bind_ok in Ea.
    eapply add_type_NoDup; [exact Ea|]. apply add_category_NoDup.
    by eapply add_balance_NoDup.
  - apply NoDup_nil_2.
Qed.

Lemma reconciled_column_names_are_distinct_witness :
  NoDup (columns (fst (process_csv canonical_upload))).
Proof.
  apply reconciled_column_names_are_distinct.
  apply (bool_decide_unpack _). vm_compute. exact I.
Defined.



(** ** Renaming by alias *)

Lemma renamed_hit cols t aliases a :
  (t, aliases) ∈ column_mappings -> first_present cols aliases = Some a ->
  renamed cols a = t.
Proof.
  intros Hin Hfp. unfold renamed.
  by rewrite (build_column_map_hit cols t aliases a Hin Hfp).
Qed.

Lemma assoc_renamed cols (d : list (string * list value)) k :
  (forall c, c ∈ map fst d -> c ∈ cols) -> k ∈ cols ->
  assoc (renamed cols k)
        (map (fun cs => (default (fst cs) (fst (build_column_map cols) !! fst cs), snd cs)) d)
  = assoc k d.
Proof.
  intros Hd Hk. induction d as [|[k0 s0] d IH]; [done|].
  cbn [map assoc fst snd]. fold (renamed cols k0).
  assert (Hk0 : k0 ∈ cols) by (apply Hd; left).
  destruct (String.eqb_spec k0 k) as [->|Hne].
  - by rewrite String.eqb_refl.
  - destruct (String.eqb_spec (renamed cols k0) (renamed cols k)) as [E|_].
    + by apply renamed_injective in E.
    + apply IH. intros c Hc. apply Hd. by right.
Qed.

Lemma getitem_mapped df k :
  k ∈ columns (normalize_columns df) ->
  getitem (mapped df) (renamed (columns (normalize_columns df)) k)
  = getitem (normalize_columns df) k.
Proof.
  intros Hk. unfold getitem, mapped, rename. cbv zeta. cbn [data].
  rewrite assoc_renamed; [| |done].
  - destruct (assoc k _) eqn:E; [done|].
    apply assoc_None in E. by destruct E.
  - intros c Hc. exact Hc.
Qed.

(** X11: columns are renamed by alias priority, and nothing else moves.
    For an upload with distinct normalised column names: for each
    canonical name, the first of its aliases (in the order of the list)
    that is a column of the upload is renamed to it, so the mapped table
    holds that column's data under the canonical name, and the alias
    itself is no longer a column; a column that is the first present
    alias of no canonical name keeps its normalised name and its data;
    and no row is added or dropped. *)
Theorem columns_are_renamed_by_alias_priority (df : DataFrame) :
  let cols := columns (normalize_columns df) in
  NoDup cols ->
  (forall t aliases a,
     (t, aliases) ∈ column_mappings -> first_present cols aliases = Some a ->
     getitem (mapped df) t = getitem (normalize_columns df) a /\
     (a <> t -> a ∉ columns (mapped df))) /\
  (forall k,
     k ∈ cols ->
     (forall t aliases, (t, aliases) ∈ column_mappings ->
                        first_present cols aliases <> Some k) ->
     getitem (mapped df) k = getitem (normalize_columns df) k) /\
  nrows (mapped df) = nrows df.
Proof.
  intros cols _. split; [|split].
  - intros t aliases a Hin Hfp.
    pose proof (first_present_Some _ _ _ Hfp) as [Ha Hc].
    pose proof (renamed_hit cols t aliases a Hin Hfp) as Hr.
    split.
    + rewrite <- Hr. by apply getitem_mapped.
    + intros Hne Hm. unfold mapped in Hm. cbv zeta in Hm.
      rewrite columns_rename in Hm.
      apply list_elem_of_fmap in Hm as (k & Ek & Hk). fold cols in Ek, Hk.
      destruct (fst (build_column_map cols) !! k) as [t'|] eqn:E;
        cbn [default from_option id] in Ek.
      * subst t'. destruct (build_column_map_inv _ _ _ E) as (aliases' & Hin' & _).
        apply Hne. by apply (mapping_target_alias t aliases a aliases').
      * subst k. pose proof (build_column_map_hit cols t aliases a Hin Hfp). congruence.
  - intros k Hk Hno.
    assert (Hr : renamed cols k = k).
    { unfold renamed. destruct (fst (build_column_map cols) !! k) as [t|] eqn:E; [|done].
      destruct (build_column_map_inv _ _ _ E) as (aliases & Hin & Hfp).
      by destruct (Hno t aliases Hin). }
    rewrite <- Hr at 1. by apply getitem_mapped.
  - reflexivity.
Qed.

Lemma columns_are_renamed_by_alias_priority_witness :
  getitem (mapped typed_upload) "category" = getitem (normalize_columns typed_upload) "type" /\
  "type" ∉ columns (mapped typed_upload).
Proof.
  destruct (columns_are_renamed_by_alias_priority typed_upload) as (H & _ & _).
  - apply (bool_decide_unpack _). vm_compute. exact I.
  - destruct (H "category" ["category"; "cat"; "type"; "group"; "section"] "type")
      as [H1 H2].
    + apply (bool_decide_unpack _). vm_compute. exact I.
    + reflexivity.
    + split; [exact H1|]. apply H2. discriminate.
Defined.

(** ** Letter case and spaces of the header *)

Lemma normalize_columns_idempotent df :
  normalize_columns (normalize_columns df) = normalize_columns df.
Proof.
  apply normalize_columns_id. intros c Hc.
  unfold normalize_columns, columns in Hc. cbn [data] in Hc.
  rewrite map_map in Hc. apply list_elem_of_fmap in Hc as ([c0 s0] & -> & _).
  cbn [fst]. apply normalize_name_idempotent.
Qed.

(** X22: [process_csv] reads the column names through their normal form
    only.  Two uploads whose tables agree after the names are lower-cased
    and their spaces replaced by underscores (the names being distinct in
    that form) get the same result; in particular an upload and the same
    upload with its names already normalised. *)
Theorem process_csv_reads_normalised_names (df df' : DataFrame) :
  NoDup (columns (normalize_columns df)) ->
  normalize_columns df' = normalize_columns df ->
  fst (process_csv df') = fst (process_csv df) /\
  fst (process_csv (normalize_columns df)) = fst (process_csv df).
Proof.
  intros _ H.
  assert (G : forall d d', normalize_columns d' = normalize_columns d ->
                           fst (process_csv d') = fst (process_csv d)).
  { intros d d' E. rewrite !process_csv_unfold. cbv zeta. rewrite E.
    pose proof (_map_csv_columns_fst (normalize_columns d) (columns d)) as Hf.
    pose proof (_map_csv_columns_fst (normalize_columns d) (columns d')) as Hf'.
    cbv zeta in Hf, Hf'. rewrite <- Hf in Hf'.
    destruct (_map_csv_columns (normalize_columns d) (columns d)) as [r l].
    destruct (_map_csv_columns (normalize_columns d) (columns d')) as [r' l'].
    cbn [fst snd] in *. subst r'.
    destruct (empty r); [done|]. by destruct (add_derived_columns r). }
  split; [by apply G|]. apply G. apply normalize_columns_idempotent.
Qed.

Lemma process_csv_reads_normalised_names_witness :
  fst (process_csv (mkDF 2 [("ITEM", [VStr "Hall hire"; VStr "Insurance"]);
                            ("budgeted", [VNum (Fin (-40000)); VNum (Fin 900)]);
                            ("SPENT", [VNum (Fin (-14571)); VNum (Fin 0)]);
                            ("type", [VStr "Income"; VStr "Expenditure"])]))
  = fst (process_csv typed_upload).
Proof.
  apply process_csv_reads_normalised_names.
  - apply (bool_decide_unpack _). vm_compute. exact I.
  - reflexivity.
Defined.

(** ** Frames built from records *)

Lemma assoc_map_keys (g : string -> list value) (r : list (string * value)) key :
  key ∈ map fst r ->
  assoc key (map (fun kv => (fst kv, g (fst kv))) r) = Some (g key).
Proof.
  induction r as [|[k v] r IH]; simpl.
  - by intros H%elem_of_nil.
  - intros H. destruct (String.eqb k key) eqn:E.
    + apply String.eqb_eq in E. by subst.
    + apply String.eqb_neq in E. apply elem_of_cons in H as [H|H]; [congruence|].
      by apply IH.
Qed.

Lemma frame_of_records_cell (records : list Row) r0 key i r v :
  head records = Some r0 -> key ∈ map fst r0 ->
  records !! i = Some r -> row_get r key = Ok v ->
  cell_at (frame_of_records records) key i = Some v.
Proof.
  intros H0 Hk Hi Hv. unfold cell_at, getitem, frame_of_records.
  destruct records as [|r1 rest]; [done|]. injection H0 as ->. cbn [data].
  rewrite (assoc_map_keys
             (fun k => map (fun r' => match row_get r' k with
                                      | Ok v => v
                                      | Raise _ => VNum NaN
                                      end) (r0 :: rest)) r0 key Hk).
  rewrite list_lookup_fmap, Hi. simpl. by rewrite Hv.
Qed.

Lemma frame_of_records_nrows (records : list Row) :
  nrows (frame_of_records records) = length records.
Proof. by destruct records. Qed.

Lemma frame_of_records_columns (records : list Row) r0 :
  head records = Some r0 -> columns (frame_of_records records) = map fst r0.
Proof.
  destruct records as [|r1 rest]; [done|]. intros [= ->].
  unfold columns, frame_of_records. cbn [data]. by rewrite map_map.
Qed.

(** ** Sums of projections *)

Lemma zip_with_Fin (f : float -> float -> float) (g : Q -> Q -> Q) (xs ys : list Q) :
  (forall x y, f (Fin x) (Fin y) = Fin (g x y)) ->
  zip_with f (Fin <$> xs) (Fin <$> ys) = Fin <$> zip_with g xs ys.
Proof.
  intros H. revert ys. induction xs as [|x xs IH]; intros [|y ys]; try done.
  rewrite !fmap_cons. cbn [zip_with]. rewrite fmap_cons, H, IH. done.
Qed.

Lemma projection_sums (bq aq fq : list Q) :
  length aq = length bq -> length fq = length bq ->
  let pt := zip_with Qplus aq (zip_with Qmult (zip_with (fun b a => b + - a) bq aq) fq) in
  let pv := zip_with (fun b t => b + - t) bq pt in
  sum_rationals pt + sum_rationals pv == sum_rationals bq /\
  (Forall (fun f => f == 1) fq -> sum_rationals pv == 0).
Proof.
  revert aq fq. induction bq as [|b bq IH]; intros [|a aq] [|f fq] La Lf; try done.
  simpl in La, Lf. destruct (IH aq fq ltac:(lia) ltac:(lia)) as [IH1 IH2].
  cbv zeta in *. cbn [zip_with]. rewrite !sum_rationals_cons. split.
  - lra.
  - intros Hf. apply Forall_cons in Hf as [Hf1 Hf]. rewrite (IH2 Hf). nra.
Qed.

Lemma factor_of_100 (probabilities : gmap string float) c :
  (forall k v, probabilities !! k = Some v -> v =f= Fin 100) ->
  exists q, factor_of probabilities c = Fin q /\ q == 1.
Proof.
  intros H. unfold factor_of.
  destruct (probabilities_get_100 probabilities c H) as (q & -> & Hq).
  unfold Float.div, Float.is_zero.
  replace (Qeq_bool 100 0) with false by reflexivity.
  eexists. split; [reflexivity|]. rewrite Hq. reflexivity.
Qed.

Section Comparison.
Variable df : DataFrame.
Variables (cs : list value) (bq aq : list Q).
Hypothesis Hc : getitem df "category" = Ok cs.
Hypothesis Hb : getitem df (budget_col df) = Ok (VNum <$> (Fin <$> bq)).
Hypothesis Ha : getitem df (actual_col df) = Ok (VNum <$> (Fin <$> aq)).
Hypothesis Lc : length cs = nrows df.
Hypothesis Lb : length bq = nrows df.
Hypothesis La : length aq = nrows df.

Lemma compare_scenario_num name (probabilities : gmap string float) :
  (forall c v, probabilities !! c = Some v -> Float.finite v) ->
  exists tp tv : Q,
    compare_scenario df (name, probabilities)
    = Ok [("scenario", VStr name);
          ("total_budget", VNum (Fin (sum_rationals bq)));
          ("total_projected", VNum (Fin tp));
          ("total_variance", VNum (Fin tv));
          ("variance_percentage",
           VNum (variance_percentage (Fin tv) (Fin (sum_rationals bq))))] /\
    tp + tv == sum_rationals bq /\
    ((forall c v, probabilities !! c = Some v -> v =f= Fin 100) -> tv == 0).
Proof.
  intros Hp.
  pose proof (apply_probability_scenario_num df probabilities cs _ _ Hc Hb Ha Lc) as E.
  cbv zeta in E.
  assert (Ff : Forall Float.finite (factor_of probabilities <$> cs)).
  { apply Forall_fmap, Forall_forall. intros c _. by apply factor_finite. }
  destruct (finite_list _ Ff) as [fq Hfq].
  assert (Lf : length fq = length bq).
  { rewrite Lb, <- Lc. rewrite <- (length_fmap Fin fq), <- Hfq. apply length_fmap. }
  rewrite Hfq in E.
  rewrite (zip_with_Fin Float.sub (fun b a => b + - a)) in E by done.
  rewrite (zip_with_Fin Float.mul Qmult) in E by done.
  rewrite (zip_with_Fin Float.add Qplus) in E by done.
  rewrite (zip_with_Fin Float.sub (fun b a => b + - a)) in E by done.
  destruct (projection_sums bq aq fq ltac:(lia) Lf) as [S1 S2]. cbv zeta in S1, S2.
  eexists _, _. split; [|split; [exact S1|]].
  - unfold compare_scenario. cbn [fst snd]. rewrite E, bind_ok.
    rewrite !budget_col_setitem by discriminate.
    assert (Nb : forall c, In c ["probability_factor"; "remaining_budget";
                                  "projected_remaining"; "projected_total";
                                  "projected_variance"] ->
                           c <> budget_col df).
    { intros c Hin Ec. destruct (budget_col_cases df) as [H|H]; rewrite H in Ec;
        subst c; simpl in Hin; intuition discriminate. }
    repeat first
      [ rewrite bind_ok
      | rewrite getitem_setitem_eq
      | rewrite (getitem_setitem_ne _ _ (budget_col df)) by (apply Nb; simpl; tauto)
      | rewrite getitem_setitem_ne by discriminate
      | rewrite Hb
      | rewrite series_sum_rationals ].
    reflexivity.
  - intros Hall. apply S2. apply Forall_forall. intros f Hf.
    apply list_elem_of_lookup in Hf as [i Hi].
    assert (Hi' : (Fin <$> fq) !! i = Some (Fin f)) by (by rewrite list_lookup_fmap, Hi).
    rewrite <- Hfq, list_lookup_fmap in Hi'.
    destruct (cs !! i) as [c|]; [|done]. simpl in Hi'.
    destruct (factor_of_100 probabilities c Hall) as (q & Eq & Hq).
    rewrite Eq in Hi'. injection Hi' as ->. exact Hq.
Qed.

End Comparison.

Lemma traverse_ok {A B} (f : A -> result B) (l : list A) :
  (forall a, a ∈ l -> exists b, f a = Ok b) -> exists r, traverse f l = Ok r.
Proof.
  induction l as [|a l IH]; intros H; [by exists []|].
  destruct (H a) as [b Hb]; [left|].
  destruct IH as [r Hr]; [intros a' Ha'; apply H; by right|].
  exists (b :: r). simpl. by rewrite Hb, bind_ok, Hr.
Qed.

(** X12: the rows of a scenario comparison.  For a frame with distinct
    column names, a category column and finite budget and actual columns,
    and scenarios whose probabilities are finite,
    [calculate_scenario_comparison] returns one row per scenario, in
    order, with the scenario's name.  The numbers of a row are stated in
    exact arithmetic, all of them: total_budget is the sum of the budget
    column, total_projected + total_variance = total_budget,
    variance_percentage is the guarded quotient of total_variance by
    total_budget, and a scenario in which every listed probability is 100
    has total_variance 0 (in binary64 the totals carry the rounding of
    their sums, and this last one can be a residue instead of 0). *)
Theorem scenario_comparison_totals df scenarios cs (bq aq : list Q) :
  NoDup (columns df) ->
  getitem df "category" = Ok cs ->
  getitem df (budget_col df) = Ok (VNum <$> (Fin <$> bq)) ->
  getitem df (actual_col df) = Ok (VNum <$> (Fin <$> aq)) ->
  length cs = nrows df -> length bq = nrows df -> length aq = nrows df ->
  (forall name probabilities c v,
     (name, probabilities) ∈ scenarios -> probabilities !! c = Some v ->
     Float.finite v) ->
  exists out,
    calculate_scenario_comparison df scenarios = Ok out /\
    nrows out = length scenarios /\
    forall i name probabilities,
      scenarios !! i = Some (name, probabilities) ->
      exists total_projected total_variance : Q,
        cell_at out "scenario" i = Some (VStr name) /\
        cell_at out "total_budget" i = Some (VNum (Fin (sum_rationals bq))) /\
        cell_at out "total_projected" i = Some (VNum (Fin total_projected)) /\
        cell_at out "total_variance" i = Some (VNum (Fin total_variance)) /\
        cell_at out "variance_percentage" i
        = Some (VNum (variance_percentage (Fin total_variance)
                                          (Fin (sum_rationals bq)))) /\
        total_projected + total_variance == sum_rationals bq /\
        ((forall c v, probabilities !! c = Some v -> v =f= Fin 100) ->
         total_variance == 0).
Proof.
  intros _ Hc Hb Ha Lc Lb La Hfin. unfold calculate_scenario_comparison.
  destruct (traverse_ok (compare_scenario df) scenarios) as [records Hr].
  { intros [name p] Hin.
    destruct (compare_scenario_num df cs bq aq Hc Hb Ha Lc Lb La name p)
      as (tp & tv & E & _); [intros c v; by apply (Hfin name)|]. by eexists. }
  rewrite Hr, bind_ok. eexists. split; [reflexivity|].
  split. { rewrite frame_of_records_nrows. by apply traverse_length in Hr. }
  intros i name p Hi.
  destruct (traverse_lookup _ _ _ _ _ Hr Hi) as (r & Hri & Er).
  destruct (compare_scenario_num df cs bq aq Hc Hb Ha Lc Lb La name p)
    as (tp & tv & E & S1 & S2).
  { intros c v. apply (Hfin name). by apply list_elem_of_lookup_2 in Hi. }
  rewrite E in Er. injection Er as <-.
  (* the first record gives the columns *)
  destruct scenarios as [|[name0 p0] rest]; [done|].
  assert (H0 : exists r0, head records = Some r0 /\
                 map fst r0 = ["scenario"; "total_budget"; "total_projected";
                               "total_variance"; "variance_percentage"]).
  { destruct (traverse_lookup _ _ _ 0%nat _ Hr eq_refl) as (r0 & Hr0 & Er0).
    destruct (compare_scenario_num df cs bq aq Hc Hb Ha Lc Lb La name0 p0)
      as (tp0 & tv0 & E0 & _).
    { intros c v. apply (Hfin name0). left. }
    rewrite E0 in Er0. injection Er0 as <-.
    destruct records as [|r0 records]; [done|]. injection Hr0 as ->.
    eexists. split; reflexivity. }
  destruct H0 as (r0 & Hh & Hk).
  exists tp, tv.
  assert (Hcell : forall key v,
            key ∈ map fst r0 ->
            row_get [("scenario", VStr name);
                     ("total_budget", VNum (Fin (sum_rationals bq)));
                     ("total_projected", VNum (Fin tp));
                     ("total_variance", VNum (Fin tv));
                     ("variance_percentage",
                      VNum (variance_percentage (Fin tv) (Fin (sum_rationals bq))))]
                    key = Ok v ->
            cell_at (frame_of_records records) key i = Some v).
  { intros key v Hkey Hv.
    by apply (frame_of_records_cell records r0 key i _ v Hh Hkey Hri). }
  rewrite Hk in Hcell.
  do 5 (split; [apply Hcell; [rewrite !elem_of_cons; auto 10 | reflexivity]|]).
  split; [exact S1 | exact S2].
Qed.

Lemma scenario_comparison_totals_witness :
  exists out,
    calculate_scenario_comparison sample_frame
      [("Base", ∅); ("Cautious", <["Administration" := Fin 80]> ∅)] = Ok out /\
    nrows out = 2%nat.
Proof.
  destruct (scenario_comparison_totals sample_frame
              [("Base", ∅); ("Cautious", <["Administration" := Fin 80]> ∅)]
              [VStr "Administration"; VStr "Income"; VStr "Administration"]
              [42134; 40000; 900] [19577; 14571; 0])
    as (out & E & Hn & _).
  - apply (bool_decide_unpack _). vm_compute. exact I.
  - reflexivity.
  - reflexivity.
  - reflexivity.
  - reflexivity.
  - reflexivity.
  - reflexivity.
  - intros name probabilities c v Hin Hl.
    rewrite !elem_of_cons, elem_of_nil in Hin.
    destruct Hin as [[= -> ->]|[[= -> ->]|[]]].
    + by rewrite lookup_empty in Hl.
    + apply lookup_insert_Some in Hl as [[_ <-]|[_ Hl]]; [exact I|].
      by rewrite lookup_empty in Hl.
  - by exists out.
Defined.


(** ** Cash-flow projection *)

Lemma concat_lookup_uniform {A} (M : nat) (ls : list (list A)) r m l x :
  Forall (fun l => length l = M) ls ->
  ls !! r = Some l -> l !! m = Some x ->
  concat ls !! (r * M + m)%nat = Some x.
Proof.
  intros H. revert r. induction H as [|l0 ls Hl _ IH]; intros r; [done|].
  destruct r as [|r]; simpl.
  - intros [= ->] Hm. by apply lookup_app_l_Some.
  - intros Hr Hm. rewrite lookup_app_r by lia.
    replace (M + r * M + m - length l0)%nat with (r * M + m)%nat by lia.
    by apply IH.
Qed.

Lemma concat_length_uniform {A} (M : nat) (ls : list (list A)) :
  Forall (fun l => length l = M) ls -> length (concat ls) = (length ls * M)%nat.
Proof.
  induction 1 as [|l ls Hl _ IH]; [done|]. simpl. rewrite length_app. lia.
Qed.

(** The record of the month that comes [m] months after [month], for a
    row of description [d], category [c], budget [b], and a cumulative
    amount [cum]. *)
Lemma project_months_spec (left : nat) (month : Z) (row : Row) budget_col d c
    (b ma cu : Q) :
  row_get row "description" = Ok d ->
  row_get row "category" = Ok c ->
  row_get row budget_col = Ok (VNum (Fin b)) ->
  exists recs,
    project_months left month row budget_col (VNum (Fin ma)) (VNum (Fin cu)) = Ok recs /\
    length recs = left /\
    forall m, (m < left)%nat ->
      exists cum,
        recs !! m
        = Some [("description", d); ("category", c);
                ("month", VNum (Fin (inject_Z (month + Z.of_nat m))));
                ("monthly_projected", VNum (Fin ma));
                ("cumulative_projected", VNum (Fin cum));
                ("budget", VNum (Fin b));
                ("remaining_budget", VNum (Fin (b + - cum)))] /\
        cum == cu + inject_Z (Z.of_nat m + 1) * ma.
Proof.
  intros Hd Hc Hb. revert month cu.
  induction left as [|left IH]; intros month cu.
  - exists []. split; [done|]. split; [done|]. intros m Hm. lia.
  - destruct (IH (month + 1)%Z (cu + ma)) as (rest & E & L & Hrest).
    eexists. cbn [project_months num_binop Float.add].
    rewrite !bind_ok, Hd, bind_ok, Hc, bind_ok, Hb, !bind_ok.
    cbn [num_binop Float.sub Float.add Float.neg]. rewrite bind_ok, E, bind_ok.
    split; [reflexivity|]. split; [simpl; by rewrite L|].
    intros [|m] Hm.
    + exists (cu + ma). simpl. rewrite Z.add_0_r. split; [reflexivity|].
      replace (inject_Z (Z.of_nat 0 + 1)) with 1 by reflexivity. lra.
    + destruct (Hrest m ltac:(lia)) as (cum & Hm' & Hcum).
      exists cum. split.
      * rewrite lookup_cons. rewrite Hm'.
        replace (month + Z.of_nat (S m))%Z with (month + 1 + Z.of_nat m)%Z by lia.
        reflexivity.
      * rewrite Hcum.
        replace (Z.of_nat (S m) + 1)%Z with ((Z.of_nat m + 1) + 1)%Z by lia.
        rewrite (inject_Z_plus (Z.of_nat m + 1) 1).
        replace (inject_Z 1) with 1 by reflexivity. lra.
Qed.

Lemma traverse_Forall {A B} (f : A -> result B) (P : B -> Prop) (l : list A) r :
  traverse f l = Ok r -> (forall a b, a ∈ l -> f a = Ok b -> P b) -> Forall P r.
Proof.
  revert r. induction l as [|a l IH]; intros r; simpl.
  - intros [= <-] _. constructor.
  - destruct (f a) as [b|] eqn:Ea; [|done]. rewrite bind_ok.
    destruct (traverse f l) as [r'|] eqn:Er; [|done]. rewrite bind_ok.
    intros [= <-] H. constructor.
    + apply (H a); [left | done].
    + apply IH; [done|]. intros a' b' Ha'. apply H. by right.
Qed.

Lemma rows_lookup df r : (r < nrows df)%nat -> rows df !! r = Some (row_at df r).
Proof.
  intros H. unfold rows. rewrite list_lookup_fmap, lookup_seq_lt by done. done.
Qed.

Section Projection.
Variable df : DataFrame.
Variables (ds cs : list value) (bq aq : list Q).
Variable months_ahead : Z.
Hypothesis Hd : getitem df "description" = Ok ds.
Hypothesis Hc : getitem df "category" = Ok cs.
Hypothesis Hb : getitem df (budget_col df) = Ok (VNum <$> (Fin <$> bq)).
Hypothesis Ha : getitem df (actual_col df) = Ok (VNum <$> (Fin <$> aq)).

Lemma project_row_spec r d c b a :
  ds !! r = Some d -> cs !! r = Some c -> bq !! r = Some b -> aq !! r = Some a ->
  exists recs,
    project_row (row_at df r) (budget_col df) (actual_col df) months_ahead = Ok recs /\
    length recs = Z.to_nat months_ahead /\
    forall m, (m < Z.to_nat months_ahead)%nat ->
      exists cum,
        recs !! m
        = Some [("description", d); ("category", c);
                ("month", VNum (Fin (inject_Z (1 + Z.of_nat m))));
                ("monthly_projected", VNum (Fin (a / inject_Z 5)));
                ("cumulative_projected", VNum (Fin cum));
                ("budget", VNum (Fin b));
                ("remaining_budget", VNum (Fin (b + - cum)))] /\
        cum == a + inject_Z (Z.of_nat m + 1) * (a / inject_Z 5).
Proof.
  intros Hdr Hcr Hbr Har.
  assert (Rd : row_get (row_at df r) "description" = Ok d).
  { rewrite row_get_row_at, Hd, bind_ok. unfold cell. by rewrite Hdr. }
  assert (Rc : row_get (row_at df r) "category" = Ok c).
  { rewrite row_get_row_at, Hc, bind_ok. unfold cell. by rewrite Hcr. }
  assert (Rb : row_get (row_at df r) (budget_col df) = Ok (VNum (Fin b))).
  { rewrite row_get_row_at, Hb, bind_ok. unfold cell.
    by rewrite !list_lookup_fmap, Hbr. }
  assert (Ra : row_get (row_at df r) (actual_col df) = Ok (VNum (Fin a))).
  { rewrite row_get_row_at, Ha, bind_ok. unfold cell.
    by rewrite !list_lookup_fmap, Har. }
  unfold project_row.
  replace (0 <? months_elapsed)%Z with true by reflexivity.
  rewrite Ra, !bind_ok. unfold months_elapsed.
  cbn [num_binop]. unfold Float.div at 1.
  replace (Float.is_zero (inject_Z 5)) with false by reflexivity.
  rewrite bind_ok, Rb, bind_ok. cbn [num_binop]. rewrite bind_ok.
  apply (project_months_spec _ 1 _ _ d c b _ a Rd Rc Rb).
Qed.

End Projection.

(** X13: the rows of the cash-flow projection.  For a frame with
    distinct column names, description and category columns and finite
    budget and actual columns, [generate_cash_flow_projection] returns a
    table of (rows of the dataset) x months_ahead rows, none for a
    months_ahead below 1.  The row of item r and month m (months counted
    from 1, row index r * months_ahead + m - 1) carries the item's
    description, category and budget, the month, monthly_projected =
    actual / 5, cumulative_projected = actual + m * monthly_projected (in
    exact arithmetic) and remaining_budget = budget -
    cumulative_projected. *)
Theorem cash_flow_projection_rows df (ds cs : list value) (bq aq : list Q)
    (months_ahead : Z) :
  NoDup (columns df) ->
  getitem df "description" = Ok ds ->
  getitem df "category" = Ok cs ->
  getitem df (budget_col df) = Ok (VNum <$> (Fin <$> bq)) ->
  getitem df (actual_col df) = Ok (VNum <$> (Fin <$> aq)) ->
  length ds = nrows df -> length cs = nrows df ->
  length bq = nrows df -> length aq = nrows df ->
  let months := Z.to_nat months_ahead in
  exists out,
    generate_cash_flow_projection df months_ahead = Ok out /\
    nrows out = (nrows df * months)%nat /\
    forall r m description category budget actual,
      ds !! r = Some description -> cs !! r = Some category ->
      bq !! r = Some budget -> aq !! r = Some actual -> (m < months)%nat ->
      let i := (r * months + m)%nat in
      let monthly := actual / inject_Z 5 in
      exists cumulative : Q,
        cumulative == actual + inject_Z (Z.of_nat m + 1) * monthly /\
        cell_at out "description" i = Some description /\
        cell_at out "category" i = Some category /\
        cell_at out "month" i = Some (VNum (Fin (inject_Z (1 + Z.of_nat m)))) /\
        cell_at out "monthly_projected" i = Some (VNum (Fin monthly)) /\
        cell_at out "cumulative_projected" i = Some (VNum (Fin cumulative)) /\
        cell_at out "budget" i = Some (VNum (Fin budget)) /\
        cell_at out "remaining_budget" i = Some (VNum (Fin (budget + - cumulative))).
Proof.
  intros _ Hd Hc Hb Ha Ld Lc Lb La months.
  assert (Hrow : forall r, (r < nrows df)%nat ->
            exists d c b a, ds !! r = Some d /\ cs !! r = Some c /\
                            bq !! r = Some b /\ aq !! r = Some a).
  { intros r Hr.
    destruct (lookup_lt_is_Some_2 ds r ltac:(lia)) as [d Hd'].
    destruct (lookup_lt_is_Some_2 cs r ltac:(lia)) as [c Hc'].
    destruct (lookup_lt_is_Some_2 bq r ltac:(lia)) as [b Hb'].
    destruct (lookup_lt_is_Some_2 aq r ltac:(lia)) as [a Ha'].
    by exists d, c, b, a. }
  unfold generate_cash_flow_projection. cbv zeta.
  destruct (traverse_ok
              (fun row => project_row row (budget_col df) (actual_col df) months_ahead)
              (rows df)) as [projections Hp].
  { intros row Hin. unfold rows in Hin.
    apply list_elem_of_fmap in Hin as (r & -> & Hr). apply elem_of_seq in Hr.
    destruct (Hrow r ltac:(lia)) as (d & c & b & a & H1 & H2 & H3 & H4).
    destruct (project_row_spec df ds cs bq aq months_ahead Hd Hc Hb Ha r d c b a)
      as (recs & E & _); auto. by exists recs. }
  rewrite Hp, bind_ok. eexists. split; [reflexivity|].
  assert (Hlen : Forall (fun l => length l = months) projections).
  { apply (traverse_Forall _ _ _ _ Hp). intros row recs Hin E. unfold rows in Hin.
    apply list_elem_of_fmap in Hin as (r & -> & Hr). apply elem_of_seq in Hr.
    destruct (Hrow r ltac:(lia)) as (d & c & b & a & H1 & H2 & H3 & H4).
    destruct (project_row_spec df ds cs bq aq months_ahead Hd Hc Hb Ha r d c b a)
      as (recs' & E' & L & _); auto. rewrite E' in E. injection E as <-. exact L. }
  split.
  { rewrite frame_of_records_nrows, (concat_length_uniform months) by done.
    apply traverse_length in Hp. rewrite Hp. unfold rows.
    by rewrite length_map, length_seq. }
  assert (Hrec : forall r m d c b a,
            ds !! r = Some d -> cs !! r = Some c ->
            bq !! r = Some b -> aq !! r = Some a -> (m < months)%nat ->
            exists cum,
              concat projections !! (r * months + m)%nat
              = Some [("description", d); ("category", c);
                      ("month", VNum (Fin (inject_Z (1 + Z.of_nat m))));
                      ("monthly_projected", VNum (Fin (a / inject_Z 5)));
                      ("cumulative_projected", VNum (Fin cum));
                      ("budget", VNum (Fin b));
                      ("remaining_budget", VNum (Fin (b + - cum)))] /\
              cum == a + inject_Z (Z.of_nat m + 1) * (a / inject_Z 5)).
  { intros r m d c b a H1 H2 H3 H4 Hm.
    assert (Hr : (r < nrows df)%nat) by (apply lookup_lt_Some in H1; lia).
    destruct (traverse_lookup _ _ _ _ _ Hp (rows_lookup df r Hr)) as (recs & Hrecs & E).
    destruct (project_row_spec df ds cs bq aq months_ahead Hd Hc Hb Ha r d c b a)
      as (recs' & E' & L & Hm'); auto.
    rewrite E' in E. injection E as <-.
    destruct (Hm' m Hm) as (cum & Hcum & Ecum). exists cum. split; [|exact Ecum].
    by apply (concat_lookup_uniform months projections r m recs'). }
  intros r m d c b a H1 H2 H3 H4 Hm.
  destruct (Hrec r m d c b a H1 H2 H3 H4 Hm) as (cum & Hcum & Ecum).
  (* the first record gives the columns *)
  assert (Hr : (0 < nrows df)%nat) by (apply lookup_lt_Some in H1; lia).
  destruct (Hrow 0%nat Hr) as (d0 & c0 & b0 & a0 & G1 & G2 & G3 & G4).
  destruct (Hrec 0%nat 0%nat d0 c0 b0 a0 G1 G2 G3 G4 ltac:(lia)) as (cum0 & Hcum0 & _).
  rewrite Nat.mul_0_l, Nat.add_0_l, <- head_lookup in Hcum0.
  assert (Hcell : forall key v,
            key ∈ ["description"; "category"; "month"; "monthly_projected";
                   "cumulative_projected"; "budget"; "remaining_budget"] ->
            row_get [("description", d); ("category", c);
                     ("month", VNum (Fin (inject_Z (1 + Z.of_nat m))));
                     ("monthly_projected", VNum (Fin (a / inject_Z 5)));
                     ("cumulative_projected", VNum (Fin cum));
                     ("budget", VNum (Fin b));
                     ("remaining_budget", VNum (Fin (b + - cum)))] key = Ok v ->
            cell_at (frame_of_records (concat projections)) key (r * months + m)
            = Some v).
  { intros key v Hkey Hv.
    by apply (frame_of_records_cell (concat projections) _ key _ _ v Hcum0 Hkey Hcum). }
  exists cum. split; [exact Ecum|].
  do 6 (split; [apply Hcell; [rewrite !elem_of_cons; auto 10 | reflexivity]|]).
  apply Hcell; [rewrite !elem_of_cons; auto 10 | reflexivity].
Qed.

Lemma cash_flow_projection_rows_witness :
  exists out,
    generate_cash_flow_projection sample_frame 12 = Ok out /\
    nrows out = 36%nat /\
    cell_at out "month" 13 = Some (VNum (Fin (inject_Z 2))).
Proof.
  destruct (cash_flow_projection_rows sample_frame
              [VStr "Clerk Salary"; VStr "Hall Income"; VStr "Insurance"]
              [VStr "Administration"; VStr "Income"; VStr "Administration"]
              [42134; 40000; 900] [19577; 14571; 0] 12)
    as (out & E & Hn & H).
  - apply (bool_decide_unpack _). vm_compute. exact I.
  - reflexivity.
  - reflexivity.
  - reflexivity.
  - reflexivity.
  - reflexivity.
  - reflexivity.
  - reflexivity.
  - reflexivity.
  - exists out. split; [exact E|]. split; [exact Hn|].
    destruct (H 1%nat 1%nat (VStr "Hall Income") (VStr "Income") 40000 14571
                eq_refl eq_refl eq_refl eq_refl ltac:(simpl; lia))
      as (cum & _ & _ & _ & Hm & _).
    exact Hm.
Defined.


(** ** Bounds of the simulation *)

Lemma clip_range (x lo hi : Q) :
  lo <= hi ->
  exists q, Float.clip (Fin x) (Fin lo) (Fin hi) = Fin q /\ lo <= q /\ q <= hi.
Proof.
  intros H. unfold Float.clip, Float.maximum, Float.minimum.
  cbn [Float.isnan orb Float.leb].
  destruct (Qle_bool x lo) eqn:E1; cbn [Float.isnan orb Float.leb].
  - rewrite (proj2 (Qle_bool_iff lo hi) H). exists lo. split; [done|]. lra.
  - assert (lo < x).
    { apply Qnot_le_lt. intros Hle. apply Qle_bool_iff in Hle. congruence. }
    destruct (Qle_bool x hi) eqn:E2.
    + apply Qle_bool_iff in E2. exists x. split; [done|]. lra.
    + exists hi. split; [done|]. lra.
Qed.

Lemma draw_probs_range normal cats k (probs : gmap string float) :
  (forall c v, probs !! c = Some v -> exists q, v = Fin q /\ 10 <= q /\ q <= 100) ->
  forall c v, fst (draw_probs normal cats k probs) !! c = Some v ->
              exists q, v = Fin q /\ 10 <= q /\ q <= 100.
Proof.
  revert k probs. induction cats as [|cat cats IH]; intros k probs H; simpl; [done|].
  apply IH. destruct cat as [x|s]; [done|].
  intros c v. rewrite lookup_insert. case_decide; [|by apply H].
  intros [= <-]. by apply clip_range.
Qed.

Lemma factor_range (probs : gmap string float) c :
  (forall c v, probs !! c = Some v -> exists q, v = Fin q /\ 10 <= q /\ q <= 100) ->
  exists f, factor_of probs c = Fin f /\ 1 # 10 <= f /\ f <= 1.
Proof.
  intros H. unfold factor_of.
  assert (F : exists q, probabilities_get probs c = Fin q /\ 10 <= q /\ q <= 100).
  { destruct c as [x|s]; simpl; [exists 100; split; [done|lra]|].
    destruct (probs !! s) as [v|] eqn:E; simpl; [by apply (H s)|].
    exists 100. split; [done|lra]. }
  destruct F as (q & -> & H1 & H2). unfold Float.div, Float.is_zero.
  replace (Qeq_bool 100 0) with false by reflexivity.
  exists (q / 100). split; [done|].
  assert (E : q / 100 == q * (1 # 100)) by reflexivity. rewrite E. split; lra.
Qed.

Lemma variance_sum_bounds (bq aq fq : list Q) :
  Forall2 Qle aq bq -> length fq = length bq ->
  Forall (fun f => 1 # 10 <= f /\ f <= 1) fq ->
  let pt := zip_with Qplus aq (zip_with Qmult (zip_with (fun b a => b + - a) bq aq) fq) in
  let pv := zip_with (fun b t => b + - t) bq pt in
  0 <= sum_rationals pv /\
  sum_rationals pv <= (9 # 10) * (sum_rationals bq - sum_rationals aq).
Proof.
  intros H. revert fq. induction H as [|a b aq bq Hab H IH]; intros [|f fq] Lf Hf;
    try done.
  simpl in Lf. apply Forall_cons in Hf as [[Hf1 Hf2] Hf].
  destruct (IH fq ltac:(lia) Hf) as [IH1 IH2].
  cbv zeta in *. cbn [zip_with]. rewrite !sum_rationals_cons. split; nra.
Qed.

Section Bounded.
Variable normal : nat -> Q.
Variable df : DataFrame.
Variables (cs : list value) (bq aq : list Q).
Hypothesis Hc : getitem df "category" = Ok cs.
Hypothesis Hb : getitem df (budget_col df) = Ok (VNum <$> (Fin <$> bq)).
Hypothesis Ha : getitem df (actual_col df) = Ok (VNum <$> (Fin <$> aq)).
Hypothesis Lc : length cs = nrows df.
Hypothesis Lb : length bq = nrows df.
Hypothesis Hle : Forall2 Qle aq bq.

Lemma trial_bounded (probs : gmap string float) :
  (forall c v, probs !! c = Some v -> exists q, v = Fin q /\ 10 <= q /\ q <= 100) ->
  exists out pv t,
    apply_probability_scenario df probs = Ok out /\
    getitem out "projected_variance" = Ok pv /\
    series_sum pv = Ok t /\ within_remaining bq aq t.
Proof.
  intros Hp.
  pose proof (apply_probability_scenario_num df probs cs _ _ Hc Hb Ha Lc) as E.
  cbv zeta in E.
  assert (Hf : exists fq, factor_of probs <$> cs = Fin <$> fq /\
                          Forall (fun f => 1 # 10 <= f /\ f <= 1) fq).
  { clear E Hc Lc. induction cs as [|c l IH]; [by exists []|].
    destruct IH as (fq & E & F).
    destruct (factor_range probs c Hp) as (f & Ef & Hf).
    exists (f :: fq). rewrite !fmap_cons, Ef, E. split; [done|]. by constructor. }
  destruct Hf as (fq & Hfq & Ff).
  assert (Lf : length fq = length bq).
  { rewrite Lb, <- Lc. rewrite <- (length_fmap Fin fq), <- Hfq. apply length_fmap. }
  rewrite Hfq in E.
  rewrite (zip_with_Fin Float.sub (fun b a => b + - a)) in E by done.
  rewrite (zip_with_Fin Float.mul Qmult) in E by done.
  rewrite (zip_with_Fin Float.add Qplus) in E by done.
  rewrite (zip_with_Fin Float.sub (fun b a => b + - a)) in E by done.
  destruct (variance_sum_bounds bq aq fq Hle Lf Ff) as [B1 B2]. cbv zeta in B1, B2.
  eexists _, _, _. split; [exact E|]. rewrite getitem_setitem_eq.
  split; [reflexivity|]. split; [apply series_sum_rationals|].
  eexists. split; [reflexivity|]. split; [exact B1 | exact B2].
Qed.

Lemma simulate_bounded (left k : nat) (results : list float) :
  Forall (within_remaining bq aq) results ->
  exists rs,
    simulate normal left k df results = Ok rs /\
    length rs = (length results + left)%nat /\
    Forall (within_remaining bq aq) rs.
Proof.
  revert k results. induction left as [|left IH]; intros k results Hr.
  - exists results. simpl. split; [done|]. split; [lia|done].
  - cbn [simulate]. rewrite Hc, bind_ok.
    destruct (draw_probs normal (unique cs) k ∅) as [probs k'] eqn:Ed.
    assert (Hp : forall c v, probs !! c = Some v ->
                             exists q, v = Fin q /\ 10 <= q /\ q <= 100).
    { intros c v. pose proof (draw_probs_range normal (unique cs) k ∅) as H.
      rewrite Ed in H. apply H. intros c' v'. by rewrite lookup_empty. }
    destruct (trial_bounded probs Hp) as (out & pv & t & E1 & E2 & E3 & Bt).
    rewrite E1, bind_ok, E2, bind_ok, E3, bind_ok.
    destruct (IH k' (results ++ [t])) as (rs & Hs & Hl & Hf).
    { apply Forall_app. split; [done|]. by constructor. }
    exists rs. split; [exact Hs|]. split; [|exact Hf].
    rewrite Hl, length_app. simpl. lia.
Qed.

End Bounded.

(** X14: the range of the simulated totals.  For a frame with distinct
    column names, a category column and finite budget and actual columns
    in which no item is overspent (actual <= budget in every row), and
    for every generator and every number of trials n >= 1, the simulation
    returns, and each total in all_results is finite and lies, in exact
    arithmetic, between 0 and 90% of the remaining budget, sum(budget) -
    sum(actual): the sampled probabilities are clipped to [10, 100]. *)
Theorem simulated_totals_are_bounded
    (normal : nat -> Q) (np_sqrt : float -> float)
    (df : DataFrame) (cs : list value) (bq aq : list Q) (n : nat) :
  NoDup (columns df) ->
  getitem df "category" = Ok cs ->
  getitem df (budget_col df) = Ok (VNum <$> (Fin <$> bq)) ->
  getitem df (actual_col df) = Ok (VNum <$> (Fin <$> aq)) ->
  length cs = nrows df -> length bq = nrows df -> length aq = nrows df ->
  (forall i budget actual,
     bq !! i = Some budget -> aq !! i = Some actual -> actual <= budget) ->
  (0 < n)%nat ->
  exists r,
    calculate_monte_carlo_simulation normal np_sqrt df n = Ok r /\
    Forall (fun total =>
              exists q, total = Fin q /\ 0 <= q /\
                        q <= (9 # 10) * (sum_rationals bq - sum_rationals aq))
           (all_results r).
Proof.
  intros _ Hc Hb Ha Lc Lb La Hle Hn.
  assert (Hle2 : Forall2 Qle aq bq).
  { apply Forall2_same_length_lookup. split; [lia|].
    intros i a b H1 H2. by apply (Hle i). }
  unfold calculate_monte_carlo_simulation.
  destruct (simulate_bounded normal df cs bq aq Hc Hb Ha Lc Lb Hle2 n 0 [])
    as (rs & Hs & Hl & Hf); [constructor|].
  simpl in Hl. rewrite Hs, bind_ok.
  destruct (finite_list rs) as [ql Eq].
  { eapply Forall_impl; [exact Hf|]. by intros t (q & -> & _). }
  subst rs. rewrite length_fmap in Hl.
  rewrite !percentile_finite by lia. rewrite !bind_ok.
  eexists. split; [reflexivity|]. cbn [all_results]. exact Hf.
Qed.

Lemma simulated_totals_are_bounded_witness :
  exists r,
    calculate_monte_carlo_simulation
      (fun k => inject_Z (Z.of_nat (50 + 10 * k))) (fun x => x) sample_frame 3 = Ok r /\
    Forall (fun total =>
              exists q, total = Fin q /\ 0 <= q /\
                        q <= (9 # 10) * (sum_rationals [42134; 40000; 900]
                                         - sum_rationals [19577; 14571; 0]))
           (all_results r).
Proof.
  apply (simulated_totals_are_bounded
           (fun k => inject_Z (Z.of_nat (50 + 10 * k))) (fun x => x) sample_frame
           [VStr "Administration"; VStr "Income"; VStr "Administration"]
           [42134; 40000; 900] [19577; 14571; 0] 3).
  - apply (bool_decide_unpack _). vm_compute. exact I.
  - reflexivity.
  - reflexivity.
  - reflexivity.
  - reflexivity.
  - reflexivity.
  - reflexivity.
  - intros [|[|[|i]]] budget actual; simpl; try done;
      intros [= <-] [= <-]; by vm_compute.
  - lia.
Defined.

Import FinancialDataProcessor.

(** ** The share of positive outcomes *)

Lemma share_is_percentage (c n : nat) :
  (c <= n)%nat -> (0 < n)%nat ->
  exists q,
    Float.mul (Float.div (Fin (inject_Z (Z.of_nat c))) (Fin (inject_Z (Z.of_nat n))))
              (Fin 100) = Fin q /\ 0 <= q /\ q <= 100.
Proof.
  intros Hc Hn. unfold Float.div, Float.is_zero.
  assert (Hy : 0 < inject_Z (Z.of_nat n)).
  { change 0 with (inject_Z 0). rewrite <- Zlt_Qlt. lia. }
  assert (Hx : 0 <= inject_Z (Z.of_nat c)).
  { change 0 with (inject_Z 0). rewrite <- Zle_Qle. lia. }
  assert (Hxy : inject_Z (Z.of_nat c) <= inject_Z (Z.of_nat n)).
  { rewrite <- Zle_Qle. lia. }
  destruct (Qeq_bool (inject_Z (Z.of_nat n)) 0) eqn:E.
  { apply Qeq_bool_iff in E. lra. }
  cbn [Float.mul]. eexists. split; [reflexivity|].
  set (x := inject_Z (Z.of_nat c)) in *. set (y := inject_Z (Z.of_nat n)) in *.
  assert (H0 : 0 <= x / y) by (apply Qle_shift_div_l; [done|lra]).
  assert (H1 : x / y <= 1) by (apply Qle_shift_div_r; [done|lra]).
  split; lra.
Qed.

(** X24: probability_positive is a percentage.  For a frame with
    distinct column names, a category column and finite budget and actual
    columns, every generator and every number of trials n >= 1, the
    simulation returns and its probability_positive is a finite number
    between 0 and 100. *)
Theorem probability_positive_is_a_percentage
    (normal : nat -> Q) (np_sqrt : float -> float)
    (df : DataFrame) (cs : list value) (bq aq : list Q) (n : nat) :
  NoDup (columns df) ->
  getitem df "category" = Ok cs ->
  getitem df (budget_col df) = Ok (VNum <$> (Fin <$> bq)) ->
  getitem df (actual_col df) = Ok (VNum <$> (Fin <$> aq)) ->
  length cs = nrows df ->
  (0 < n)%nat ->
  exists r q,
    calculate_monte_carlo_simulation normal np_sqrt df n = Ok r /\
    probability_positive r = Fin q /\ 0 <= q /\ q <= 100.
Proof.
  intros _ Hc Hb Ha Lc Hn. unfold calculate_monte_carlo_simulation.
  destruct (simulate_spec normal df cs bq aq Hc Hb Ha Lc n 0 [])
    as (rs & Hs & Hl & Hf); [constructor|].
  simpl in Hl. rewrite Hs, bind_ok.
  destruct (finite_list rs) as [ql ->].
  { eapply Forall_impl; [exact Hf|]. by intros t [Ft _]. }
  rewrite length_fmap in Hl.
  rewrite !percentile_finite by lia. rewrite !bind_ok.
  destruct (share_is_percentage
              (length (List.filter (fun x => Float.ltb (Fin 0) x) (Fin <$> ql)))
              (length (Fin <$> ql))) as (q & Hq & H0 & H1).
  { apply List.filter_length_le. }
  { rewrite length_fmap. lia. }
  eexists _, q. split; [reflexivity|]. cbn [probability_positive].
  split; [exact Hq|]. split; [exact H0|exact H1].
Qed.

Lemma probability_positive_is_a_percentage_witness :
  exists r q,
    calculate_monte_carlo_simulation
      (fun k => inject_Z (Z.of_nat (50 + 10 * k))) (fun x => x) sample_frame 3 = Ok r /\
    probability_positive r = Fin q /\ 0 <= q /\ q <= 100.
Proof.
  apply (probability_positive_is_a_percentage
           (fun k => inject_Z (Z.of_nat (50 + 10 * k))) (fun x => x) sample_frame
           [VStr "Administration"; VStr "Income"; VStr "Administration"]
           [42134; 40000; 900] [19577; 14571; 0] 3).
  - apply (bool_decide_unpack _). vm_compute. exact I.
  - reflexivity.
  - reflexivity.
  - reflexivity.
  - reflexivity.
  - lia.
Defined.

(** ** The text of a page *)

Lemma parse_lines_skipped line rest c d :
  skipped (Str.strip line) = true ->
  parse_lines (line :: rest) c d = parse_lines rest c d.
Proof. unfold skipped. intros H. cbn [parse_lines]. by rewrite H. Qed.

Lemma parse_lines_header line rest c d :
  skipped (Str.strip line) = false -> _is_category_header (Str.strip line) = true ->
  parse_lines (line :: rest) c d = parse_lines rest (Str.strip line) d.
Proof. unfold skipped. intros H1 H2. cbn [parse_lines]. by rewrite H1, H2. Qed.

Lemma parse_lines_item line rest c d :
  skipped (Str.strip line) = false -> _is_category_header (Str.strip line) = false ->
  parse_lines (line :: rest) c d
  = parse_lines rest c
      (d ++ match _parse_financial_line (Str.strip line) c with
            | Some financial_item => [financial_item]
            | None => []
            end).
Proof.
  unfold skipped. intros H1 H2. cbn [parse_lines]. rewrite H1, H2.
  destruct (_parse_financial_line _ _); [done|]. by rewrite app_nil_r.
Qed.

Lemma parse_lines_cases line rest c d :
  exists c' d', parse_lines (line :: rest) c d = parse_lines rest c' (d ++ d').
Proof.
  destruct (skipped (Str.strip line)) eqn:E1.
  - exists c, []. rewrite app_nil_r. by apply parse_lines_skipped.
  - destruct (_is_category_header (Str.strip line)) eqn:E2.
    + exists (Str.strip line), []. rewrite app_nil_r. by apply parse_lines_header.
    + eexists c, _. by apply parse_lines_item.
Qed.

Lemma parse_lines_prefix lines c d : exists d', parse_lines lines c d = d ++ d'.
Proof.
  revert c d. induction lines as [|line rest IH]; intros c d.
  - exists []. by rewrite app_nil_r.
  - destruct (parse_lines_cases line rest c d) as (c' & d1 & ->).
    destruct (IH c' (d ++ d1)) as [d2 ->]. exists (d1 ++ d2). by rewrite app_assoc.
Qed.

Lemma parse_lines_app l1 l2 c d :
  exists c' d', parse_lines (l1 ++ l2) c d = parse_lines l2 c' (d ++ d').
Proof.
  revert c d. induction l1 as [|line rest IH]; intros c d.
  - exists c, []. by rewrite app_nil_r.
  - rewrite <- app_comm_cons.
    destruct (parse_lines_cases line (rest ++ l2) c d) as (c1 & d1 & ->).
    destruct (IH c1 (d ++ d1)) as (c2 & d2 & ->).
    exists c2, (d1 ++ d2). by rewrite app_assoc.
Qed.

(** Lines without a header leave the active category as it is. *)
Lemma parse_lines_no_header mid l2 c d :
  Forall (fun l => skipped (Str.strip l) = true \/
                   _is_category_header (Str.strip l) = false) mid ->
  exists d', parse_lines (mid ++ l2) c d = parse_lines l2 c (d ++ d').
Proof.
  intros H. revert d. induction H as [|line rest Hl _ IH]; intros d.
  - exists []. by rewrite app_nil_r.
  - rewrite <- app_comm_cons.
    destruct (skipped (Str.strip line)) eqn:E1.
    + rewrite parse_lines_skipped by done. apply IH.
    + destruct Hl as [?|E2]; [congruence|].
      rewrite parse_lines_item by done.
      destruct (IH (d ++ match _parse_financial_line (Str.strip line) c with
                         | Some financial_item => [financial_item]
                         | None => []
                         end)) as [d2 ->].
      eexists. by rewrite <- app_assoc.
Qed.

(** X15: blank lines and the rows of the table header do not matter.  A
    line that, stripped, is empty or contains "Balance" or "Actual Net"
    can be removed from the text of a page at any place without changing
    the records the loop of [_parse_financial_text] returns, whatever the
    active category and the records found so far. *)
Theorem ignored_lines_do_not_matter (pre post : list string) (line c : string)
    (d : list Row) :
  skipped (Str.strip line) = true ->
  parse_lines (pre ++ line :: post) c d = parse_lines (pre ++ post) c d.
Proof.
  intros H. revert c d. induction pre as [|l pre IH]; intros c d.
  - by apply parse_lines_skipped.
  - rewrite <- !app_comm_cons.
    destruct (skipped (Str.strip l)) eqn:E1.
    + rewrite !parse_lines_skipped by done. apply IH.
    + destruct (_is_category_header (Str.strip l)) eqn:E2.
      * rewrite !parse_lines_header by done. apply IH.
      * rewrite !parse_lines_item by done. apply IH.
Qed.

Lemma ignored_lines_do_not_matter_witness :
  parse_lines (["EXPENDITURE"] ++ "Code Description Budget Actual Net Balance" :: [clerk_line])
              "" []
  = parse_lines (["EXPENDITURE"] ++ [clerk_line]) "" [].
Proof. apply ignored_lines_do_not_matter. reflexivity. Defined.

(** X16: a line item takes the last header above it.  When a header
    line is followed by lines none of which is a header, and then by a
    line that is neither ignored nor a header and that
    [_parse_financial_line] can parse, the record of that line is among
    the records returned, and its category is the stripped header line,
    whatever comes before the header or after the line. *)
Theorem line_item_takes_the_last_header (pre mid post : list string)
    (header line c : string) (d : list Row) (financial_item : Row) :
  skipped (Str.strip header) = false ->
  _is_category_header (Str.strip header) = true ->
  Forall (fun l => skipped (Str.strip l) = true \/
                   _is_category_header (Str.strip l) = false) mid ->
  skipped (Str.strip line) = false ->
  _is_category_header (Str.strip line) = false ->
  _parse_financial_line (Str.strip line) (Str.strip header) = Some financial_item ->
  financial_item ∈ parse_lines (pre ++ header :: mid ++ line :: post) c d /\
  row_get financial_item "category" = Ok (VStr (Str.strip header)).
Proof.
  intros H1 H2 Hmid L1 L2 Hp. split.
  - destruct (parse_lines_app pre (header :: mid ++ line :: post) c d)
      as (c1 & d1 & ->).
    rewrite parse_lines_header by done.
    destruct (parse_lines_no_header mid (line :: post) (Str.strip header) (d ++ d1) Hmid)
      as [d2 ->].
    rewrite parse_lines_item by done. rewrite Hp.
    match goal with
    | |- context [parse_lines post ?c' ?x] =>
        destruct (parse_lines_prefix post c' x) as [d3 ->]
    end.
    rewrite !elem_of_app, list_elem_of_singleton. auto.
  - revert Hp. unfold _parse_financial_line.
    destruct (Re.search pattern _); [by intros [= <-]|].
    destruct (Re.search simple_pattern _); [|done].
    destruct (_ <=? _)%nat; [by intros [= <-]|done].
Qed.

Lemma line_item_takes_the_last_header_witness :
  item "4000" "Clerks Salary" "EXPENDITURE"
       (Fin 42134.00) (Fin 19577.64) (Fin 22556.36)
    ∈ parse_lines (["INCOME"] ++ "  EXPENDITURE " :: [""] ++ clerk_line :: ["Total"]) "" [] /\
  row_get (item "4000" "Clerks Salary" "EXPENDITURE"
                (Fin 42134.00) (Fin 19577.64) (Fin 22556.36)) "category"
  = Ok (VStr (Str.strip "  EXPENDITURE ")).
Proof.
  apply (line_item_takes_the_last_header ["INCOME"] [""] ["Total"]
           "  EXPENDITURE " clerk_line "" []).
  - reflexivity.
  - reflexivity.
  - constructor; [left; reflexivity | constructor].
  - reflexivity.
  - reflexivity.
  - vm_compute. reflexivity.
Defined.

(** X17: the shape of the records of a page.  [_parse_financial_text]
    returns at most one record per line of the text.  Every record is a
    dictionary of the seven keys code, description, category,
    budget_2025_26, actual_net, balance and type, in this order, with
    strings for the first three, numbers for the three amounts, and for
    type the string Income when the record's category contains INCOME and
    Expenditure otherwise; and its category is either empty (no header
    seen yet) or a stripped line of the text that [_is_category_header]
    accepts. *)
Theorem parsed_records_shape (text : string) :
  let lines := Str.split_on "010" text in
  let records := _parse_financial_text text in
  (length records <= length lines)%nat /\
  Forall (fun r =>
            exists code description category budget actual balance,
              r = [("code", VStr code);
                   ("description", VStr description);
                   ("category", VStr category);
                   ("budget_2025_26", VNum budget);
                   ("actual_net", VNum actual);
                   ("balance", VNum balance);
                   ("type", VStr (if Str.contains "INCOME" category
                                  then "Income" else "Expenditure"))] /\
              (category = "" \/
               (category ∈ Str.strip <$> lines /\
                _is_category_header category = true)))
         records.
Proof.
  cbv zeta. unfold _parse_financial_text.
  set (lines := Str.split_on "010" text).
  match goal with |- _ /\ Forall ?Q _ => set (P := Q) end.
  assert (HP : forall code description category budget actual balance,
            (category = "" \/
             (category ∈ Str.strip <$> lines /\ _is_category_header category = true)) ->
            P (item code description category budget actual balance)).
  { intros code description category budget actual balance Hc. subst P. cbv beta.
    exists code, description, category, budget, actual, balance.
    split; [reflexivity | exact Hc]. }
  assert (G : forall rest c d,
            (forall l, l ∈ rest -> l ∈ lines) ->
            (c = "" \/ (c ∈ Str.strip <$> lines /\ _is_category_header c = true)) ->
            Forall P d ->
            (length (parse_lines rest c d) <= length d + length rest)%nat /\
            Forall P (parse_lines rest c d)).
  { induction rest as [|line rest IH]; intros c d Hin Hc Hd.
    - simpl. split; [lia | done].
    - assert (Hin' : forall l, l ∈ rest -> l ∈ lines)
        by (intros l Hl; apply Hin; by right).
      destruct (skipped (Str.strip line)) eqn:E1.
      + rewrite parse_lines_skipped by done.
        destruct (IH c d Hin' Hc Hd) as [I1 I2]. split; [simpl; lia | done].
      + destruct (_is_category_header (Str.strip line)) eqn:E2.
        * rewrite parse_lines_header by done.
          destruct (IH (Str.strip line) d Hin') as [I1 I2]; [|done|].
          { right. split; [|done]. apply list_elem_of_fmap. exists line.
            split; [done|]. apply Hin. left. }
          split; [simpl; lia | done].
        * rewrite parse_lines_item by done.
          destruct (IH c (d ++ match _parse_financial_line (Str.strip line) c with
                               | Some financial_item => [financial_item]
                               | None => []
                               end) Hin' Hc) as [I1 I2].
          { apply Forall_app. split; [done|].
            unfold _parse_financial_line.
            destruct (Re.search pattern _).
            - constructor; [|constructor]. by apply HP.
            - destruct (Re.search simple_pattern _); [|constructor].
              destruct (_ <=? _)%nat; [|constructor].
              constructor; [|constructor]. by apply HP. }
          split; [|done]. rewrite length_app in I1.
          destruct (_parse_financial_line _ _); simpl in *; lia. }
  destruct (G lines "" []) as [G1 G2]; [done | by left | constructor |].
  split; [simpl in G1; lia | done].
Qed.

(** ** Amounts *)

Lemma remove_char_app a s t :
  Str.remove_char a (s +:+ t) = Str.remove_char a s +:+ Str.remove_char a t.
Proof.
  induction s as [|c s IH]; [done|]. simpl.
  destruct (Ascii.eqb c a); simpl; by rewrite IH.
Qed.

(** X18: the pound sign and the thousands separators are ignored.
    Inserting a pound sign or a comma at any place of an amount does not
    change what [_clean_currency] returns. *)
Theorem currency_sign_and_separators_are_ignored (s t : string) :
  _clean_currency (s +:+ String Str.pound t) = _clean_currency (s +:+ t) /\
  _clean_currency (s +:+ String "," t) = _clean_currency (s +:+ t).
Proof.
  unfold _clean_currency. split.
  - rewrite !remove_char_app. cbn [Str.remove_char].
    replace (Ascii.eqb Str.pound Str.pound) with true by reflexivity. done.
  - rewrite !remove_char_app. cbn [Str.remove_char].
    replace (Ascii.eqb "," Str.pound) with false by reflexivity.
    cbn [Str.remove_char]. replace (Ascii.eqb "," ",") with true by reflexivity.
    done.
Qed.

(** ** Saved and default scenarios *)

(** X19: a saved scenario is loaded back.  After [save_scenario],
    [load_scenario] of the same name returns the saved probabilities, a
    second save under the same name replaces the first, the scenarios of
    other names are untouched, and a name never saved loads as None. *)
Theorem saved_scenario_is_loaded_back
    (scenarios : gmap string (gmap string float)) (name other : string)
    (probabilities earlier : gmap string float) :
  load_scenario (save_scenario scenarios name probabilities) name
  = Some probabilities /\
  load_scenario (save_scenario (save_scenario scenarios name earlier) name probabilities)
                name = Some probabilities /\
  (other <> name ->
   load_scenario (save_scenario scenarios name probabilities) other
   = load_scenario scenarios other) /\
  load_scenario ∅ name = None.
Proof.
  unfold load_scenario, save_scenario. split; [|split; [|split]].
  - apply lookup_insert_eq.
  - apply lookup_insert_eq.
  - intros H. by apply lookup_insert_ne.
  - apply lookup_empty.
Qed.

Section Uniform.
Variable uniform : nat -> Q -> Q -> Q.
Hypothesis uniform_range :
  forall k low high, low <= high ->
    low <= uniform k low high /\ uniform k low high <= high.

Lemma draw_uniform_spec categories k low high (scenario : gmap string float) :
  low <= high ->
  let r := draw_uniform uniform categories k low high scenario in
  snd r = (k + length categories)%nat /\
  (forall c, is_Some (fst r !! c) <-> c ∈ categories \/ is_Some (scenario !! c)) /\
  (forall c v, fst r !! c = Some v ->
     scenario !! c = Some v \/
     exists q, v = Fin q /\ low <= q /\ q <= high).
Proof.
  intros Hlh. revert k scenario.
  induction categories as [|cat rest IH]; intros k scenario; cbn [draw_uniform].
  - cbv zeta. cbn [fst snd length]. split; [lia|]. split.
    + intros c. rewrite elem_of_nil. tauto.
    + intros c v H. by left.
  - destruct (IH (S k) (<[cat := Fin (uniform k low high)]> scenario))
      as (I1 & I2 & I3).
    cbv zeta in *. split; [rewrite I1; simpl; lia|]. split.
    + intros c. rewrite I2, elem_of_cons.
      destruct (decide (c = cat)) as [->|Hne].
      * rewrite lookup_insert_eq. split; [auto|]. intros _. right. by eexists.
      * rewrite lookup_insert_ne by done. tauto.
    + intros c v H. destruct (I3 c v H) as [H'|H']; [|by right].
      destruct (decide (c = cat)) as [->|Hne].
      * rewrite lookup_insert_eq in H'. injection H' as <-. right.
        eexists. split; [reflexivity|]. by apply uniform_range.
      * rewrite lookup_insert_ne in H' by done. by left.
Qed.

Lemma draw_uniform_fresh categories k low high :
  low <= high ->
  let r := draw_uniform uniform categories k low high ∅ in
  snd r = (k + length categories)%nat /\
  (forall c, is_Some (fst r !! c) <-> c ∈ categories) /\
  (forall c v, fst r !! c = Some v -> exists q, v = Fin q /\ low <= q /\ q <= high).
Proof.
  intros Hlh. destruct (draw_uniform_spec categories k low high ∅ Hlh) as (H1 & H2 & H3).
  cbv zeta in *. split; [done|]. split.
  - intros c. rewrite H2, lookup_empty. split; [|auto].
    intros [?|H]; [done|]. by destruct H.
  - intros c v H. destruct (H3 c v H) as [H'|H']; [|done].
    by rewrite lookup_empty in H'.
Qed.

End Uniform.

(** X20: the default scenarios stay in their ranges.  For a generator
    whose samples lie between the bounds it is given,
    [get_default_scenarios] returns the four scenarios Conservative,
    Optimistic, Pessimistic and Realistic, in this order; each of them
    gives a probability to exactly the categories of the list, and the
    probabilities lie in [60, 80], [90, 100], [40, 60] and [70, 90]
    respectively. *)
Theorem default_scenarios_stay_in_range (uniform : nat -> Q -> Q -> Q)
    (categories : list string) :
  (forall k low high, low <= high ->
     low <= uniform k low high /\ uniform k low high <= high) ->
  exists conservative optimistic pessimistic realistic,
    get_default_scenarios uniform categories
    = [("Conservative", conservative); ("Optimistic", optimistic);
       ("Pessimistic", pessimistic); ("Realistic", realistic)] /\
    (forall c, is_Some (conservative !! c) <-> c ∈ categories) /\
    (forall c, is_Some (optimistic !! c) <-> c ∈ categories) /\
    (forall c, is_Some (pessimistic !! c) <-> c ∈ categories) /\
    (forall c, is_Some (realistic !! c) <-> c ∈ categories) /\
    (forall c v, conservative !! c = Some v -> exists q, v = Fin q /\ 60 <= q /\ q <= 80) /\
    (forall c v, optimistic !! c = Some v -> exists q, v = Fin q /\ 90 <= q /\ q <= 100) /\
    (forall c v, pessimistic !! c = Some v -> exists q, v = Fin q /\ 40 <= q /\ q <= 60) /\
    (forall c v, realistic !! c = Some v -> exists q, v = Fin q /\ 70 <= q /\ q <= 90).
Proof.
  intros Hu. unfold get_default_scenarios. cbv zeta.
  eexists _, _, _, _. split; [reflexivity|].
  destruct (draw_uniform_fresh uniform Hu categories 0 60 80 ltac:(lra)) as (A1 & A2 & A3).
  cbv zeta in A1, A2, A3.
  set (conservative := draw_uniform uniform categories 0 60 80 ∅) in *.
  destruct (draw_uniform_fresh uniform Hu categories (snd conservative) 90 100 ltac:(lra))
    as (B1 & B2 & B3).
  cbv zeta in B1, B2, B3.
  set (optimistic := draw_uniform uniform categories (snd conservative) 90 100 ∅) in *.
  destruct (draw_uniform_fresh uniform Hu categories (snd optimistic) 40 60 ltac:(lra))
    as (C1 & C2 & C3).
  cbv zeta in C1, C2, C3.
  set (pessimistic := draw_uniform uniform categories (snd optimistic) 40 60 ∅) in *.
  destruct (draw_uniform_fresh uniform Hu categories (snd pessimistic) 70 90 ltac:(lra))
    as (D1 & D2 & D3).
  cbv zeta in D1, D2, D3.
  split; [exact A2|]. split; [exact B2|]. split; [exact C2|]. split; [exact D2|].
  split; [exact A3|]. split; [exact B3|]. split; [exact C3 | exact D3].
Qed.

Lemma default_scenarios_stay_in_range_witness :
  exists conservative optimistic pessimistic realistic,
    get_default_scenarios (fun _ low high => (low + high) / 2)
                          ["Administration"; "Income"]
    = [("Conservative", conservative); ("Optimistic", optimistic);
       ("Pessimistic", pessimistic); ("Realistic", realistic)] /\
    (forall c v, conservative !! c = Some v -> exists q, v = Fin q /\ 60 <= q /\ q <= 80).
Proof.
  destruct (default_scenarios_stay_in_range
              (fun _ low high => (low + high) / 2) ["Administration"; "Income"])
    as (c & o & p & r & E & _ & _ & _ & _ & H & _).
  - intros _ low high Hle.
    assert (E : (low + high) / 2 == (low + high) * (1 # 2)) by reflexivity.
    rewrite E. split; lra.
  - by exists c, o, p, r.
Defined.
